(** * A shallow embedding of the Game Boy core of [emugb4k.py]

    The emulator core (cartridge, joypad, timer, PPU, bus, SM83 CPU and the
    frame loop) is transcribed class by class.  Python integers are [Z],
    bytearrays are [list Z] read and written by index, Python booleans are
    [bool], and every method that mutates [self] takes the object and gives
    the new one back.  Devices that the bus references are stored once,
    inside the bus record: the Python objects are aliases of one another
    ([GameBoy.ppu] is [GameBoy.mmu.ppu]), so a single copy is the shared
    store. *)

From stdpp Require Import base list.
From Stdlib Require Import ZArith Lia Bool.

Local Open Scope Z_scope.

(** ** Python values *)

(** Truth value of an integer used as a condition. *)
Definition truthy (z : Z) : bool := negb (z =? 0).

(** [int(b)] for a boolean. *)
Definition int_of_bool (b : bool) : Z := if b then 1 else 0.

(** [buf[i]] on a bytearray at an index that the surrounding code keeps in
    range (fixed-size buffers behind an address decode, or an explicit
    length guard). *)
Definition byte_at (buf : list Z) (i : Z) : Z := buf !!! Z.to_nat i.

(** [buf[i]] where the index may leave the buffer: [None] is Python's
    IndexError.  Negative indices count from the end, as in Python. *)
Definition getitem (buf : list Z) (i : Z) : option Z :=
  let n := Z.of_nat (length buf) in
  if (0 <=? i) && (i <? n) then buf !! Z.to_nat i
  else if (- n <=? i) && (i <? 0) then buf !! Z.to_nat (i + n)
  else None.

(** [buf[i] = v] at an index kept in range by the surrounding code. *)
Definition setitem (buf : list Z) (i v : Z) : list Z := <[Z.to_nat i := v]> buf.

(** [bytearray(n)]. *)
Definition bytearray (n : Z) : list Z := replicate (Z.to_nat n) 0.

(** ** Module constants *)

Definition DMG_COLORS : list (Z * Z * Z) :=
  [(0xE8, 0xF8, 0xD0); (0x88, 0xC0, 0x70); (0x34, 0x68, 0x56); (0x08, 0x18, 0x20)].

Definition INT_VBLANK : Z := 1.
Definition INT_STAT : Z := 2.
Definition INT_TIMER : Z := 4.
Definition INT_SERIAL : Z := 8.
Definition INT_JOYPAD : Z := 16.
Definition GB_W : Z := 160.
Definition GB_H : Z := 144.
Definition CYCLES_PER_FRAME : Z := 70224.

(** ** Cartridge and MBC *)

Module Cartridge.

(** The title string of the header is only shown by the shell and is left
    out. *)
Record t := mk {
  rom : list Z;
  ram : list Z;
  mbc_type : Z;
  rom_bank : Z;
  ram_bank : Z;
  ram_enabled : bool;
  mode : Z;
  num_rom_banks : Z;
  ram_size : Z
}.

Definition header_byte (data : list Z) (i : Z) : Z :=
  if Z.of_nat (length data) >? i then byte_at data i else 0.

Definition init (data : list Z) : t :=
  let nb := header_byte data 0x0148 in
  let ri := header_byte data 0x0149 in
  {| rom := data;
     ram := bytearray 0x20000;
     mbc_type := header_byte data 0x0147;
     rom_bank := 1;
     ram_bank := 0;
     ram_enabled := false;
     mode := 0;
     num_rom_banks := Z.max 2 (Z.shiftl 2 nb);
     ram_size := if ri <? 6
                 then byte_at [0; 2048; 8192; 32768; 131072; 65536] ri
                 else 0 |}.

Definition read (s : t) (a : Z) : Z :=
  if a <? 0x4000 then
    if a <? Z.of_nat (length (rom s)) then byte_at (rom s) a else 0xFF
  else if a <? 0x8000 then
    let bank := Z.land (rom_bank s) (num_rom_banks s - 1) in
    let off := bank * 0x4000 + (a - 0x4000) in
    if off <? Z.of_nat (length (rom s)) then byte_at (rom s) off else 0xFF
  else if (0xA000 <=? a) && (a <? 0xC000) then
    if ram_enabled s && truthy (ram_size s)
    then byte_at (ram s) (ram_bank s * 0x2000 + (a - 0xA000))
    else 0xFF
  else 0xFF.

Definition set_ram_enabled (x : bool) (s : t) : t :=
  mk (rom s) (ram s) (mbc_type s) (rom_bank s) (ram_bank s) x (mode s)
     (num_rom_banks s) (ram_size s).
Definition set_rom_bank (x : Z) (s : t) : t :=
  mk (rom s) (ram s) (mbc_type s) x (ram_bank s) (ram_enabled s) (mode s)
     (num_rom_banks s) (ram_size s).
Definition set_ram_bank (x : Z) (s : t) : t :=
  mk (rom s) (ram s) (mbc_type s) (rom_bank s) x (ram_enabled s) (mode s)
     (num_rom_banks s) (ram_size s).
Definition set_mode (x : Z) (s : t) : t :=
  mk (rom s) (ram s) (mbc_type s) (rom_bank s) (ram_bank s) (ram_enabled s) x
     (num_rom_banks s) (ram_size s).
Definition set_ram (x : list Z) (s : t) : t :=
  mk (rom s) x (mbc_type s) (rom_bank s) (ram_bank s) (ram_enabled s) (mode s)
     (num_rom_banks s) (ram_size s).

Definition banked (mt : Z) : bool :=
  existsb (Z.eqb mt) [1; 2; 3; 0x0F; 0x10; 0x11; 0x12; 0x13].

Definition write (s : t) (a v0 : Z) : t :=
  let v := Z.land v0 0xFF in
  let mt := mbc_type s in
  if mt =? 0 then s
  else if banked mt then
    if a <? 0x2000 then set_ram_enabled (Z.land v 0x0F =? 0x0A) s
    else if a <? 0x4000 then
      let lo0 := Z.land v (if mt <=? 3 then 0x1F else 0x7F) in
      let lo := if lo0 =? 0 then 1 else lo0 in
      if mt <=? 3
      then set_rom_bank (Z.lor (Z.land (rom_bank s) 0x60) lo) s
      else set_rom_bank lo s
    else if (a <? 0x6000) && (mt <=? 3) then
      if mode s =? 0
      then set_rom_bank (Z.lor (Z.land (rom_bank s) 0x1F) (Z.shiftl (Z.land v 3) 5)) s
      else set_ram_bank (Z.land v 3) s
    else if (a <? 0x8000) && (mt <=? 3) then set_mode (Z.land v 1) s
    else if (0xA000 <=? a) && (a <? 0xC000) then
      if ram_enabled s && truthy (ram_size s)
      then set_ram (setitem (ram s) (ram_bank s * 0x2000 + (a - 0xA000)) v) s
      else s
    else s
  else s.

End Cartridge.

(** ** Joypad *)

Module Joypad.

Record t := mk {
  a : bool; b : bool; sel : bool; start : bool;
  right : bool; left : bool; up : bool; down : bool;
  _sel_btn : bool; _sel_dir : bool
}.

Definition init : t :=
  mk false false false false false false false false false false.

(** [v &= ~m] when [cond] holds. *)
Definition clear_if (cond : bool) (m v : Z) : Z :=
  if cond then Z.land v (Z.lnot m) else v.

Definition read (s : t) : Z :=
  let v := 0xCF in
  let v :=
    if _sel_btn s then
      let v := Z.land v (Z.lnot 0x20) in
      let v := clear_if (a s) 1 v in
      let v := clear_if (b s) 2 v in
      let v := clear_if (sel s) 4 v in
      clear_if (start s) 8 v
    else v in
  if _sel_dir s then
    let v := Z.land v (Z.lnot 0x10) in
    let v := clear_if (right s) 1 v in
    let v := clear_if (left s) 2 v in
    let v := clear_if (up s) 4 v in
    clear_if (down s) 8 v
  else v.

Definition write (s : t) (v : Z) : t :=
  mk (a s) (b s) (sel s) (start s) (right s) (left s) (up s) (down s)
     (negb (truthy (Z.land v 0x20))) (negb (truthy (Z.land v 0x10))).

End Joypad.

(** ** Timer *)

Module Timer.

Record t := mk {
  div : Z; tima : Z; tma : Z; tac : Z;
  _of : bool; _of_d : Z
}.

(** The class dictionary [{0:9, 1:3, 2:5, 3:7}], indexed by [tac & 3]. *)
Definition BITS (k : Z) : Z :=
  if k =? 0 then 9 else if k =? 1 then 3 else if k =? 2 then 5 else 7.

Definition init : t := mk 0xABCC 0 0 0 false 0.

(** [(x >> bit) & 1], the test the code applies to DIV. *)
Definition tap (x bit : Z) : Z := Z.land (Z.shiftr x bit) 1.

(** [step] returns the [fired] flag together with the new timer. *)
Definition step (s : t) (cyc : Z) : bool * t :=
  let old := div s in
  let div' := Z.land (div s + cyc) 0xFFFF in
  (* overflow reload pending *)
  let '(fired, tima1, of1, of_d1) :=
    if _of s then
      let d := _of_d s - cyc in
      if d <=? 0 then (true, tma s, false, d)
      else (false, tima s, true, d)
    else (false, tima s, false, _of_d s) in
  if truthy (Z.land (tac s) 4) then
    let bit := BITS (Z.land (tac s) 3) in
    if truthy (tap old bit) && negb (truthy (tap div' bit)) then
      let tima2 := Z.land (tima1 + 1) 0xFF in
      if tima2 =? 0
      then (fired, mk div' tima2 (tma s) (tac s) true 4)
      else (fired, mk div' tima2 (tma s) (tac s) of1 of_d1)
    else (fired, mk div' tima1 (tma s) (tac s) of1 of_d1)
  else (fired, mk div' tima1 (tma s) (tac s) of1 of_d1).

Definition read (s : t) (a : Z) : Z :=
  if a =? 0xFF04 then Z.land (Z.shiftr (div s) 8) 0xFF
  else if a =? 0xFF05 then tima s
  else if a =? 0xFF06 then tma s
  else if a =? 0xFF07 then Z.lor (tac s) 0xF8
  else 0xFF.

Definition write (s : t) (a v : Z) : t :=
  if a =? 0xFF04 then mk 0 (tima s) (tma s) (tac s) (_of s) (_of_d s)
  else if a =? 0xFF05 then mk (div s) v (tma s) (tac s) (_of s) (_of_d s)
  else if a =? 0xFF06 then mk (div s) (tima s) v (tac s) (_of s) (_of_d s)
  else if a =? 0xFF07 then mk (div s) (tima s) (tma s) (Z.land v 7) (_of s) (_of_d s)
  else s.

End Timer.

(** ** PPU *)

Module PPU.

Record t := mk {
  vram : list Z; oam : list Z;
  lcdc : Z; stat : Z; scy : Z; scx : Z;
  ly : Z; lyc : Z;
  bgp : Z; obp0 : Z; obp1 : Z;
  wy : Z; wx : Z;
  mode : Z; cycles : Z; win_line : Z;
  _win_active : bool;
  pixels : list Z;
  frame_ready : bool
}.

Definition init : t :=
  {| vram := bytearray 0x2000; oam := bytearray 0xA0;
     lcdc := 0x91; stat := 0x85; scy := 0; scx := 0;
     ly := 0; lyc := 0;
     bgp := 0xFC; obp0 := 0xFF; obp1 := 0xFF;
     wy := 0; wx := 7;
     mode := 2; cycles := 0; win_line := 0;
     _win_active := false;
     pixels := bytearray (GB_W * GB_H * 3);
     frame_ready := false |}.

Definition set_vram (x : list Z) (s : t) : t :=
  mk x (oam s) (lcdc s) (stat s) (scy s) (scx s) (ly s) (lyc s) (bgp s) (obp0 s)
     (obp1 s) (wy s) (wx s) (mode s) (cycles s) (win_line s) (_win_active s)
     (pixels s) (frame_ready s).
Definition set_oam (x : list Z) (s : t) : t :=
  mk (vram s) x (lcdc s) (stat s) (scy s) (scx s) (ly s) (lyc s) (bgp s) (obp0 s)
     (obp1 s) (wy s) (wx s) (mode s) (cycles s) (win_line s) (_win_active s)
     (pixels s) (frame_ready s).
Definition set_lcdc (x : Z) (s : t) : t :=
  mk (vram s) (oam s) x (stat s) (scy s) (scx s) (ly s) (lyc s) (bgp s) (obp0 s)
     (obp1 s) (wy s) (wx s) (mode s) (cycles s) (win_line s) (_win_active s)
     (pixels s) (frame_ready s).
Definition set_stat (x : Z) (s : t) : t :=
  mk (vram s) (oam s) (lcdc s) x (scy s) (scx s) (ly s) (lyc s) (bgp s) (obp0 s)
     (obp1 s) (wy s) (wx s) (mode s) (cycles s) (win_line s) (_win_active s)
     (pixels s) (frame_ready s).
Definition set_scy (x : Z) (s : t) : t :=
  mk (vram s) (oam s) (lcdc s) (stat s) x (scx s) (ly s) (lyc s) (bgp s) (obp0 s)
     (obp1 s) (wy s) (wx s) (mode s) (cycles s) (win_line s) (_win_active s)
     (pixels s) (frame_ready s).
Definition set_scx (x : Z) (s : t) : t :=
  mk (vram s) (oam s) (lcdc s) (stat s) (scy s) x (ly s) (lyc s) (bgp s) (obp0 s)
     (obp1 s) (wy s) (wx s) (mode s) (cycles s) (win_line s) (_win_active s)
     (pixels s) (frame_ready s).
Definition set_ly (x : Z) (s : t) : t :=
  mk (vram s) (oam s) (lcdc s) (stat s) (scy s) (scx s) x (lyc s) (bgp s) (obp0 s)
     (obp1 s) (wy s) (wx s) (mode s) (cycles s) (win_line s) (_win_active s)
     (pixels s) (frame_ready s).
Definition set_lyc (x : Z) (s : t) : t :=
  mk (vram s) (oam s) (lcdc s) (stat s) (scy s) (scx s) (ly s) x (bgp s) (obp0 s)
     (obp1 s) (wy s) (wx s) (mode s) (cycles s) (win_line s) (_win_active s)
     (pixels s) (frame_ready s).
Definition set_bgp (x : Z) (s : t) : t :=
  mk (vram s) (oam s) (lcdc s) (stat s) (scy s) (scx s) (ly s) (lyc s) x (obp0 s)
     (obp1 s) (wy s) (wx s) (mode s) (cycles s) (win_line s) (_win_active s)
     (pixels s) (frame_ready s).
Definition set_obp0 (x : Z) (s : t) : t :=
  mk (vram s) (oam s) (lcdc s) (stat s) (scy s) (scx s) (ly s) (lyc s) (bgp s) x
     (obp1 s) (wy s) (wx s) (mode s) (cycles s) (win_line s) (_win_active s)
     (pixels s) (frame_ready s).
Definition set_obp1 (x : Z) (s : t) : t :=
  mk (vram s) (oam s) (lcdc s) (stat s) (scy s) (scx s) (ly s) (lyc s) (bgp s)
     (obp0 s) x (wy s) (wx s) (mode s) (cycles s) (win_line s) (_win_active s)
     (pixels s) (frame_ready s).
Definition set_wy (x : Z) (s : t) : t :=
  mk (vram s) (oam s) (lcdc s) (stat s) (scy s) (scx s) (ly s) (lyc s) (bgp s)
     (obp0 s) (obp1 s) x (wx s) (mode s) (cycles s) (win_line s) (_win_active s)
     (pixels s) (frame_ready s).
Definition set_wx (x : Z) (s : t) : t :=
  mk (vram s) (oam s) (lcdc s) (stat s) (scy s) (scx s) (ly s) (lyc s) (bgp s)
     (obp0 s) (obp1 s) (wy s) x (mode s) (cycles s) (win_line s) (_win_active s)
     (pixels s) (frame_ready s).
Definition set_mode (x : Z) (s : t) : t :=
  mk (vram s) (oam s) (lcdc s) (stat s) (scy s) (scx s) (ly s) (lyc s) (bgp s)
     (obp0 s) (obp1 s) (wy s) (wx s) x (cycles s) (win_line s) (_win_active s)
     (pixels s) (frame_ready s).
Definition set_cycles (x : Z) (s : t) : t :=
  mk (vram s) (oam s) (lcdc s) (stat s) (scy s) (scx s) (ly s) (lyc s) (bgp s)
     (obp0 s) (obp1 s) (wy s) (wx s) (mode s) x (win_line s) (_win_active s)
     (pixels s) (frame_ready s).
Definition set_win_line (x : Z) (s : t) : t :=
  mk (vram s) (oam s) (lcdc s) (stat s) (scy s) (scx s) (ly s) (lyc s) (bgp s)
     (obp0 s) (obp1 s) (wy s) (wx s) (mode s) (cycles s) x (_win_active s)
     (pixels s) (frame_ready s).
Definition set_win_active (x : bool) (s : t) : t :=
  mk (vram s) (oam s) (lcdc s) (stat s) (scy s) (scx s) (ly s) (lyc s) (bgp s)
     (obp0 s) (obp1 s) (wy s) (wx s) (mode s) (cycles s) (win_line s) x (pixels s)
     (frame_ready s).
Definition set_pixels (x : list Z) (s : t) : t :=
  mk (vram s) (oam s) (lcdc s) (stat s) (scy s) (scx s) (ly s) (lyc s) (bgp s)
     (obp0 s) (obp1 s) (wy s) (wx s) (mode s) (cycles s) (win_line s)
     (_win_active s) x (frame_ready s).
Definition set_frame_ready (x : bool) (s : t) : t :=
  mk (vram s) (oam s) (lcdc s) (stat s) (scy s) (scx s) (ly s) (lyc s) (bgp s)
     (obp0 s) (obp1 s) (wy s) (wx s) (mode s) (cycles s) (win_line s)
     (_win_active s) (pixels s) x.

Definition _shade (pal idx : Z) : Z * Z * Z :=
  let s := Z.land (Z.shiftr pal (idx * 2)) 3 in
  DMG_COLORS !!! Z.to_nat s.

(** The register dictionary of [read], looked up with default [0xFF]. *)
Definition read (s : t) (a : Z) : Z :=
  if (0x8000 <=? a) && (a <? 0xA000) then byte_at (vram s) (a - 0x8000)
  else if (0xFE00 <=? a) && (a <? 0xFEA0) then byte_at (oam s) (a - 0xFE00)
  else
    let r := Z.land a 0xFF in
    if r =? 0x40 then lcdc s
    else if r =? 0x41 then Z.land (Z.lor (stat s) 0x80) 0xFF
    else if r =? 0x42 then scy s
    else if r =? 0x43 then scx s
    else if r =? 0x44 then ly s
    else if r =? 0x45 then lyc s
    else if r =? 0x47 then bgp s
    else if r =? 0x48 then obp0 s
    else if r =? 0x49 then obp1 s
    else if r =? 0x4A then wy s
    else if r =? 0x4B then wx s
    else 0xFF.

Definition write (s : t) (a v : Z) : t :=
  if (0x8000 <=? a) && (a <? 0xA000) then set_vram (setitem (vram s) (a - 0x8000) v) s
  else if (0xFE00 <=? a) && (a <? 0xFEA0) then set_oam (setitem (oam s) (a - 0xFE00) v) s
  else
    let r := Z.land a 0xFF in
    if r =? 0x40 then
      let s :=
        if negb (truthy (Z.land v 0x80))
        then set_frame_ready true
               (set_pixels (bytearray (GB_W * GB_H * 3))
                  (set_mode 0 (set_cycles 0 (set_ly 0 s))))
        else s in
      set_lcdc v s
    else if r =? 0x41 then set_stat (Z.lor (Z.land (stat s) 0x87) (Z.land v 0x78)) s
    else if r =? 0x42 then set_scy v s
    else if r =? 0x43 then set_scx v s
    else if r =? 0x44 then set_ly 0 s
    else if r =? 0x45 then set_lyc v s
    else if r =? 0x47 then set_bgp v s
    else if r =? 0x48 then set_obp0 v s
    else if r =? 0x49 then set_obp1 v s
    else if r =? 0x4A then set_wy v s
    else if r =? 0x4B then set_wx v s
    else s.

(** *** Scanline renderer *)

(** [range(n)] as a list of integers. *)
Definition range (n : nat) : list Z := map Z.of_nat (seq 0 n).

(** The tile-row address computed for a fetched tile index [ti]. *)
Definition tile_addr (signed : bool) (tdata ti row : Z) : Z :=
  if signed then
    let ti := if ti <? 128 then ti else ti - 256 in
    0x0800 + ti * 16 + row * 2
  else tdata + ti * 16 + row * 2.

(** [use_win] of the pixel loop. *)
Definition use_win (s : t) (win_y_ok : bool) (px : Z) : bool :=
  win_y_ok && (px >=? wx s - 7) && truthy (Z.land (lcdc s) 0x20).

(** Writes the three colour bytes of one pixel. *)
Definition put_rgb (base x : Z) (rgb : Z * Z * Z) (s : t) : t :=
  let '(r, g, b) := rgb in
  set_pixels
    (setitem (setitem (setitem (pixels s) (base + x * 3) r) (base + x * 3 + 1) g)
       (base + x * 3 + 2) b) s.

(** One turn of [for px in range(GB_W)]; the state is the PPU and the
    local list [bg_idx].  [None] is the IndexError of the window map
    read. *)
Definition bg_pixel (ly0 base tmap tdata : Z) (signed win_y_ok : bool)
    (acc : t * list Z) (px : Z) : option (t * list Z) :=
  let '(s, bg_idx) := acc in
  let uw := use_win s win_y_ok px in
  let s := if uw then set_win_active true s else s in
  let fetched :=
    if uw && _win_active s then
      let tx := px - (wx s - 7) in
      let ty := win_line s in
      let wm := if truthy (Z.land (lcdc s) 0x40) then 0x1C00 else 0x1800 in
      match getitem (vram s) (wm + Z.shiftr ty 3 * 32 + Z.shiftr tx 3) with
      | Some ti => Some (ti, Z.land ty 7, Z.land tx 7)
      | None => None
      end
    else
      let sx := Z.land (scx s + px) 0xFF in
      let sy := Z.land (scy s + ly0) 0xFF in
      Some (byte_at (vram s) (tmap + Z.shiftr sy 3 * 32 + Z.shiftr sx 3),
            Z.land sy 7, Z.land sx 7) in
  match fetched with
  | None => None
  | Some (ti, row, col) =>
    let addr := tile_addr signed tdata ti row in
    if (addr <? 0) || (addr + 1 >=? 0x2000) then Some (s, bg_idx)
    else
      let lo := byte_at (vram s) addr in
      let hi := byte_at (vram s) (addr + 1) in
      let bit := 7 - col in
      let c := Z.lor (Z.shiftl (Z.land (Z.shiftr hi bit) 1) 1)
                     (Z.land (Z.shiftr lo bit) 1) in
      Some (put_rgb base px (_shade (bgp s) c) s, setitem bg_idx px c)
  end.

(** A [for] loop whose body may raise. *)
Fixpoint for_each {A B : Type} (body : A -> B -> option A) (acc : A) (xs : list B)
    : option A :=
  match xs with
  | [] => Some acc
  | x :: xs' =>
    match body acc x with
    | Some acc' => for_each body acc' xs'
    | None => None
    end
  end.

(** The background and window pass ([if self.lcdc & 1]). *)
Definition bg_pass (ly0 base : Z) (s : t) (bg_idx : list Z) : option (t * list Z) :=
  let tmap := if truthy (Z.land (lcdc s) 8) then 0x1C00 else 0x1800 in
  let tdata := if truthy (Z.land (lcdc s) 0x10) then 0x0000 else 0x0800 in
  let signed := negb (truthy (Z.land (lcdc s) 0x10)) in
  let win_y_ok := truthy (Z.land (lcdc s) 0x20) && (ly0 >=? wy s) in
  match for_each (bg_pixel ly0 base tmap tdata signed win_y_ok) (s, bg_idx)
          (range 160) with
  | None => None
  | Some (s, bg_idx) =>
    Some (if win_y_ok then set_win_line (win_line s + 1) s else s, bg_idx)
  end.

(** The OAM scan: at most ten sprites covering the line, in OAM order. *)
Fixpoint scan_oam (s : t) (ly0 sh : Z) (idxs : list Z) (sprites : list (Z * Z * Z * Z))
    : list (Z * Z * Z * Z) :=
  match idxs with
  | [] => sprites
  | i :: idxs' =>
    let oy := byte_at (oam s) (i * 4) - 16 in
    let ox := byte_at (oam s) (i * 4 + 1) - 8 in
    let ti := byte_at (oam s) (i * 4 + 2) in
    let at_ := byte_at (oam s) (i * 4 + 3) in
    let sprites :=
      if (oy <=? ly0) && (ly0 <? oy + sh) then sprites ++ [(ox, oy, ti, at_)]
      else sprites in
    if Z.of_nat (length sprites) =? 10 then sprites
    else scan_oam s ly0 sh idxs' sprites
  end.

(** One turn of the inner [for px in range(8)] of a sprite. *)
Definition sprite_pixel (base ox lo hi pal : Z) (fx prio : bool) (bg_idx : list Z)
    (s : t) (px : Z) : t :=
  let sx := ox + px in
  if (sx <? 0) || (sx >=? GB_W) then s
  else
    let bit := if fx then px else 7 - px in
    let c := Z.lor (Z.shiftl (Z.land (Z.shiftr hi bit) 1) 1)
                   (Z.land (Z.shiftr lo bit) 1) in
    if c =? 0 then s
    else if prio && negb (byte_at bg_idx sx =? 0) then s
    else put_rgb base sx (_shade pal c) s.

(** One turn of [for ox,oy,ti,at in reversed(sprites)]. *)
Definition draw_sprite (ly0 base sh : Z) (bg_idx : list Z) (s : t)
    (sp : Z * Z * Z * Z) : t :=
  let '(ox, oy, ti, at_) := sp in
  let pal := if truthy (Z.land at_ 0x10) then obp1 s else obp0 s in
  let fx := truthy (Z.land at_ 0x20) in
  let fy := truthy (Z.land at_ 0x40) in
  let prio := truthy (Z.land at_ 0x80) in
  let row := ly0 - oy in
  let row := if fy then (sh - 1) - row else row in
  let ti := if sh =? 16 then Z.land ti 0xFE else ti in
  let addr := ti * 16 + row * 2 in
  if addr + 1 >=? 0x2000 then s
  else
    let lo := byte_at (vram s) addr in
    let hi := byte_at (vram s) (addr + 1) in
    fold_left (sprite_pixel base ox lo hi pal fx prio bg_idx) (range 8) s.

(** The sprite pass ([if self.lcdc & 2]). *)
Definition sprite_pass (ly0 base : Z) (bg_idx : list Z) (s : t) : t :=
  let sh := if truthy (Z.land (lcdc s) 4) then 16 else 8 in
  let sprites := scan_oam s ly0 sh (range 40) [] in
  fold_left (draw_sprite ly0 base sh bg_idx) (rev sprites) s.

Definition _render (s : t) : option t :=
  let ly0 := ly s in
  if ly0 >=? GB_H then Some s
  else
    let base := ly0 * GB_W * 3 in
    let bg_idx := replicate (Z.to_nat GB_W) 0 in
    match (if truthy (Z.land (lcdc s) 1) then bg_pass ly0 base s bg_idx
           else Some (s, bg_idx)) with
    | None => None
    | Some (s, bg_idx) =>
      Some (if truthy (Z.land (lcdc s) 2) then sprite_pass ly0 base bg_idx s else s)
    end.

(** *** Mode machine *)

(** The closing two assignments of [step]: STAT mirrors mode and
    coincidence. *)
Definition refresh_stat (s : t) : t :=
  let s := set_stat (Z.lor (Z.land (stat s) 0xFC) (mode s)) s in
  set_stat (Z.lor (Z.land (stat s) (Z.lnot 4)) (if ly s =? lyc s then 4 else 0)) s.

(** [step] returns [(vb, st)] and the new PPU; [None] when the renderer
    raised. *)
Definition step (s : t) (cyc : Z) : option (bool * bool * t) :=
  if negb (truthy (Z.land (lcdc s) 0x80)) then Some (false, false, s)
  else
    let s := set_cycles (cycles s + cyc) s in
    let body : option (bool * bool * t) :=
      if mode s =? 2 then
        if cycles s >=? 80 then Some (false, false, set_mode 3 (set_cycles (cycles s - 80) s))
        else Some (false, false, s)
      else if mode s =? 3 then
        if cycles s >=? 172 then
          match _render (set_cycles (cycles s - 172) s) with
          | None => None
          | Some s =>
            let s := set_mode 0 s in
            Some (false, truthy (Z.land (stat s) 8), s)
          end
        else Some (false, false, s)
      else if mode s =? 0 then
        if cycles s >=? 204 then
          let s := set_ly (ly s + 1) (set_cycles (cycles s - 204) s) in
          let st := (ly s =? lyc s) && truthy (Z.land (stat s) 0x40) in
          if ly s =? 144 then
            let s := set_frame_ready true
                       (set_win_active false (set_win_line 0 (set_mode 1 s))) in
            Some (true, st || truthy (Z.land (stat s) 0x10), s)
          else
            let s := set_mode 2 s in
            Some (false, st || truthy (Z.land (stat s) 0x20), s)
        else Some (false, false, s)
      else if mode s =? 1 then
        if cycles s >=? 456 then
          let s := set_ly (ly s + 1) (set_cycles (cycles s - 456) s) in
          let st := (ly s =? lyc s) && truthy (Z.land (stat s) 0x40) in
          if ly s >? 153 then
            let s := set_mode 2 (set_ly 0 s) in
            Some (false, st || truthy (Z.land (stat s) 0x20), s)
          else Some (false, st, s)
        else Some (false, false, s)
      else Some (false, false, s) in
    match body with
    | None => None
    | Some (vb, st, s) => Some (vb, st, refresh_stat s)
    end.

End PPU.

(** ** Bus *)

Module MMU.

(** The interrupt request register is [IF_] ([IF] is reserved). *)
Record t := mk {
  cart : Cartridge.t; ppu : PPU.t; timer : Timer.t; joy : Joypad.t;
  wram : list Z; hram : list Z;
  IE : Z; IF_ : Z;
  _sb : Z; _sc : Z
}.

Definition init (crt : Cartridge.t) (p : PPU.t) (tm : Timer.t) (j : Joypad.t) : t :=
  {| cart := crt; ppu := p; timer := tm; joy := j;
     wram := bytearray 0x2000; hram := bytearray 0x80;
     IE := 0; IF_ := 0xE1; _sb := 0; _sc := 0 |}.

Definition set_cart (x : Cartridge.t) (s : t) : t :=
  mk x (ppu s) (timer s) (joy s) (wram s) (hram s) (IE s) (IF_ s) (_sb s) (_sc s).
Definition set_ppu (x : PPU.t) (s : t) : t :=
  mk (cart s) x (timer s) (joy s) (wram s) (hram s) (IE s) (IF_ s) (_sb s) (_sc s).
Definition set_timer (x : Timer.t) (s : t) : t :=
  mk (cart s) (ppu s) x (joy s) (wram s) (hram s) (IE s) (IF_ s) (_sb s) (_sc s).
Definition set_joy (x : Joypad.t) (s : t) : t :=
  mk (cart s) (ppu s) (timer s) x (wram s) (hram s) (IE s) (IF_ s) (_sb s) (_sc s).
Definition set_wram (x : list Z) (s : t) : t :=
  mk (cart s) (ppu s) (timer s) (joy s) x (hram s) (IE s) (IF_ s) (_sb s) (_sc s).
Definition set_hram (x : list Z) (s : t) : t :=
  mk (cart s) (ppu s) (timer s) (joy s) (wram s) x (IE s) (IF_ s) (_sb s) (_sc s).
Definition set_IE (x : Z) (s : t) : t :=
  mk (cart s) (ppu s) (timer s) (joy s) (wram s) (hram s) x (IF_ s) (_sb s) (_sc s).
Definition set_IF_ (x : Z) (s : t) : t :=
  mk (cart s) (ppu s) (timer s) (joy s) (wram s) (hram s) (IE s) x (_sb s) (_sc s).
Definition set_sb (x : Z) (s : t) : t :=
  mk (cart s) (ppu s) (timer s) (joy s) (wram s) (hram s) (IE s) (IF_ s) x (_sc s).
Definition set_sc (x : Z) (s : t) : t :=
  mk (cart s) (ppu s) (timer s) (joy s) (wram s) (hram s) (IE s) (IF_ s) (_sb s) x.

Definition rb (s : t) (a0 : Z) : Z :=
  let a := Z.land a0 0xFFFF in
  if a <? 0x8000 then Cartridge.read (cart s) a
  else if a <? 0xA000 then PPU.read (ppu s) a
  else if a <? 0xC000 then Cartridge.read (cart s) a
  else if a <? 0xE000 then byte_at (wram s) (a - 0xC000)
  else if a <? 0xFE00 then byte_at (wram s) (a - 0xE000)
  else if a <? 0xFEA0 then PPU.read (ppu s) a
  else if a <? 0xFF00 then 0xFF
  else if a =? 0xFF00 then Joypad.read (joy s)
  else if (0xFF01 <=? a) && (a <=? 0xFF02) then
    if a =? 0xFF01 then _sb s else _sc s
  else if (0xFF04 <=? a) && (a <=? 0xFF07) then Timer.read (timer s) a
  else if a =? 0xFF0F then Z.lor (IF_ s) 0xE0
  else if (0xFF10 <=? a) && (a <? 0xFF40) then 0xFF
  else if (0xFF40 <=? a) && (a <=? 0xFF4B) then PPU.read (ppu s) a
  else if (0xFF80 <=? a) && (a <? 0xFFFF) then byte_at (hram s) (a - 0xFF80)
  else if a =? 0xFFFF then IE s
  else 0xFF.

(** One turn of the OAM DMA loop: [self.ppu.oam[i] = self.rb(src + i)]. *)
Definition dma_byte (src : Z) (s : t) (i : Z) : t :=
  set_ppu (PPU.set_oam (setitem (PPU.oam (ppu s)) i (rb s (src + i))) (ppu s)) s.

Definition wb (s : t) (a0 v0 : Z) : t :=
  let a := Z.land a0 0xFFFF in
  let v := Z.land v0 0xFF in
  if a <? 0x8000 then set_cart (Cartridge.write (cart s) a v) s
  else if a <? 0xA000 then set_ppu (PPU.write (ppu s) a v) s
  else if a <? 0xC000 then set_cart (Cartridge.write (cart s) a v) s
  else if a <? 0xE000 then set_wram (setitem (wram s) (a - 0xC000) v) s
  else if a <? 0xFE00 then set_wram (setitem (wram s) (a - 0xE000) v) s
  else if a <? 0xFEA0 then set_ppu (PPU.write (ppu s) a v) s
  else if a <? 0xFF00 then s
  else if a =? 0xFF00 then set_joy (Joypad.write (joy s) v) s
  else if a =? 0xFF01 then set_sb v s
  else if a =? 0xFF02 then set_sc v s
  else if (0xFF04 <=? a) && (a <=? 0xFF07) then set_timer (Timer.write (timer s) a v) s
  else if a =? 0xFF0F then set_IF_ (Z.land v 0x1F) s
  else if a =? 0xFF46 then
    fold_left (dma_byte (Z.shiftl v 8)) (PPU.range 0xA0) s
  else if (0xFF10 <=? a) && (a <? 0xFF40) then s
  else if (0xFF40 <=? a) && (a <=? 0xFF4B) then set_ppu (PPU.write (ppu s) a v) s
  else if (0xFF80 <=? a) && (a <? 0xFFFF) then set_hram (setitem (hram s) (a - 0xFF80) v) s
  else if a =? 0xFFFF then set_IE v s
  else s.

Definition rw (s : t) (a : Z) : Z :=
  Z.lor (rb s a) (Z.shiftl (rb s (Z.land (a + 1) 0xFFFF)) 8).

Definition ww (s : t) (a v : Z) : t :=
  wb (wb s a (Z.land v 0xFF)) (Z.land (a + 1) 0xFFFF) (Z.land (Z.shiftr v 8) 0xFF).

End MMU.

(** ** SM83 CPU *)

Module CPU.

Record t := mk {
  mmu : MMU.t;
  pc : Z; sp : Z;
  a : Z; f : Z; b : Z; c : Z; d : Z; e : Z; h : Z; l : Z;
  halted : bool; ime : bool; _ime_pending : Z;
  cycles : Z
}.

Definition init (m : MMU.t) : t :=
  {| mmu := m; pc := 0x0100; sp := 0xFFFE;
     a := 0x01; f := 0xB0; b := 0x00; c := 0x13;
     d := 0x00; e := 0xD8; h := 0x01; l := 0x4D;
     halted := false; ime := false; _ime_pending := 0;
     cycles := 0 |}.

Definition set_mmu (x : MMU.t) (s : t) : t :=
  mk x (pc s) (sp s) (a s) (f s) (b s) (c s) (d s) (e s) (h s) (l s) (halted s)
     (ime s) (_ime_pending s) (cycles s).
Definition set_pc (x : Z) (s : t) : t :=
  mk (mmu s) x (sp s) (a s) (f s) (b s) (c s) (d s) (e s) (h s) (l s) (halted s)
     (ime s) (_ime_pending s) (cycles s).
Definition set_sp (x : Z) (s : t) : t :=
  mk (mmu s) (pc s) x (a s) (f s) (b s) (c s) (d s) (e s) (h s) (l s) (halted s)
     (ime s) (_ime_pending s) (cycles s).
Definition set_a (x : Z) (s : t) : t :=
  mk (mmu s) (pc s) (sp s) x (f s) (b s) (c s) (d s) (e s) (h s) (l s) (halted s)
     (ime s) (_ime_pending s) (cycles s).
Definition set_f (x : Z) (s : t) : t :=
  mk (mmu s) (pc s) (sp s) (a s) x (b s) (c s) (d s) (e s) (h s) (l s) (halted s)
     (ime s) (_ime_pending s) (cycles s).
Definition set_b (x : Z) (s : t) : t :=
  mk (mmu s) (pc s) (sp s) (a s) (f s) x (c s) (d s) (e s) (h s) (l s) (halted s)
     (ime s) (_ime_pending s) (cycles s).
Definition set_c (x : Z) (s : t) : t :=
  mk (mmu s) (pc s) (sp s) (a s) (f s) (b s) x (d s) (e s) (h s) (l s) (halted s)
     (ime s) (_ime_pending s) (cycles s).
Definition set_d (x : Z) (s : t) : t :=
  mk (mmu s) (pc s) (sp s) (a s) (f s) (b s) (c s) x (e s) (h s) (l s) (halted s)
     (ime s) (_ime_pending s) (cycles s).
Definition set_e (x : Z) (s : t) : t :=
  mk (mmu s) (pc s) (sp s) (a s) (f s) (b s) (c s) (d s) x (h s) (l s) (halted s)
     (ime s) (_ime_pending s) (cycles s).
Definition set_h (x : Z) (s : t) : t :=
  mk (mmu s) (pc s) (sp s) (a s) (f s) (b s) (c s) (d s) (e s) x (l s) (halted s)
     (ime s) (_ime_pending s) (cycles s).
Definition set_l (x : Z) (s : t) : t :=
  mk (mmu s) (pc s) (sp s) (a s) (f s) (b s) (c s) (d s) (e s) (h s) x (halted s)
     (ime s) (_ime_pending s) (cycles s).
Definition set_halted (x : bool) (s : t) : t :=
  mk (mmu s) (pc s) (sp s) (a s) (f s) (b s) (c s) (d s) (e s) (h s) (l s) x (ime s)
     (_ime_pending s) (cycles s).
Definition set_ime (x : bool) (s : t) : t :=
  mk (mmu s) (pc s) (sp s) (a s) (f s) (b s) (c s) (d s) (e s) (h s) (l s)
     (halted s) x (_ime_pending s) (cycles s).
Definition set_ime_pending (x : Z) (s : t) : t :=
  mk (mmu s) (pc s) (sp s) (a s) (f s) (b s) (c s) (d s) (e s) (h s) (l s)
     (halted s) (ime s) x (cycles s).
Definition set_cycles (x : Z) (s : t) : t :=
  mk (mmu s) (pc s) (sp s) (a s) (f s) (b s) (c s) (d s) (e s) (h s) (l s)
     (halted s) (ime s) (_ime_pending s) x.

(** *** Methods as state transformers

    A method is a function from the CPU to its result and the CPU it
    leaves behind. *)

Definition M (A : Type) : Type := t -> A * t.

Definition ret {A : Type} (x : A) : M A := fun s => (x, s).

Definition bind {A B : Type} (m : M A) (k : A -> M B) : M B :=
  fun s => let (x, s') := m s in k x s'.

Definition get {A : Type} (proj : t -> A) : M A := fun s => (proj s, s).

Definition modify (g : t -> t) : M unit := fun s => (tt, g s).

Declare Scope cpu_scope.
Delimit Scope cpu_scope with cpu.
Notation "x <- m ;; k" := (bind m (fun x => k))
  (at level 100, m at next level, right associativity) : cpu_scope.
Notation "m ;; k" := (bind m (fun _ => k))
  (at level 100, right associativity) : cpu_scope.
Local Open Scope cpu_scope.

(** *** Flag helpers *)

Definition _zf (s : t) : bool := truthy (Z.land (f s) 0x80).
Definition _nf (s : t) : bool := truthy (Z.land (f s) 0x40).
Definition _hf (s : t) : bool := truthy (Z.land (f s) 0x20).
Definition _cf (s : t) : bool := truthy (Z.land (f s) 0x10).

Definition flag_byte (zv nv hv cv : bool) : Z :=
  Z.lor (Z.lor (Z.lor (if zv then 0x80 else 0) (if nv then 0x40 else 0))
               (if hv then 0x20 else 0))
        (if cv then 0x10 else 0).

Definition _sf (zv nv hv cv : bool) : M unit :=
  modify (set_f (flag_byte zv nv hv cv)).

(** *** 16-bit register helpers *)

Definition _af (s : t) : Z := Z.lor (Z.shiftl (a s) 8) (Z.land (f s) 0xF0).
Definition _bc (s : t) : Z := Z.lor (Z.shiftl (b s) 8) (c s).
Definition _de (s : t) : Z := Z.lor (Z.shiftl (d s) 8) (e s).
Definition _hl (s : t) : Z := Z.lor (Z.shiftl (h s) 8) (l s).

Definition _set_af (v0 : Z) : M unit :=
  let v := Z.land v0 0xFFF0 in
  modify (fun s => set_f (Z.land v 0xFF) (set_a (Z.land (Z.shiftr v 8) 0xFF) s)).
Definition _set_bc (v : Z) : M unit :=
  modify (fun s => set_c (Z.land v 0xFF) (set_b (Z.land (Z.shiftr v 8) 0xFF) s)).
Definition _set_de (v : Z) : M unit :=
  modify (fun s => set_e (Z.land v 0xFF) (set_d (Z.land (Z.shiftr v 8) 0xFF) s)).
Definition _set_hl (v : Z) : M unit :=
  modify (fun s => set_l (Z.land v 0xFF) (set_h (Z.land (Z.shiftr v 8) 0xFF) s)).

(** *** Bus access *)

Definition rb (addr : Z) : M Z := get (fun s => MMU.rb (mmu s) addr).
Definition wb (addr v : Z) : M unit :=
  modify (fun s => set_mmu (MMU.wb (mmu s) addr v) s).
Definition rw (addr : Z) : M Z := get (fun s => MMU.rw (mmu s) addr).
Definition ww (addr v : Z) : M unit :=
  modify (fun s => set_mmu (MMU.ww (mmu s) addr v) s).

Definition _r8 (reg : Z) : M Z :=
  get (fun s =>
    [b s; c s; d s; e s; h s; l s; MMU.rb (mmu s) (_hl s); a s] !!! Z.to_nat reg).

Definition _w8 (reg v0 : Z) : M unit :=
  let v := Z.land v0 0xFF in
  if reg =? 0 then modify (set_b v)
  else if reg =? 1 then modify (set_c v)
  else if reg =? 2 then modify (set_d v)
  else if reg =? 3 then modify (set_e v)
  else if reg =? 4 then modify (set_h v)
  else if reg =? 5 then modify (set_l v)
  else if reg =? 6 then (hl <- get _hl ;; wb hl v)
  else if reg =? 7 then modify (set_a v)
  else ret tt.

Definition _fetch : M Z :=
  p <- get pc ;;
  v <- rb p ;;
  modify (set_pc (Z.land (p + 1) 0xFFFF)) ;;
  ret v.

Definition _fetch16 : M Z :=
  lo <- _fetch ;;
  hi <- _fetch ;;
  ret (Z.lor lo (Z.shiftl hi 8)).

(** *** ALU *)

Definition _add (v carry : Z) : M unit :=
  x <- get a ;;
  let r := x + v + carry in
  _sf (Z.land r 0xFF =? 0) false
      (Z.land x 0xF + Z.land v 0xF + carry >? 0xF) (r >? 0xFF) ;;
  modify (set_a (Z.land r 0xFF)).

Definition _sub (v carry : Z) : M unit :=
  x <- get a ;;
  let r := x - v - carry in
  _sf (Z.land r 0xFF =? 0) true
      (Z.land x 0xF - Z.land v 0xF - carry <? 0) (r <? 0) ;;
  modify (set_a (Z.land r 0xFF)).

Definition _and (v : Z) : M unit :=
  modify (fun s => set_a (Z.land (a s) v) s) ;;
  x <- get a ;;
  _sf (x =? 0) false true false.

Definition _xor (v : Z) : M unit :=
  modify (fun s => set_a (Z.lxor (a s) v) s) ;;
  x <- get a ;;
  _sf (x =? 0) false false false.

Definition _or (v : Z) : M unit :=
  modify (fun s => set_a (Z.lor (a s) v) s) ;;
  x <- get a ;;
  _sf (x =? 0) false false false.

Definition _cp (v : Z) : M unit :=
  x <- get a ;;
  let r := x - v in
  _sf (Z.land r 0xFF =? 0) true (Z.land x 0xF - Z.land v 0xF <? 0) (r <? 0).

Definition _add_hl (v : Z) : M unit :=
  hl <- get _hl ;;
  let r := hl + v in
  let hv := Z.land hl 0xFFF + Z.land v 0xFFF >? 0xFFF in
  zv <- get _zf ;;
  _sf zv false hv (r >? 0xFFFF) ;;
  _set_hl (Z.land r 0xFFFF).

Definition _inc8 (v : Z) : M Z :=
  let r := Z.land (v + 1) 0xFF in
  cv <- get _cf ;;
  _sf (r =? 0) false (Z.land v 0xF =? 0xF) cv ;;
  ret r.

Definition _dec8 (v : Z) : M Z :=
  let r := Z.land (v - 1) 0xFF in
  cv <- get _cf ;;
  _sf (r =? 0) true (Z.land v 0xF =? 0) cv ;;
  ret r.

(** [_rl]: the two assignments to [r] that precede the final [if] compute
    the same value and are overwritten by it. *)
Definition _rl (v : Z) (thru : bool) : M Z :=
  cv <- get _cf ;;
  let c0 := if thru then int_of_bool cv else Z.land (Z.shiftr v 7) 1 in
  let r :=
    if thru then Z.land (Z.lor (Z.shiftl v 1) (if cv then 1 else 0)) 0xFF
    else Z.land (Z.lor (Z.shiftl v 1) c0) 0xFF in
  _sf (r =? 0) false false (truthy (Z.land v 0x80)) ;;
  ret r.

Definition _rr (v : Z) (thru : bool) : M Z :=
  let c0 := Z.land v 1 in
  cv <- get _cf ;;
  let r :=
    if thru then Z.land (Z.lor (Z.shiftr v 1) (if cv then 0x80 else 0)) 0xFF
    else Z.land (Z.lor (Z.shiftr v 1) (Z.shiftl c0 7)) 0xFF in
  _sf (r =? 0) false false (truthy c0) ;;
  ret r.

Definition _sla (v : Z) : M Z :=
  let r := Z.land (Z.shiftl v 1) 0xFF in
  _sf (r =? 0) false false (truthy (Z.land v 0x80)) ;; ret r.

Definition _sra (v : Z) : M Z :=
  let r := Z.land (Z.lor (Z.shiftr v 1) (Z.land v 0x80)) 0xFF in
  _sf (r =? 0) false false (truthy (Z.land v 1)) ;; ret r.

Definition _srl (v : Z) : M Z :=
  let r := Z.land (Z.shiftr v 1) 0xFF in
  _sf (r =? 0) false false (truthy (Z.land v 1)) ;; ret r.

Definition _swap (v : Z) : M Z :=
  let r := Z.lor (Z.shiftl (Z.land v 0xF) 4) (Z.land (Z.shiftr v 4) 0xF) in
  _sf (r =? 0) false false false ;; ret r.

Definition _bit (n v : Z) : M unit :=
  cv <- get _cf ;;
  _sf (negb (truthy (Z.land v (Z.shiftl 1 n)))) false true cv.

Definition _set_b (n v : Z) : Z := Z.lor v (Z.shiftl 1 n).
Definition _res_b (n v : Z) : Z := Z.land v (Z.lnot (Z.shiftl 1 n)).

(** *** Stack and control flow *)

Definition _push (v : Z) : M unit :=
  modify (fun s => set_sp (Z.land (sp s - 2) 0xFFFF) s) ;;
  p <- get sp ;;
  ww p v.

Definition _pop : M Z :=
  p <- get sp ;;
  v <- rw p ;;
  modify (set_sp (Z.land (p + 2) 0xFFFF)) ;;
  ret v.

Definition _call (addr : Z) : M unit :=
  p <- get pc ;;
  _push (Z.land p 0xFFFF) ;;
  modify (set_pc addr).

Definition _ret : M unit :=
  v <- _pop ;;
  modify (set_pc v).

Definition _jr (offset : Z) : M unit :=
  modify (fun s => set_pc (Z.land (pc s + (Z.lxor offset 0x80 - 0x80)) 0xFFFF) s).

Definition _sp_add (v : Z) : M Z :=
  let sv := Z.lxor v 0x80 - 0x80 in
  p <- get sp ;;
  let r := Z.land (p + sv) 0xFFFF in
  _sf false false
      (Z.land p 0xF + Z.land v 0xF >? 0xF)
      (Z.land p 0xFF + Z.land v 0xFF >? 0xFF) ;;
  ret r.

(** *** Interrupt handling *)

(** The [for bit,vec in [...]] loop of [handle_interrupts], which returns
    at the first pending bit. *)
Fixpoint dispatch (fired : Z) (table : list (Z * Z)) : M unit :=
  match table with
  | [] => ret tt
  | (bit, vec) :: table' =>
    if truthy (Z.land fired (Z.shiftl 1 bit)) then
      modify (fun s =>
        set_mmu (MMU.set_IF_ (Z.land (MMU.IF_ (mmu s)) (Z.lnot (Z.shiftl 1 bit)))
                   (mmu s)) s) ;;
      p <- get pc ;;
      _push p ;;
      modify (set_pc vec) ;;
      modify (fun s => set_cycles (cycles s + 20) s)
    else dispatch fired table'
  end.

Definition vectors : list (Z * Z) :=
  [(0, 0x40); (1, 0x48); (2, 0x50); (3, 0x58); (4, 0x60)].

Definition handle_interrupts : M unit :=
  fired <- get (fun s => Z.land (Z.land (MMU.IE (mmu s)) (MMU.IF_ (mmu s))) 0x1F) ;;
  if truthy fired then
    hlt <- get halted ;;
    (if hlt then modify (set_halted false) else ret tt) ;;
    en <- get ime ;;
    if en then
      modify (set_ime false) ;;
      dispatch fired vectors
    else ret tt
  else ret tt.

(** *** Opcode families

    Opcodes that differ only in the register or the condition they name
    share one definition, applied to that register or condition. *)

(** [self.r = self._inc8(self.r)] and [self.r = self._dec8(self.r)]. *)
Definition inc_reg (getr : t -> Z) (setr : Z -> t -> t) : M Z :=
  x <- get getr ;; r <- _inc8 x ;; modify (setr r) ;; ret 4.
Definition dec_reg (getr : t -> Z) (setr : Z -> t -> t) : M Z :=
  x <- get getr ;; r <- _dec8 x ;; modify (setr r) ;; ret 4.

(** [self.r = self._fetch(); c = 8]. *)
Definition ld_imm (setr : Z -> t -> t) : M Z :=
  v <- _fetch ;; modify (setr v) ;; ret 8.

(** [d = self._fetch(); c = 8; if cond: self._jr(d); c = 12]. *)
Definition jr_cc (cond : t -> bool) : M Z :=
  off <- _fetch ;;
  taken <- get cond ;;
  if taken then (_jr off ;; ret 12) else ret 8.

(** [c = 8; if cond: self._ret(); c = 20]. *)
Definition ret_cc (cond : t -> bool) : M Z :=
  taken <- get cond ;;
  if taken then (_ret ;; ret 20) else ret 8.

(** [a = self._fetch16(); c = 12; if cond: self.pc = a; c = 16]. *)
Definition jp_cc (cond : t -> bool) : M Z :=
  addr <- _fetch16 ;;
  taken <- get cond ;;
  if taken then (modify (set_pc addr) ;; ret 16) else ret 12.

(** [a = self._fetch16(); c = 12; if cond: self._call(a); c = 24]. *)
Definition call_cc (cond : t -> bool) : M Z :=
  addr <- _fetch16 ;;
  taken <- get cond ;;
  if taken then (_call addr ;; ret 24) else ret 12.

(** [self._call(vec); c = 16]. *)
Definition rst (vec : Z) : M Z := _call vec ;; ret 16.

(** [c = 4 + (4 if (op & 7) == 6 else 0)]. *)
Definition alu_cost (op : Z) : Z := 4 + (if Z.land op 7 =? 6 then 4 else 0).

Definition nz (s : t) : bool := negb (_zf s).
Definition nc (s : t) : bool := negb (_cf s).

(** DAA (opcode 0x27). *)
Definition daa : M unit :=
  modify (fun s =>
    let x := a s in
    let '(x, fl) :=
      if negb (_nf s) then
        let x := if _hf s || (Z.land x 0xF >? 9) then x + 6 else x in
        if _cf s || (x >? 0x99) then (x + 0x60, Z.lor (f s) 0x10) else (x, f s)
      else
        let x := if _hf s then x - 6 else x in
        let x := if _cf s then x - 0x60 else x in
        (x, f s) in
    let r := Z.land x 0xFF in
    set_f (Z.lor (Z.land fl (Z.lnot 0xA0)) (if r =? 0 then 0x80 else 0)) (set_a r s)).

(** *** CB-prefixed opcodes

    After the rotate is chosen, the block under the comment "fix
    rotate-not-thru" only assigns the locals [c2] and [orig]; it changes
    neither [v] nor the CPU. *)
Definition _cb : M Z :=
  op <- _fetch ;;
  let reg := Z.land op 7 in
  let bit := Z.land (Z.shiftr op 3) 7 in
  let grp := Z.shiftr op 6 in
  v <- _r8 reg ;;
  let cost := 8 + (if reg =? 6 then 4 else 0) in
  (if grp =? 0 then
     r <- (if bit =? 0 then _rl v true        (* RLC *)
           else if bit =? 1 then _rr v true   (* RRC *)
           else if bit =? 2 then _rl v true   (* RL *)
           else if bit =? 3 then _rr v true   (* RR *)
           else if bit =? 4 then _sla v
           else if bit =? 5 then _sra v
           else if bit =? 6 then _swap v
           else if bit =? 7 then _srl v
           else ret v) ;;
     _w8 reg r
   else if grp =? 1 then _bit bit v
   else if grp =? 2 then _w8 reg (_res_b bit v)
   else if grp =? 3 then _w8 reg (_set_b bit v)
   else ret tt) ;;
  ret (cost + 4).

(** *** Main opcode table

    [exec op] is the [if]/[elif] chain of [step] after the fetch; it
    returns the local [c], which starts at 4. *)
Definition exec (op : Z) : M Z :=
  if op =? 0x00 then ret 4
  else if op =? 0x01 then (v <- _fetch16 ;; _set_bc v ;; ret 12)
  else if op =? 0x02 then (bc <- get _bc ;; x <- get a ;; wb bc x ;; ret 8)
  else if op =? 0x03 then (bc <- get _bc ;; _set_bc (Z.land (bc + 1) 0xFFFF) ;; ret 8)
  else if op =? 0x04 then inc_reg b set_b
  else if op =? 0x05 then dec_reg b set_b
  else if op =? 0x06 then ld_imm set_b
  else if op =? 0x07 then
    (x <- get a ;;
     let c2 := Z.shiftr x 7 in
     modify (set_a (Z.land (Z.lor (Z.shiftl x 1) c2) 0xFF)) ;;
     _sf false false false (truthy c2) ;; ret 4)
  else if op =? 0x08 then (addr <- _fetch16 ;; p <- get sp ;; ww addr p ;; ret 20)
  else if op =? 0x09 then (bc <- get _bc ;; _add_hl bc ;; ret 8)
  else if op =? 0x0A then (bc <- get _bc ;; v <- rb bc ;; modify (set_a v) ;; ret 8)
  else if op =? 0x0B then (bc <- get _bc ;; _set_bc (Z.land (bc - 1) 0xFFFF) ;; ret 8)
  else if op =? 0x0C then inc_reg c set_c
  else if op =? 0x0D then dec_reg c set_c
  else if op =? 0x0E then ld_imm set_c
  else if op =? 0x0F then
    (x <- get a ;;
     let c2 := Z.land x 1 in
     modify (set_a (Z.land (Z.lor (Z.shiftr x 1) (Z.shiftl c2 7)) 0xFF)) ;;
     _sf false false false (truthy c2) ;; ret 4)
  else if op =? 0x10 then (_fetch ;; ret 4)
  else if op =? 0x11 then (v <- _fetch16 ;; _set_de v ;; ret 12)
  else if op =? 0x12 then (de <- get _de ;; x <- get a ;; wb de x ;; ret 8)
  else if op =? 0x13 then (de <- get _de ;; _set_de (Z.land (de + 1) 0xFFFF) ;; ret 8)
  else if op =? 0x14 then inc_reg d set_d
  else if op =? 0x15 then dec_reg d set_d
  else if op =? 0x16 then ld_imm set_d
  else if op =? 0x17 then
    (c2 <- get _cf ;;
     x <- get a ;;
     let carry_out := Z.shiftr x 7 in
     modify (set_a (Z.land (Z.lor (Z.shiftl x 1) (if c2 then 1 else 0)) 0xFF)) ;;
     _sf false false false (truthy carry_out) ;; ret 4)
  else if op =? 0x18 then (off <- _fetch ;; _jr off ;; ret 12)
  else if op =? 0x19 then (de <- get _de ;; _add_hl de ;; ret 8)
  else if op =? 0x1A then (de <- get _de ;; v <- rb de ;; modify (set_a v) ;; ret 8)
  else if op =? 0x1B then (de <- get _de ;; _set_de (Z.land (de - 1) 0xFFFF) ;; ret 8)
  else if op =? 0x1C then inc_reg e set_e
  else if op =? 0x1D then dec_reg e set_e
  else if op =? 0x1E then ld_imm set_e
  else if op =? 0x1F then
    (x <- get a ;;
     let c2 := Z.land x 1 in
     carry_in <- get _cf ;;
     modify (set_a (Z.land (Z.lor (Z.shiftr x 1) (if carry_in then 0x80 else 0)) 0xFF)) ;;
     _sf false false false (truthy c2) ;; ret 4)
  else if op =? 0x20 then jr_cc nz
  else if op =? 0x21 then (v <- _fetch16 ;; _set_hl v ;; ret 12)
  else if op =? 0x22 then
    (hl <- get _hl ;; x <- get a ;; wb hl x ;;
     hl <- get _hl ;; _set_hl (Z.land (hl + 1) 0xFFFF) ;; ret 8)
  else if op =? 0x23 then (hl <- get _hl ;; _set_hl (Z.land (hl + 1) 0xFFFF) ;; ret 8)
  else if op =? 0x24 then inc_reg h set_h
  else if op =? 0x25 then dec_reg h set_h
  else if op =? 0x26 then ld_imm set_h
  else if op =? 0x27 then (daa ;; ret 4)
  else if op =? 0x28 then jr_cc _zf
  else if op =? 0x29 then (hl <- get _hl ;; _add_hl hl ;; ret 8)
  else if op =? 0x2A then
    (hl <- get _hl ;; v <- rb hl ;; modify (set_a v) ;;
     hl <- get _hl ;; _set_hl (Z.land (hl + 1) 0xFFFF) ;; ret 8)
  else if op =? 0x2B then (hl <- get _hl ;; _set_hl (Z.land (hl - 1) 0xFFFF) ;; ret 8)
  else if op =? 0x2C then inc_reg l set_l
  else if op =? 0x2D then dec_reg l set_l
  else if op =? 0x2E then ld_imm set_l
  else if op =? 0x2F then
    (modify (fun s => set_a (Z.lxor (a s) 0xFF) s) ;;
     modify (fun s => set_f (Z.lor (f s) 0x60) s) ;; ret 4)
  else if op =? 0x30 then jr_cc nc
  else if op =? 0x31 then (v <- _fetch16 ;; modify (set_sp v) ;; ret 12)
  else if op =? 0x32 then
    (hl <- get _hl ;; x <- get a ;; wb hl x ;;
     hl <- get _hl ;; _set_hl (Z.land (hl - 1) 0xFFFF) ;; ret 8)
  else if op =? 0x33 then (modify (fun s => set_sp (Z.land (sp s + 1) 0xFFFF) s) ;; ret 8)
  else if op =? 0x34 then
    (hl <- get _hl ;; v <- rb hl ;; r <- _inc8 v ;; wb hl r ;; ret 12)
  else if op =? 0x35 then
    (hl <- get _hl ;; v <- rb hl ;; r <- _dec8 v ;; wb hl r ;; ret 12)
  else if op =? 0x36 then (hl <- get _hl ;; v <- _fetch ;; wb hl v ;; ret 12)
  else if op =? 0x37 then (zv <- get _zf ;; _sf zv false false true ;; ret 4)
  else if op =? 0x38 then jr_cc _cf
  else if op =? 0x39 then (p <- get sp ;; _add_hl p ;; ret 8)
  else if op =? 0x3A then
    (hl <- get _hl ;; v <- rb hl ;; modify (set_a v) ;;
     hl <- get _hl ;; _set_hl (Z.land (hl - 1) 0xFFFF) ;; ret 8)
  else if op =? 0x3B then (modify (fun s => set_sp (Z.land (sp s - 1) 0xFFFF) s) ;; ret 8)
  else if op =? 0x3C then inc_reg a set_a
  else if op =? 0x3D then dec_reg a set_a
  else if op =? 0x3E then ld_imm set_a
  else if op =? 0x3F then
    (zv <- get _zf ;; cv <- get _cf ;; _sf zv false false (negb cv) ;; ret 4)
  else if (0x40 <=? op) && (op <=? 0x7F) then
    if op =? 0x76 then (modify (set_halted true) ;; ret 4)
    else
      let dst := Z.shiftr (op - 0x40) 3 in
      let src := Z.land op 7 in
      v <- _r8 src ;; _w8 dst v ;;
      ret (if (src =? 6) || (dst =? 6) then 8 else 4)
  else if (0x80 <=? op) && (op <=? 0x87) then
    (v <- _r8 (Z.land op 7) ;; _add v 0 ;; ret (alu_cost op))
  else if (0x88 <=? op) && (op <=? 0x8F) then
    (v <- _r8 (Z.land op 7) ;; cv <- get _cf ;; _add v (int_of_bool cv) ;;
     ret (alu_cost op))
  else if (0x90 <=? op) && (op <=? 0x97) then
    (v <- _r8 (Z.land op 7) ;; _sub v 0 ;; ret (alu_cost op))
  else if (0x98 <=? op) && (op <=? 0x9F) then
    (v <- _r8 (Z.land op 7) ;; cv <- get _cf ;; _sub v (int_of_bool cv) ;;
     ret (alu_cost op))
  else if (0xA0 <=? op) && (op <=? 0xA7) then
    (v <- _r8 (Z.land op 7) ;; _and v ;; ret (alu_cost op))
  else if (0xA8 <=? op) && (op <=? 0xAF) then
    (v <- _r8 (Z.land op 7) ;; _xor v ;; ret (alu_cost op))
  else if (0xB0 <=? op) && (op <=? 0xB7) then
    (v <- _r8 (Z.land op 7) ;; _or v ;; ret (alu_cost op))
  else if (0xB8 <=? op) && (op <=? 0xBF) then
    (v <- _r8 (Z.land op 7) ;; _cp v ;; ret (alu_cost op))
  else if op =? 0xC0 then ret_cc nz
  else if op =? 0xC1 then (v <- _pop ;; _set_bc v ;; ret 12)
  else if op =? 0xC2 then jp_cc nz
  else if op =? 0xC3 then (v <- _fetch16 ;; modify (set_pc v) ;; ret 16)
  else if op =? 0xC4 then call_cc nz
  else if op =? 0xC5 then (bc <- get _bc ;; _push bc ;; ret 16)
  else if op =? 0xC6 then (v <- _fetch ;; _add v 0 ;; ret 8)
  else if op =? 0xC7 then rst 0x00
  else if op =? 0xC8 then ret_cc _zf
  else if op =? 0xC9 then (_ret ;; ret 16)
  else if op =? 0xCA then jp_cc _zf
  else if op =? 0xCB then _cb
  else if op =? 0xCC then call_cc _zf
  else if op =? 0xCD then (addr <- _fetch16 ;; _call addr ;; ret 24)
  else if op =? 0xCE then
    (v <- _fetch ;; cv <- get _cf ;; _add v (int_of_bool cv) ;; ret 8)
  else if op =? 0xCF then rst 0x08
  else if op =? 0xD0 then ret_cc nc
  else if op =? 0xD1 then (v <- _pop ;; _set_de v ;; ret 12)
  else if op =? 0xD2 then jp_cc nc
  else if op =? 0xD4 then call_cc nc
  else if op =? 0xD5 then (de <- get _de ;; _push de ;; ret 16)
  else if op =? 0xD6 then (v <- _fetch ;; _sub v 0 ;; ret 8)
  else if op =? 0xD7 then rst 0x10
  else if op =? 0xD8 then ret_cc _cf
  else if op =? 0xD9 then (_ret ;; modify (set_ime true) ;; ret 16)
  else if op =? 0xDA then jp_cc _cf
  else if op =? 0xDC then call_cc _cf
  else if op =? 0xDE then
    (v <- _fetch ;; cv <- get _cf ;; _sub v (int_of_bool cv) ;; ret 8)
  else if op =? 0xDF then rst 0x18
  else if op =? 0xE0 then
    (v <- _fetch ;; x <- get a ;; wb (Z.lor 0xFF00 v) x ;; ret 12)
  else if op =? 0xE1 then (v <- _pop ;; _set_hl v ;; ret 12)
  else if op =? 0xE2 then
    (lo <- get c ;; x <- get a ;; wb (Z.lor 0xFF00 lo) x ;; ret 8)
  else if op =? 0xE5 then (hl <- get _hl ;; _push hl ;; ret 16)
  else if op =? 0xE6 then (v <- _fetch ;; _and v ;; ret 8)
  else if op =? 0xE7 then rst 0x20
  else if op =? 0xE8 then (v <- _fetch ;; r <- _sp_add v ;; modify (set_sp r) ;; ret 16)
  else if op =? 0xE9 then (hl <- get _hl ;; modify (set_pc hl) ;; ret 4)
  else if op =? 0xEA then (addr <- _fetch16 ;; x <- get a ;; wb addr x ;; ret 16)
  else if op =? 0xEE then (v <- _fetch ;; _xor v ;; ret 8)
  else if op =? 0xEF then rst 0x28
  else if op =? 0xF0 then
    (v <- _fetch ;; x <- rb (Z.lor 0xFF00 v) ;; modify (set_a x) ;; ret 12)
  else if op =? 0xF1 then (v <- _pop ;; _set_af v ;; ret 12)
  else if op =? 0xF2 then
    (lo <- get c ;; x <- rb (Z.lor 0xFF00 lo) ;; modify (set_a x) ;; ret 8)
  else if op =? 0xF3 then
    (modify (set_ime false) ;; modify (set_ime_pending 0) ;; ret 4)
  else if op =? 0xF5 then (af <- get _af ;; _push af ;; ret 16)
  else if op =? 0xF6 then (v <- _fetch ;; _or v ;; ret 8)
  else if op =? 0xF7 then rst 0x30
  else if op =? 0xF8 then (v <- _fetch ;; r <- _sp_add v ;; _set_hl r ;; ret 12)
  else if op =? 0xF9 then (hl <- get _hl ;; modify (set_sp hl) ;; ret 8)
  else if op =? 0xFA then (addr <- _fetch16 ;; x <- rb addr ;; modify (set_a x) ;; ret 16)
  else if op =? 0xFB then (modify (set_ime_pending 2) ;; ret 4)
  else if op =? 0xFE then (v <- _fetch ;; _cp v ;; ret 8)
  else if op =? 0xFF then rst 0x38
  else ret 4.

(** *** Main step *)

(** The part of [step] after the halt test: fetch, execute, charge. *)
Definition fetch_execute : M unit :=
  op <- _fetch ;;
  cost <- exec op ;;
  modify (fun s => set_cycles (cycles s + cost) s).

(** The EI delay at the head of [step]. *)
Definition ei_delay : M unit :=
  pend <- get _ime_pending ;;
  if pend >? 0 then
    modify (fun s => set_ime_pending (_ime_pending s - 1) s) ;;
    pend <- get _ime_pending ;;
    if pend =? 0 then modify (set_ime true) else ret tt
  else ret tt.

Definition step : M unit :=
  ei_delay ;;
  handle_interrupts ;;
  hlt <- get halted ;;
  if hlt then modify (fun s => set_cycles (cycles s + 4) s)
  else fetch_execute.

End CPU.

(** ** Top-level system *)

Module GameBoy.

(** After [load] the cartridge, PPU, timer and joypad of the system are
    the objects the bus refers to, so they are reached through
    [CPU.mmu]; before [load] there is no CPU and [run_frame] touches
    nothing. *)
Record t := mk {
  cpu : option CPU.t;
  running : bool;
  total_cyc : Z
}.

Definition init : t := mk None false 0.

Definition load (g : t) (data : list Z) : t :=
  let m := MMU.init (Cartridge.init data) PPU.init Timer.init Joypad.init in
  mk (Some (CPU.init m)) (running g) 0.

(** How a call ends: it returns, it raises (the renderer's IndexError),
    or the fuel given to the loop ran out first. *)
Inductive outcome :=
| Returned (g : t)
| Raised
| OutOfFuel.

Definition or_if (cond : bool) (bits : Z) (m : MMU.t) : MMU.t :=
  if cond then MMU.set_IF_ (Z.lor (MMU.IF_ m) bits) m else m.

(** One turn of the [while] loop of [run_frame]. *)
Definition iteration (cp : CPU.t) (total : Z) : option (CPU.t * Z) :=
  let before := CPU.cycles cp in
  let cp := snd (CPU.step cp) in
  let elapsed := CPU.cycles cp - before in
  let total := total + elapsed in
  match PPU.step (MMU.ppu (CPU.mmu cp)) elapsed with
  | None => None
  | Some (vb, st, p) =>
    let m := MMU.set_ppu p (CPU.mmu cp) in
    let '(ti, tm) := Timer.step (MMU.timer m) elapsed in
    let m := MMU.set_timer tm m in
    let m := or_if vb INT_VBLANK m in
    let m := or_if st INT_STAT m in
    let m := or_if ti INT_TIMER m in
    Some (CPU.set_mmu m cp, total)
  end.

Fixpoint loop (fuel : nat) (target : Z) (run : bool) (cp : CPU.t) (total : Z)
    : outcome :=
  if total <? target then
    match fuel with
    | O => OutOfFuel
    | S fuel' =>
      match iteration cp total with
      | None => Raised
      | Some (cp', total') => loop fuel' target run cp' total'
      end
    end
  else Returned (mk (Some cp) run total).

Definition run_frame_fuel (fuel : nat) (g : t) : outcome :=
  match cpu g with
  | None => Returned g
  | Some cp => loop fuel (total_cyc g + CYCLES_PER_FRAME) (running g) cp (total_cyc g)
  end.

(** 17 556 turns always suffice (70 224 / 4). *)
Definition run_frame (g : t) : outcome := run_frame_fuel (Z.to_nat 17556) g.

End GameBoy.

(** ** Scenarios *)

(** A ROM image whose program starts at the entry point [0x0100]; the bytes
    before it are zero. *)
Definition rom_at_entry (prog : list Z) : list Z := replicate 0x100%nat 0 ++ prog.

(** The CPU of a freshly loaded system. *)
Definition boot (data : list Z) : CPU.t :=
  CPU.init (MMU.init (Cartridge.init data) PPU.init Timer.init Joypad.init).

(** [n] calls of [CPU.step]. *)
Definition steps (n : nat) (s : CPU.t) : CPU.t :=
  Nat.iter n (fun s => snd (CPU.step s)) s.

(** Only Right held, direction group selected. *)
Definition joy_right_dir : Joypad.t :=
  {| Joypad.a := false; Joypad.b := false; Joypad.sel := false; Joypad.start := false;
     Joypad.right := true; Joypad.left := false; Joypad.up := false; Joypad.down := false;
     Joypad._sel_btn := false; Joypad._sel_dir := true |}.

(** A PPU at line 0 with background on, signed tile data selected (LCDC bit
    4 clear), an all-zero tile map, and one tile row of colour 3 stored at
    the VRAM offset [off]. *)
Definition ppu_signed_tiles (off : Z) : PPU.t :=
  PPU.set_vram (setitem (setitem (bytearray 0x2000) off 0xFF) (off + 1) 0xFF)
    (PPU.set_lcdc 0x81 PPU.init).

(** The RGB bytes of pixel 0 of line 0. *)
Definition first_pixel (s : PPU.t) : list Z := take 3 (PPU.pixels s).

(** A PPU at line 0 with the window enabled ([LCDC = 0xB1], [WY = 0]) but
    placed off screen ([WX = 200], so [WX - 7 = 193 > 159]). *)
Definition ppu_window_offscreen : PPU.t :=
  PPU.set_wx 200 (PPU.set_lcdc 0xB1 PPU.init).

(** *** Timer scenarios *)

(** A falling edge as the spec words it ("the selected DIV bit transitions
    from 1 to 0"): DIV, a 16-bit counter, goes from [d] to [d + 1] and the
    bit goes from 1 to 0. *)
Definition falls (bit d : Z) : bool :=
  Z.testbit d bit && negb (Z.testbit ((d + 1) mod 65536) bit).

(** The number of falling edges of the bit while DIV advances by [n]
    single cycles from [d]. *)
Fixpoint falling_edges (bit d : Z) (n : nat) : Z :=
  match n with
  | O => 0
  | S n' => (if falls bit d then 1 else 0) + falling_edges bit ((d + 1) mod 65536) n'
  end.

(** Successive calls [step(c)] for the [c] of a list. *)
Definition timer_run (t : Timer.t) (cs : list Z) : Timer.t :=
  fold_left (fun t cyc => snd (Timer.step t cyc)) cs t.

(** The cycles a list of steps adds up to. *)
Definition elapsed (cs : list Z) : Z := fold_right Z.add 0 cs.

(** The DIV bit selected by TAC. *)
Definition timer_bit (t : Timer.t) : Z := Timer.BITS (Z.land (Timer.tac t) 3).

(** The four DIV taps of [Timer.BITS]. *)
Definition is_tap (bit : Z) : Prop := bit = 9 \/ bit = 3 \/ bit = 5 \/ bit = 7.

(** The test [Timer.step] applies to DIV before and after a step. *)
Definition edge_seen (bit old cyc : Z) : bool :=
  truthy (Timer.tap old bit) && negb (truthy (Timer.tap (Z.land (old + cyc) 0xFFFF) bit)).

(** A timer just after DIV was reset, enabled on the bit-3 tap
    ([TAC = 0x05]). *)
Definition timer_reset_fast : Timer.t :=
  {| Timer.div := 0; Timer.tima := 0; Timer.tma := 0; Timer.tac := 0x05;
     Timer._of := false; Timer._of_d := 0 |}.

(** A program that turns the LCD off, resets DIV, enables the timer on the
    bit-3 tap ([TAC = 0x05]) and then loops on a [JP] to itself:
    [LD A,0; LDH (40),A; LDH (04),A; LD A,5; LDH (07),A; JP 0x010A].

    Timeline in T-cycles: DIV is reset in the step that ends at 32 and the
    timer then steps by that instruction's 12 cycles; the set-up ends at
    52 with DIV = 32 and TIMA = 0; from there every step is one [JP] of 16
    cycles, so DIV goes 32, 48, 64, ...: bit 3 of DIV falls once in every
    step (at the last of its 16 cycles) and reads 0 at both ends of it. *)
Definition rom_jp_loop : list Z :=
  rom_at_entry [0x3E; 0x00; 0xE0; 0x40; 0xE0; 0x04; 0x3E; 0x05; 0xE0; 0x07;
                0xC3; 0x0A; 0x01].

Definition gb_jp_loop : GameBoy.t := GameBoy.load GameBoy.init rom_jp_loop.

(** *** Interrupt scenarios *)

(** [IE & IF & 0x1F], the [fired] of [handle_interrupts]. *)
Definition pending (s : CPU.t) : Z :=
  Z.land (Z.land (MMU.IE (CPU.mmu s)) (MMU.IF_ (CPU.mmu s))) 0x1F.

(** The lowest-numbered set bit among bits 0..4. *)
Definition lowest_bit (x : Z) : Z :=
  if Z.testbit x 0 then 0
  else if Z.testbit x 1 then 1
  else if Z.testbit x 2 then 2
  else if Z.testbit x 3 then 3
  else 4.

(** What [dispatch] does for the bit it serves: clear it in IF, push PC,
    jump to the vector, charge 20 cycles. *)
Definition serve (bit : Z) (s : CPU.t) : CPU.t :=
  let m := MMU.set_IF_ (Z.land (MMU.IF_ (CPU.mmu s)) (Z.lnot (Z.shiftl 1 bit))) (CPU.mmu s) in
  let sp' := Z.land (CPU.sp s - 2) 0xFFFF in
  CPU.set_cycles (CPU.cycles s + 20)
    (CPU.set_pc (0x40 + 8 * bit)
       (CPU.set_mmu (MMU.ww m sp' (CPU.pc s)) (CPU.set_sp sp' s))).

(** [LD A,3; LDH (FF),A; LDH (0F),A; EI; NOP]: IE = IF = 3 and IME comes on
    at the head of the sixth step. *)
Definition rom_two_pending : list Z :=
  rom_at_entry [0x3E; 0x03; 0xE0; 0xFF; 0xE0; 0x0F; 0xFB; 0x00].

(** The CPU at the fetch boundary of the sixth step, IME just set. *)
Definition cpu_two_pending : CPU.t :=
  snd (CPU.ei_delay (steps 5 (boot rom_two_pending))).

(** The same program after [LD SP,0xFF11]: the interrupt push lands on
    [$FF0F]. *)
Definition rom_stack_on_IF : list Z :=
  rom_at_entry [0x31; 0x11; 0xFF; 0x3E; 0x03; 0xE0; 0xFF; 0xE0; 0x0F; 0xFB; 0x00].

Definition cpu_stack_on_IF : CPU.t :=
  snd (CPU.ei_delay (steps 6 (boot rom_stack_on_IF))).

(** [LD A,1; LDH (FF),A; XOR A; LDH (0F),A; HALT] followed by one more
    instruction: IE = 1, IF = 0, IME = 0 and the CPU halts. *)
Definition rom_halt_then (next : list Z) : list Z :=
  rom_at_entry ([0x3E; 0x01; 0xE0; 0xFF; 0xAF; 0xE0; 0x0F; 0x76] ++ next).

(** The halted CPU of [rom_halt_then] once IF has been set to 1 from
    outside. *)
Definition cpu_halted_if_raised (next : list Z) : CPU.t :=
  let s := steps 5 (boot (rom_halt_then next)) in
  CPU.set_mmu (MMU.set_IF_ 0x01 (CPU.mmu s)) s.

(** *** Invariants of CPU actions *)

Section Invariants.
Variable I : CPU.t -> Prop.

(** [m] leaves the CPU in [I] when started in [I]. *)
Definition keeps {A : Type} (m : CPU.M A) : Prop :=
  forall s, I s -> I (snd (m s)).
End Invariants.

(** F's low nibble is zero. *)
Definition flags_ok (s : CPU.t) : Prop := Z.land (CPU.f s) 0xF = 0.

(** The cycle counter reads [n]. *)
Definition cycles_are (n : Z) (s : CPU.t) : Prop := CPU.cycles s = n.

(** The cost an action returns lies in [lo .. hi]. *)
Definition costs (lo hi : Z) (m : CPU.M Z) : Prop :=
  forall s, lo <= fst (m s) <= hi.

(** CPU states met while a program runs: the reset state, the state after
    a step, and a state whose bus was changed between steps (PPU and timer
    ticks, interrupt requests, joypad input). *)
Inductive reachable : CPU.t -> Prop :=
| reach_reset (m : MMU.t) : reachable (CPU.init m)
| reach_step (s : CPU.t) : reachable s -> reachable (snd (CPU.step s))
| reach_bus (s : CPU.t) (m : MMU.t) : reachable s -> reachable (CPU.set_mmu m s).

(** *** Frame scenario *)

(** A program that turns the LCD off, enables the timer interrupt on the
    bit-9 tap with TIMA = 188, idles through 129 NOPs, resets DIV, enables
    interrupts and halts.  The timer vector [0x50] holds [CALL 0x0200].

    Timeline in T-cycles of the first frame: the set-up ends at 68, the
    NOPs at 584, [LDH (04),A] at 596 (DIV was reset in that step, so from
    here DIV = total - 584), [EI] at 600, [HALT] at 604; then halted steps
    of 4.  Bit 9 of DIV falls whenever DIV reaches a multiple of 1024; the
    68th fall, at 70 216, takes TIMA from 255 to 0; the step ending at
    70 220 reloads TIMA and requests the interrupt; the next step, begun
    at 70 220 < 70 224, dispatches (20) and runs the CALL (24). *)
Definition rom_late_timer : list Z :=
  replicate 0x50%nat 0 ++ [0xCD; 0x00; 0x02] ++ replicate (0x100 - 0x53)%nat 0
  ++ [0xAF; 0xE0; 0x40; 0x3E; 0x04; 0xE0; 0xFF; 0xE0; 0x07; 0x3E; 188; 0xE0; 0x05]
  ++ replicate 129%nat 0 ++ [0xE0; 0x04; 0xFB; 0x76].

Definition gb_late_timer : GameBoy.t := GameBoy.load GameBoy.init rom_late_timer.

(** ** Invariants and further scenarios *)

(** *** Byte and word ranges *)

(** A value a bytearray cell or an 8-bit register can hold. *)
Definition byte (x : Z) : Prop := 0 <= x < 256.

(** A 16-bit value. *)
Definition word16 (x : Z) : Prop := 0 <= x < 65536.

(** *** Cartridge state kept by the decode *)

Module CartridgeInv.

(** The external RAM buffer has its allocated size and the RAM bank is one
    of the four the 2-bit select can name. *)
Definition ram_ok (s : Cartridge.t) : Prop :=
  length (Cartridge.ram s) = Z.to_nat 0x20000 /\ 0 <= Cartridge.ram_bank s <= 3.

(** MBC1-style controllers ([mbc_type] 1, 2 or 3). *)
Definition mbc1 (s : Cartridge.t) : Prop := 1 <= Cartridge.mbc_type s <= 3.

(** What every cartridge state met at run time satisfies: the RAM buffer
    and bank are in range, the ROM bank is not negative, and both buffers
    hold bytes. *)
Definition well_formed (s : Cartridge.t) : Prop :=
  ram_ok s /\ 0 <= Cartridge.rom_bank s /\
  Forall byte (Cartridge.rom s) /\ Forall byte (Cartridge.ram s).

End CartridgeInv.

(** A cartridge after a sequence of bus writes [(address, value)]. *)
Definition cart_after (s : Cartridge.t) (ws : list (Z * Z)) : Cartridge.t :=
  fold_left (fun s w => Cartridge.write s (fst w) (snd w)) ws s.

(** An MBC1 image cut after its header: type byte 1 at [0x147], ROM size
    code 1 at [0x148], RAM size code 2 at [0x149], zeros before. *)
Definition rom_mbc1 : list Z := replicate (Z.to_nat 0x147) 0 ++ [1; 1; 2].

(** [rom_mbc1] loaded, with external RAM enabled by writing [0x0A] to
    [0x0000]. *)
Definition cart_ram_on : Cartridge.t :=
  cart_after (Cartridge.init rom_mbc1) [(0x0000, 0x0A)].

(** *** Timer ranges *)

(** DIV is 16 bits wide, TIMA and TMA are bytes, TAC has three bits. *)
Definition timer_ok (t : Timer.t) : Prop :=
  word16 (Timer.div t) /\ byte (Timer.tima t) /\ byte (Timer.tma t)
  /\ 0 <= Timer.tac t < 8.


(** *** PPU invariants *)

Module PPUInv.

(** Everything but the framebuffer and the window bookkeeping is the
    same in [s] and [s']. *)
Definition regs_eq (s s' : PPU.t) : Prop :=
  PPU.vram s' = PPU.vram s /\ PPU.oam s' = PPU.oam s /\
  PPU.lcdc s' = PPU.lcdc s /\ PPU.stat s' = PPU.stat s /\
  PPU.scy s' = PPU.scy s /\ PPU.scx s' = PPU.scx s /\
  PPU.ly s' = PPU.ly s /\ PPU.lyc s' = PPU.lyc s /\
  PPU.bgp s' = PPU.bgp s /\ PPU.obp0 s' = PPU.obp0 s /\ PPU.obp1 s' = PPU.obp1 s /\
  PPU.wy s' = PPU.wy s /\ PPU.wx s' = PPU.wx s /\
  PPU.mode s' = PPU.mode s /\ PPU.cycles s' = PPU.cycles s /\
  PPU.frame_ready s' = PPU.frame_ready s.

(** [s'] is [s] with pixels of line [line] redrawn: same registers, same
    window line counter, a framebuffer of the same length that agrees with
    the old one outside the 480 bytes of the line. *)
Definition line_redrawn (line : Z) (s s' : PPU.t) : Prop :=
  regs_eq s s' /\
  PPU.win_line s' = PPU.win_line s /\
  length (PPU.pixels s') = length (PPU.pixels s) /\
  forall i : Z, 0 <= i -> (i < line * 480 \/ line * 480 + 480 <= i) ->
    byte_at (PPU.pixels s') i = byte_at (PPU.pixels s) i.

(** LY and the mode agree: lines 0..143 outside VBlank, at most 153 in
    VBlank. *)
Definition ly_ok (s : PPU.t) : Prop :=
  0 <= PPU.ly s /\
  ((PPU.mode s = 1 /\ PPU.ly s <= 153) \/
   ((PPU.mode s = 0 \/ PPU.mode s = 2 \/ PPU.mode s = 3) /\ PPU.ly s <= 143)).

(** The length in T-cycles of a mode's slot: 80 for the OAM scan (mode
    2), 172 for drawing (mode 3), 204 for HBlank (mode 0), and the whole
    456 of a line in VBlank (mode 1). *)
Definition mode_len (m : Z) : Z :=
  if m =? 2 then 80 else if m =? 3 then 172 else if m =? 0 then 204 else 456.

(** The cycle counter lies within the slot of the current mode: no
    transition is overdue. *)
Definition in_mode (s : PPU.t) : Prop :=
  0 <= PPU.cycles s < mode_len (PPU.mode s).

(** Where a PPU that is [in_mode] stands in the frame, in T-cycles: 456
    per line, plus the start of the current mode's slot within the line,
    plus the cycles spent in it.  (For a counter past its slot the sum
    would run ahead of the line and mode the PPU shows, hence
    [in_mode].) *)
Definition clock (s : PPU.t) : Z :=
  PPU.ly s * 456
  + (if PPU.mode s =? 3 then 80 else if PPU.mode s =? 0 then 252 else 0)
  + PPU.cycles s.

(** The part of the PPU that only bus writes change: video memory and
    the registers the program sets. *)
Definition mem_eq (s s' : PPU.t) : Prop :=
  PPU.vram s' = PPU.vram s /\ PPU.oam s' = PPU.oam s /\
  PPU.lcdc s' = PPU.lcdc s /\ PPU.scy s' = PPU.scy s /\ PPU.scx s' = PPU.scx s /\
  PPU.lyc s' = PPU.lyc s /\ PPU.bgp s' = PPU.bgp s /\ PPU.obp0 s' = PPU.obp0 s /\
  PPU.obp1 s' = PPU.obp1 s /\ PPU.wy s' = PPU.wy s /\ PPU.wx s' = PPU.wx s.

(** Video memory and the registers read back over the bus hold bytes. *)
Definition bytes_ok (s : PPU.t) : Prop :=
  Forall byte (PPU.vram s) /\ Forall byte (PPU.oam s) /\
  byte (PPU.lcdc s) /\ byte (PPU.scy s) /\ byte (PPU.scx s) /\
  byte (PPU.lyc s) /\ byte (PPU.bgp s) /\ byte (PPU.obp0 s) /\
  byte (PPU.obp1 s) /\ byte (PPU.wy s) /\ byte (PPU.wx s).

Definition well_formed (s : PPU.t) : Prop := ly_ok s /\ bytes_ok s.

(** The sprite [(ox, oy, ti, at)] covers line [line] for sprite height
    [sh]. *)
Definition covers (line sh : Z) (sp : Z * Z * Z * Z) : Prop :=
  let '(_, oy, _, _) := sp in oy <= line < oy + sh.

End PPUInv.

(** Line 0 of the power-up PPU, rendered. *)
Definition ppu_line0 : PPU.t :=
  match PPU._render PPU.init with Some s => s | None => PPU.init end.

(** The power-up PPU at the end of the HBlank of line 143. *)
Definition ppu_last_hblank : PPU.t :=
  PPU.set_cycles 200 (PPU.set_mode 0 (PPU.set_ly 143 PPU.init)).

(** *** Bus *)

Module MMUInv.

(** The four bytearrays behind the bus have their allocated sizes. *)
Definition sized (m : MMU.t) : Prop :=
  length (MMU.wram m) = Z.to_nat 0x2000 /\ length (MMU.hram m) = Z.to_nat 0x80 /\
  length (PPU.vram (MMU.ppu m)) = Z.to_nat 0x2000 /\
  length (PPU.oam (MMU.ppu m)) = Z.to_nat 0xA0.

(** Addresses of the I/O page and below it that no device answers. *)
Definition unmapped (a : Z) : Prop :=
  0xFEA0 <= a < 0xFF00 \/ a = 0xFF03 \/ 0xFF08 <= a <= 0xFF0E \/
  0xFF10 <= a < 0xFF40 \/ 0xFF4C <= a < 0xFF80.

(** What every bus state met at run time satisfies: buffers of their
    allocated sizes holding bytes, devices in range, byte-wide
    registers. *)
Definition well_formed (m : MMU.t) : Prop :=
  sized m /\ CartridgeInv.well_formed (MMU.cart m) /\ PPUInv.well_formed (MMU.ppu m) /\
  timer_ok (MMU.timer m) /\
  Forall byte (MMU.wram m) /\ Forall byte (MMU.hram m) /\
  byte (MMU.IE m) /\ byte (MMU.IF_ m) /\ byte (MMU._sb m) /\ byte (MMU._sc m).

End MMUInv.

(** The bus of a freshly loaded system. *)
Definition bus0 (data : list Z) : MMU.t :=
  MMU.init (Cartridge.init data) PPU.init Timer.init Joypad.init.

(** *** CPU *)

Module CPUInv.

(** Stack pointers whose next two-byte push lands in work RAM or high
    RAM. *)
Definition stack_ram (p : Z) : Prop :=
  0xC002 <= p <= 0xE000 \/ 0xFF82 <= p <= 0xFFFF.

(** The operand of JR and ADD SP read as a signed byte. *)
Definition signed8 (v : Z) : Z := if v <? 128 then v else v - 256.

(** Packed BCD: two decimal digits in one byte. *)
Definition is_bcd (x : Z) : bool :=
  (0 <=? x) && (Z.shiftr x 4 <=? 9) && (Z.land x 0xF <=? 9).
Definition bcd_val (x : Z) : Z := 10 * Z.shiftr x 4 + Z.land x 0xF.

(** IME reads [b] and the EI countdown reads [n]. *)
Definition ime_is (b : bool) (n : Z) (s : CPU.t) : Prop :=
  CPU.ime s = b /\ CPU._ime_pending s = n.

(** The opcodes that write IME or the countdown: RETI, DI and EI. *)
Definition ime_opcode (op : Z) : bool := (op =? 0xD9) || (op =? 0xF3) || (op =? 0xFB).

(** Register ranges: eight byte registers, 16-bit PC and SP, an EI
    countdown of at most 2, over a well-formed bus. *)
Definition well_formed (s : CPU.t) : Prop :=
  byte (CPU.a s) /\ byte (CPU.f s) /\ byte (CPU.b s) /\ byte (CPU.c s) /\
  byte (CPU.d s) /\ byte (CPU.e s) /\ byte (CPU.h s) /\ byte (CPU.l s) /\
  word16 (CPU.pc s) /\ word16 (CPU.sp s) /\
  0 <= CPU._ime_pending s <= 2 /\
  MMUInv.well_formed (CPU.mmu s).

End CPUInv.

(** *** System *)

(** A loaded system is well formed when its CPU is, and its cycle total
    is the CPU's cycle counter. *)
Definition system_ok (g : GameBoy.t) : Prop :=
  match GameBoy.cpu g with
  | Some cp => CPUInv.well_formed cp /\ GameBoy.total_cyc g = CPU.cycles cp
  | None => True
  end.

(** [n] calls of [run_frame] in a row, stopping at the first that does
    not return. *)
Fixpoint run_frames (n : nat) (g : GameBoy.t) : GameBoy.outcome :=
  match n with
  | O => GameBoy.Returned g
  | S n' =>
    match GameBoy.run_frame g with
    | GameBoy.Returned g' => run_frames n' g'
    | other => other
    end
  end.

(** * Properties *)

(** ** CB rotates *)

Lemma bind_eq {A B : Type} (m : CPU.M A) (k : A -> CPU.M B) (s : CPU.t) :
  CPU.bind m k s = k (fst (m s)) (snd (m s)).
Proof. unfold CPU.bind. destruct (m s); reflexivity. Qed.

(** C1 (the code departs from the claim): the CB handler sends RLC and RRC
    through the same through-carry rotate as RL and RR.  With B = 0x80 and
    carry clear, [RLC B] leaves B = 0x00 (a non-carry rotate gives 0x01);
    with B = 0x01 and carry clear, [RRC B] leaves B = 0x00 (a non-carry
    rotate gives 0x80).  The carry flag does receive the dropped bit. *)
Theorem cb_rlc_rrc_rotate_through_carry :
  let s1 := steps 3 (boot (rom_at_entry [0x06; 0x80; 0xA7; 0xCB; 0x00])) in
  let s2 := steps 3 (boot (rom_at_entry [0x06; 0x01; 0xA7; 0xCB; 0x08])) in
  CPU.b s1 = 0x00 /\ CPU._cf s1 = true /\
  CPU.b s2 = 0x00 /\ CPU._cf s2 = true.
Proof. vm_compute. repeat split; reflexivity. Qed.

(** ** Tile data addressing *)

(** C2 (the code departs from the claim): with LCDC bit 4 clear the signed
    tile index is added to VRAM offset [0x0800], not [0x1000].  Tile 0 is
    shown from the bytes at [0x0800] (colour 3, shade (8,24,32)), and bytes
    stored at [0x1000] are not the ones fetched (the pixel stays colour
    0). *)
Theorem signed_tile_base_is_0x0800 :
  PPU.tile_addr true 0x0800 0 0 = 0x0800 /\
  option_map first_pixel (PPU._render (ppu_signed_tiles 0x0800)) = Some [0x08; 0x18; 0x20] /\
  option_map first_pixel (PPU._render (ppu_signed_tiles 0x1000)) = Some [0xE8; 0xF8; 0xD0].
Proof. vm_compute. repeat split; reflexivity. Qed.

(** ** Joypad *)

(** C5 (the code departs from the claim): the read starts from [0xCF], whose
    bits 4 and 5 are already clear, so the result is [0xCE], with bit 5
    clear, where the claim has [0xEE]. *)
Theorem joypad_read_right_dir :
  Joypad.read joy_right_dir = 0xCE /\ Z.testbit (Joypad.read joy_right_dir) 5 = false.
Proof. vm_compute. split; reflexivity. Qed.

(** ** Window line counter *)

(** C6 (the code departs from the claim): the counter follows [win_y_ok]
    alone.  With the window enabled, [LY >= WY] and [WX = 200], no pixel of
    the line is a window pixel, and [win_line] still goes from 0 to 1. *)
Theorem win_line_counts_without_window_pixel :
  existsb (PPU.use_win ppu_window_offscreen true) (PPU.range 160) = false /\
  PPU.win_line ppu_window_offscreen = 0 /\
  option_map PPU.win_line (PPU._render ppu_window_offscreen) = Some 1 /\
  option_map PPU._win_active (PPU._render ppu_window_offscreen) = Some false.
Proof. vm_compute. repeat split; reflexivity. Qed.

(** ** Timer *)

(** Division and remainder by a constant, for [lia]. *)
Ltac euclid := Z.to_euclidean_division_equations; lia.

Lemma b2z_bit x n : 0 <= n -> Z.testbit x n = ((x / 2 ^ n) mod 2 =? 1).
Proof.
  intros Hn. pose proof (Z.testbit_spec' x n Hn) as H.
  destruct (Z.testbit x n); simpl in H; rewrite <- H; reflexivity.
Qed.

Lemma tap_testbit x n : 0 <= n -> truthy (Timer.tap x n) = Z.testbit x n.
Proof.
  intros Hn. unfold truthy, Timer.tap.
  rewrite Z.shiftr_div_pow2 by assumption.
  change 1 with (Z.ones 1) at 1. rewrite Z.land_ones by lia.
  rewrite b2z_bit by assumption. change (2 ^ 1) with 2.
  pose proof (Z.mod_pos_bound (x / 2 ^ n) 2 ltac:(lia)).
  destruct (Z.eqb_spec ((x / 2 ^ n) mod 2) 0), (Z.eqb_spec ((x / 2 ^ n) mod 2) 1); simpl; lia.
Qed.

Lemma BITS_is_tap k : is_tap (Timer.BITS k).
Proof.
  unfold Timer.BITS, is_tap.
  destruct (k =? 0); [auto|]. destruct (k =? 1); [auto|]. destruct (k =? 2); auto.
Qed.

Ltac each_tap H :=
  destruct H as [-> | [-> | [-> | ->]]].

Lemma falls_div bit d :
  is_tap bit -> 0 <= d < 65536 ->
  (if falls bit d then 1 else 0) = (d + 1) / 2 ^ (bit + 1) - d / 2 ^ (bit + 1).
Proof.
  intros Hb Hd. unfold falls.
  each_tap Hb; rewrite !b2z_bit by lia; cbn [Z.add Z.pow Z.pow_pos Pos.iter Z.mul Pos.mul Pos.add Pos.succ];
    repeat match goal with |- context [?x =? ?y] => destruct (Z.eqb_spec x y) end;
    cbn [andb negb]; euclid.
Qed.

Lemma falling_edges_div bit n : forall d,
  is_tap bit -> 0 <= d < 65536 ->
  falling_edges bit d n = (d + Z.of_nat n) / 2 ^ (bit + 1) - d / 2 ^ (bit + 1).
Proof.
  induction n as [|n IH]; intros d Hb Hd.
  - cbn [falling_edges]. rewrite Z.add_0_r. lia.
  - cbn [falling_edges]. rewrite falls_div by assumption.
    rewrite IH by (try assumption; apply Z.mod_pos_bound; lia).
    rewrite Nat2Z.inj_succ.
    each_tap Hb; cbn [Z.add Z.pow Z.pow_pos Pos.iter Z.mul Pos.mul Pos.add Pos.succ]; euclid.
Qed.

Lemma land_16 x : Z.land x 0xFFFF = x mod 65536.
Proof. change 0xFFFF with (Z.ones 16). rewrite Z.land_ones by lia. reflexivity. Qed.

Lemma edge_seen_div bit d cyc :
  is_tap bit -> 0 <= d -> 0 <= cyc <= 2 ^ bit ->
  (if edge_seen bit d cyc then 1 else 0) = (d + cyc) / 2 ^ (bit + 1) - d / 2 ^ (bit + 1).
Proof.
  intros Hb Hd Hc. unfold edge_seen. rewrite land_16.
  each_tap Hb; rewrite !tap_testbit, !b2z_bit by lia;
    cbn [Z.add Z.pow Z.pow_pos Pos.iter Z.mul Pos.mul Pos.add Pos.succ] in *;
    repeat match goal with |- context [?x =? ?y] => destruct (Z.eqb_spec x y) end;
    cbn [andb negb]; euclid.
Qed.

Lemma timer_step_small t cyc :
  truthy (Z.land (Timer.tac t) 4) = true ->
  Timer._of t = false ->
  0 <= Timer.div t ->
  0 <= cyc <= 2 ^ timer_bit t ->
  let inc := (Timer.div t + cyc) / 2 ^ (timer_bit t + 1)
             - Timer.div t / 2 ^ (timer_bit t + 1) in
  0 <= Timer.tima t -> Timer.tima t + inc < 256 ->
  snd (Timer.step t cyc) =
    Timer.mk ((Timer.div t + cyc) mod 65536) (Timer.tima t + inc)
             (Timer.tma t) (Timer.tac t) false (Timer._of_d t).
Proof.
  intros Hen Hof Hd Hc inc Ht Hlt.
  pose proof (edge_seen_div (timer_bit t) (Timer.div t) cyc (BITS_is_tap _) Hd Hc) as He.
  fold inc in He. unfold edge_seen in He.
  unfold Timer.step. rewrite Hof, Hen. fold (timer_bit t).
  rewrite <- land_16.
  destruct (truthy (Timer.tap (Timer.div t) (timer_bit t))
            && negb (truthy (Timer.tap (Z.land (Timer.div t + cyc) 65535) (timer_bit t)))).
  - assert (Hl : Z.land (Timer.tima t + 1) 0xFF = Timer.tima t + 1).
    { change 0xFF with (Z.ones 8). rewrite Z.land_ones by lia. apply Z.mod_small. lia. }
    rewrite Hl. destruct (Z.eqb_spec (Timer.tima t + 1) 0); [lia|].
    cbn [snd]. f_equal. lia.
  - cbn [snd]. f_equal. lia.
Qed.

Lemma div_shift x y k p : 0 < p ->
  (x + k * p + y) / p - (x + k * p) / p = (x + y) / p - x / p.
Proof.
  intros Hp. replace (x + k * p + y) with (x + y + k * p) by lia.
  rewrite !Z.div_add by lia. lia.
Qed.

Lemma timer_run_small cs : forall t,
  truthy (Z.land (Timer.tac t) 4) = true ->
  Timer._of t = false ->
  0 <= Timer.div t < 65536 ->
  Forall (fun cyc => 0 <= cyc <= 2 ^ timer_bit t) cs ->
  let inc := (Timer.div t + elapsed cs) / 2 ^ (timer_bit t + 1)
             - Timer.div t / 2 ^ (timer_bit t + 1) in
  0 <= Timer.tima t -> Timer.tima t + inc < 256 ->
  Timer.tima (timer_run t cs) = Timer.tima t + inc.
Proof.
  induction cs as [|cyc cs IH]; intros t Hen Hof Hd Hcs inc Ht Hlt.
  - subst inc. cbn. rewrite Z.add_0_r. lia.
  - inversion Hcs as [|? ? Hc Hcs']; subst.
    assert (Hsum : 0 <= elapsed cs).
    { clear -Hcs'. unfold elapsed. induction Hcs' as [|? ? ? ? IHc]; cbn [fold_right]; lia. }
    pose proof (BITS_is_tap (Z.land (Timer.tac t) 3)) as Hb. fold (timer_bit t) in Hb.
    assert (Hp : 0 < 2 ^ (timer_bit t + 1)) by (each_tap Hb; reflexivity).
    assert (Hdvd : exists m, 65536 = m * 2 ^ (timer_bit t + 1)).
    { each_tap Hb; [exists 64 | exists 4096 | exists 1024 | exists 256]; reflexivity. }
    destruct Hdvd as [m Hm].
    set (P := 2 ^ (timer_bit t + 1)) in *.
    set (d := Timer.div t) in *.
    assert (Hmono1 : d / P <= (d + cyc) / P) by (apply Z.div_le_mono; lia).
    assert (Hmono2 : (d + cyc) / P <= (d + (cyc + elapsed cs)) / P) by (apply Z.div_le_mono; lia).
    change (elapsed (cyc :: cs)) with (cyc + elapsed cs) in inc. subst inc.
    unfold timer_run. cbn [fold_left]. fold (timer_run (snd (Timer.step t cyc)) cs).
    rewrite timer_step_small by (try assumption; fold P d; lia).
    fold P d.
    set (t1 := Timer.mk _ _ _ _ _ _).
    assert (Hbit : timer_bit t1 = timer_bit t) by reflexivity.
    assert (Hq : (d + cyc) mod 65536 = d + cyc + (- ((d + cyc) / 65536) * m) * P).
    { replace (- ((d + cyc) / 65536) * m * P) with (- ((d + cyc) / 65536) * 65536)
        by (rewrite Hm; ring).
      pose proof (Z.div_mod (d + cyc) 65536 ltac:(lia)). lia. }
    assert (Hinc : (Timer.div t1 + elapsed cs) / P - Timer.div t1 / P
                   = (d + (cyc + elapsed cs)) / P - (d + cyc) / P).
    { cbn [t1 Timer.div]. rewrite Hq, div_shift by assumption. f_equal. f_equal. lia. }
    rewrite IH.
    + rewrite Hbit. fold P. rewrite Hinc. cbn [t1 Timer.tima]. lia.
    + assumption.
    + reflexivity.
    + cbn [t1 Timer.div]. apply Z.mod_pos_bound. lia.
    + rewrite Hbit. assumption.
    + cbn [t1 Timer.tima]. lia.
    + rewrite Hbit. fold P. rewrite Hinc. cbn [t1 Timer.tima]. lia.
Qed.

(** C3 (the code departs from the claim): [Timer.step] compares the
    tapped DIV bit before and after the whole step, so it counts at most
    one edge per step and none when the bit reads the same at both ends.
    With [TAC = 0x05], one [step(16)] from DIV = 0 crosses one falling edge
    of bit 3 and leaves TIMA unchanged; four such steps leave TIMA = 0,
    while the same 16 cycles fed as four [step(4)] raise TIMA to 1.  In a
    whole frame of [rom_jp_loop], whose 4386 [JP] steps of 16 cycles each
    cross one falling edge, TIMA ends at 0 and the timer interrupt is never
    requested. *)
Theorem timer_misses_edges_on_16_cycle_steps :
  truthy (Z.land (Timer.tac timer_reset_fast) 4) = true /\
  falling_edges (timer_bit timer_reset_fast) (Timer.div timer_reset_fast) 16 = 1 /\
  Timer.tima (snd (Timer.step timer_reset_fast 16)) = Timer.tima timer_reset_fast /\
  Timer.tima (timer_run timer_reset_fast [16; 16; 16; 16]) = 0 /\
  Timer.tima (timer_run timer_reset_fast [4; 4; 4; 4]) = 1 /\
  match GameBoy.run_frame gb_jp_loop with
  | GameBoy.Returned g' =>
      match GameBoy.cpu g' with
      | Some cp =>
          let tm := MMU.timer (CPU.mmu cp) in
          GameBoy.total_cyc g' = 70228 /\
          Timer.tac tm = 0x05 /\
          Timer.div tm = (32 + (70228 - 52)) mod 65536 /\
          falling_edges 3 32 (Z.to_nat (70228 - 52)) = 4386 /\
          Timer.tima tm = 0 /\
          Z.testbit (MMU.IF_ (CPU.mmu cp)) 2 = false
      | None => False
      end
  | _ => False
  end.
Proof. vm_compute. repeat split; reflexivity. Qed.

(** Where the endpoint test does count every edge: for an enabled timer
    with no reload pending, over any sequence of steps that are each at
    most [2 ^ bit] cycles long (half the period of the selected DIV bit)
    and as long as TIMA does not overflow, TIMA goes up by one for each
    falling edge of the selected bit that occurs while DIV advances,
    however the cycles are split; with [TAC = 0x05] that is
    [(DIV mod 16 + elapsed) / 16].  Steps of 4 and 8 cycles are that short
    for the bit-3 tap; the 12 to 24 cycles of most instructions are
    not. *)
Lemma short_steps_count_every_edge (t : Timer.t) (cs : list Z) :
  truthy (Z.land (Timer.tac t) 4) = true ->
  Timer._of t = false ->
  0 <= Timer.div t < 65536 ->
  Forall (fun cyc => 0 <= cyc <= 2 ^ timer_bit t) cs ->
  0 <= Timer.tima t ->
  Timer.tima t + falling_edges (timer_bit t) (Timer.div t) (Z.to_nat (elapsed cs)) < 256 ->
  Timer.tima (timer_run t cs)
    = Timer.tima t + falling_edges (timer_bit t) (Timer.div t) (Z.to_nat (elapsed cs))
  /\ (Timer.tac t = 0x05 ->
      falling_edges (timer_bit t) (Timer.div t) (Z.to_nat (elapsed cs))
        = (Timer.div t mod 16 + elapsed cs) / 16).
Proof.
  intros Hen Hof Hd Hcs Ht Hlt.
  assert (Hsum : 0 <= elapsed cs).
  { clear -Hcs. unfold elapsed. induction Hcs; cbn [fold_right]; lia. }
  rewrite falling_edges_div in * by (try apply BITS_is_tap; assumption).
  rewrite Z2Nat.id in * by assumption.
  split.
  - apply timer_run_small; assumption.
  - intros Htac. unfold timer_bit. rewrite Htac.
    change (2 ^ (Timer.BITS (Z.land 5 3) + 1)) with 16. euclid.
Qed.

(** ** CPU reasoning *)
Ltac cpu_fields :=
  cbn [CPU.mmu CPU.pc CPU.sp CPU.a CPU.f CPU.b CPU.c CPU.d CPU.e CPU.h CPU.l
       CPU.halted CPU.ime CPU._ime_pending CPU.cycles
       CPU.set_mmu CPU.set_pc CPU.set_sp CPU.set_a CPU.set_f CPU.set_b CPU.set_c
       CPU.set_d CPU.set_e CPU.set_h CPU.set_l CPU.set_halted CPU.set_ime
       CPU.set_ime_pending CPU.set_cycles].

Ltac mmu_fields :=
  cbn [MMU.cart MMU.ppu MMU.timer MMU.joy MMU.wram MMU.hram MMU.IE MMU.IF_ MMU._sb MMU._sc
       MMU.set_cart MMU.set_ppu MMU.set_timer MMU.set_joy MMU.set_wram MMU.set_hram
       MMU.set_IE MMU.set_IF_ MMU.set_sb MMU.set_sc].

Section KeepsRules.
Variable I : CPU.t -> Prop.

Lemma keeps_ret {A : Type} (x : A) : keeps I (CPU.ret x).
Proof. intros s H. exact H. Qed.

Lemma keeps_get {A : Type} (proj : CPU.t -> A) : keeps I (CPU.get proj).
Proof. intros s H. exact H. Qed.

Lemma keeps_modify (g : CPU.t -> CPU.t) :
  (forall s, I s -> I (g s)) -> keeps I (CPU.modify g).
Proof. intros Hg s H. apply Hg, H. Qed.

Lemma keeps_bind {A B : Type} (m : CPU.M A) (k : A -> CPU.M B) :
  keeps I m -> (forall x, keeps I (k x)) -> keeps I (CPU.bind m k).
Proof.
  intros Hm Hk s H. rewrite bind_eq. apply Hk, Hm, H.
Qed.
End KeepsRules.

Ltac head_of m :=
  lazymatch m with
  | ?g _ => head_of g
  | _ => m
  end.

Ltac keeps_go known solve_modify :=
  repeat lazymatch goal with
  | |- keeps _ (CPU.bind _ _) => apply keeps_bind; [| intro]
  | |- keeps _ (CPU.ret _) => apply keeps_ret
  | |- keeps _ (CPU.get _) => apply keeps_get
  | |- keeps _ (CPU.modify _) => apply keeps_modify; solve_modify
  | |- keeps _ (if ?b then _ else _) => destruct b
  | |- keeps _ ?m => first [ known | let g := head_of m in unfold g; cbv zeta ]
  end.

(** ** Interrupt dispatch *)

Lemma land_bit_testbit x n : 0 <= n -> truthy (Z.land x (Z.shiftl 1 n)) = Z.testbit x n.
Proof.
  intros Hn. rewrite Z.shiftl_1_l. unfold truthy.
  destruct (Z.testbit x n) eqn:Hb.
  - destruct (Z.eqb_spec (Z.land x (2 ^ n)) 0) as [H0|]; [|reflexivity].
    assert (Hc : Z.testbit (Z.land x (2 ^ n)) n = true).
    { rewrite Z.land_spec, Hb, Z.pow2_bits_true by assumption. reflexivity. }
    rewrite H0, Z.bits_0 in Hc. discriminate.
  - replace (Z.land x (2 ^ n)) with 0; [reflexivity|].
    symmetry. apply Z.bits_inj'. intros m Hm.
    rewrite Z.land_spec, Z.bits_0, Z.pow2_bits_eqb by assumption.
    destruct (Z.eqb_spec n m); [subst; rewrite Hb|]; auto using andb_false_r.
Qed.

Lemma low5_zero x :
  Z.testbit x 0 = false -> Z.testbit x 1 = false -> Z.testbit x 2 = false ->
  Z.testbit x 3 = false -> Z.testbit x 4 = false -> Z.land x 0x1F = 0.
Proof.
  intros H0 H1 H2 H3 H4. apply Z.bits_inj'. intros m Hm.
  rewrite Z.land_spec, Z.bits_0. change 0x1F with (Z.ones 5).
  destruct (Z_lt_le_dec m 5).
  - assert (m = 0 \/ m = 1 \/ m = 2 \/ m = 3 \/ m = 4) as [->|[->|[->|[->| ->]]]] by lia;
      rewrite ?H0, ?H1, ?H2, ?H3, ?H4; reflexivity.
  - rewrite Z.ones_spec_high by lia. apply andb_false_r.
Qed.

Lemma pending_low5 s : Z.land (pending s) 0x1F = pending s.
Proof. unfold pending. rewrite <- Z.land_assoc. reflexivity. Qed.

Lemma dispatch_serves fired s :
  Z.land fired 0x1F = fired -> fired <> 0 ->
  snd (CPU.dispatch fired CPU.vectors s) = serve (lowest_bit fired) s.
Proof.
  intros Hlow Hnz. unfold CPU.vectors, lowest_bit. cbn [CPU.dispatch].
  rewrite !land_bit_testbit by lia.
  destruct (Z.testbit fired 0) eqn:H0; [reflexivity|].
  destruct (Z.testbit fired 1) eqn:H1; [reflexivity|].
  destruct (Z.testbit fired 2) eqn:H2; [reflexivity|].
  destruct (Z.testbit fired 3) eqn:H3; [reflexivity|].
  destruct (Z.testbit fired 4) eqn:H4; [reflexivity|].
  exfalso. apply Hnz. rewrite <- Hlow. apply low5_zero; assumption.
Qed.

Lemma dma_keeps_IF src idxs : forall m,
  MMU.IF_ (fold_left (MMU.dma_byte src) idxs m) = MMU.IF_ m.
Proof.
  induction idxs as [|i idxs IH]; intros m; cbn [fold_left]; [reflexivity|].
  rewrite IH. reflexivity.
Qed.

(** A bus write away from [$FF0F] leaves IF alone. *)
Lemma wb_keeps_IF m addr v :
  Z.land addr 0xFFFF <> 0xFF0F -> MMU.IF_ (MMU.wb m addr v) = MMU.IF_ m.
Proof.
  intros Ha. unfold MMU.wb. cbv zeta.
  repeat match goal with
  | |- context [if ?b then _ else _] =>
      lazymatch b with
      | Z.land addr 65535 =? 65295 => destruct (Z.eqb_spec (Z.land addr 65535) 65295); [contradiction|]
      | _ => destruct b
      end
  end; mmu_fields; first [reflexivity | apply dma_keeps_IF].
Qed.

Lemma land_16_idem x : Z.land (Z.land x 0xFFFF) 0xFFFF = Z.land x 0xFFFF.
Proof. rewrite <- Z.land_assoc. reflexivity. Qed.

Lemma ww_keeps_IF m addr v :
  Z.land addr 0xFFFF <> 0xFF0F -> Z.land (addr + 1) 0xFFFF <> 0xFF0F ->
  MMU.IF_ (MMU.ww m addr v) = MMU.IF_ m.
Proof.
  intros H1 H2. unfold MMU.ww.
  rewrite !wb_keeps_IF; [reflexivity | assumption | rewrite land_16_idem; assumption].
Qed.

Lemma lowest_bit_spec x :
  Z.land x 0x1F = x -> x <> 0 ->
  0 <= lowest_bit x <= 4 /\
  Z.testbit x (lowest_bit x) = true /\
  (forall j, 0 <= j < lowest_bit x -> Z.testbit x j = false).
Proof.
  intros Hlow Hnz. unfold lowest_bit.
  destruct (Z.testbit x 0) eqn:H0; [repeat split; try lia; auto|].
  destruct (Z.testbit x 1) eqn:H1;
    [repeat split; try lia; auto; intros j Hj; assert (j = 0) as -> by lia; auto|].
  destruct (Z.testbit x 2) eqn:H2;
    [repeat split; try lia; auto; intros j Hj;
     assert (j = 0 \/ j = 1) as [-> | ->] by lia; auto|].
  destruct (Z.testbit x 3) eqn:H3;
    [repeat split; try lia; auto; intros j Hj;
     assert (j = 0 \/ j = 1 \/ j = 2) as [-> | [-> | ->]] by lia; auto|].
  destruct (Z.testbit x 4) eqn:H4.
  - repeat split; try lia; auto. intros j Hj.
    assert (j = 0 \/ j = 1 \/ j = 2 \/ j = 3) as [-> | [-> | [-> | ->]]] by lia; auto.
  - exfalso. apply Hnz. rewrite <- Hlow. apply low5_zero; assumption.
Qed.

Lemma handle_interrupts_dispatches s :
  pending s <> 0 -> CPU.ime s = true ->
  snd (CPU.handle_interrupts s)
  = serve (lowest_bit (pending s)) (CPU.set_ime false (CPU.set_halted false s)).
Proof.
  intros Hp Hime. unfold CPU.handle_interrupts.
  rewrite bind_eq. cbn [CPU.get fst snd]. fold (pending s).
  unfold truthy at 1. destruct (Z.eqb_spec (pending s) 0); [contradiction|]. cbn [negb].
  rewrite !bind_eq. cbn [CPU.get fst snd].
  destruct (CPU.halted s) eqn:Hh; cbn [CPU.modify CPU.ret fst snd]; cpu_fields; rewrite Hime;
    rewrite bind_eq; cbn [CPU.modify fst snd];
    rewrite dispatch_serves by (auto using pending_low5);
    unfold serve; cpu_fields; [reflexivity|].
  destruct s; cbn in Hh; subst; reflexivity.
Qed.

(** C7, the claim as stated fails: with IE = IF = 3, IME = 1 and SP = 0xFF11
    the interrupt push writes the low byte of PC (0x0B) to [$FF0F] after
    bit 0 was cleared, so IF ends as 0x0B, not 0x02.  Control does go to
    [0x40]. *)
Lemma interrupt_push_overwrites_IF :
  MMU.IE (CPU.mmu cpu_stack_on_IF) = 0x03 /\
  MMU.IF_ (CPU.mmu cpu_stack_on_IF) = 0x03 /\
  CPU.ime cpu_stack_on_IF = true /\
  CPU.sp cpu_stack_on_IF = 0xFF11 /\
  CPU.pc (snd (CPU.handle_interrupts cpu_stack_on_IF)) = 0x40 /\
  MMU.IF_ (CPU.mmu (snd (CPU.handle_interrupts cpu_stack_on_IF))) = 0x0B /\
  MMU.IF_ (CPU.mmu (steps 7 (boot rom_stack_on_IF))) = 0x0B.
Proof. vm_compute. repeat split; reflexivity. Qed.

(** C7 (amended): when an interrupt is dispatched ([IE & IF & 0x1F] nonzero
    and IME set), the lowest-numbered pending bit is chosen, IME is
    cleared, that bit is cleared in IF, PC is then written to the bus at
    the decremented SP, PC becomes the vector [0x40 + 8 * bit] and 20
    cycles are charged, wherever the stack is; with IE = IF = 0x03 control
    goes to [0x40].  Provided neither byte of the push is written to
    [$FF0F], IF ends with that bit alone cleared, and with IE = IF = 0x03
    it becomes 0x02. *)
Theorem interrupt_dispatch_lowest_bit (s : CPU.t) :
  pending s <> 0 -> CPU.ime s = true ->
  let bit := lowest_bit (pending s) in
  let sp' := Z.land (CPU.sp s - 2) 0xFFFF in
  let if' := Z.land (MMU.IF_ (CPU.mmu s)) (Z.lnot (Z.shiftl 1 bit)) in
  let s' := snd (CPU.handle_interrupts s) in
  (0 <= bit <= 4 /\ Z.testbit (pending s) bit = true /\
   forall j, 0 <= j < bit -> Z.testbit (pending s) j = false) /\
  CPU.ime s' = false /\
  CPU.sp s' = sp' /\
  CPU.mmu s' = MMU.ww (MMU.set_IF_ if' (CPU.mmu s)) sp' (CPU.pc s) /\
  CPU.pc s' = 0x40 + 8 * bit /\
  CPU.cycles s' = CPU.cycles s + 20 /\
  (MMU.IE (CPU.mmu s) = 0x03 -> MMU.IF_ (CPU.mmu s) = 0x03 -> CPU.pc s' = 0x40) /\
  (sp' <> 0xFF0F -> Z.land (sp' + 1) 0xFFFF <> 0xFF0F ->
   MMU.IF_ (CPU.mmu s') = if' /\
   (MMU.IE (CPU.mmu s) = 0x03 -> MMU.IF_ (CPU.mmu s) = 0x03 ->
    MMU.IF_ (CPU.mmu s') = 0x02)).
Proof.
  intros Hp Hime bit sp' if' s'.
  assert (Hs' : s' = serve bit (CPU.set_ime false (CPU.set_halted false s)))
    by (apply handle_interrupts_dispatches; assumption).
  assert (Hpc : CPU.pc s' = 0x40 + 8 * bit) by (rewrite Hs'; reflexivity).
  split; [apply lowest_bit_spec; auto using pending_low5|].
  split; [rewrite Hs'; reflexivity|].
  split; [rewrite Hs'; reflexivity|].
  split; [rewrite Hs'; reflexivity|].
  split; [exact Hpc|].
  split; [rewrite Hs'; reflexivity|].
  split.
  { intros HIE HIF3. rewrite Hpc. subst bit. unfold pending.
    rewrite HIE, HIF3. reflexivity. }
  intros Hlo Hhi.
  assert (HIF : MMU.IF_ (CPU.mmu s') = if').
  { rewrite Hs'. unfold serve. cpu_fields. rewrite ww_keeps_IF.
    - reflexivity.
    - rewrite land_16_idem. exact Hlo.
    - exact Hhi. }
  split; [exact HIF|].
  intros HIE HIF3. rewrite HIF. subst if' bit. unfold pending.
  rewrite HIE, HIF3. reflexivity.
Qed.

(** The amended C7 on the program of [rom_two_pending]. *)
Lemma interrupt_dispatch_lowest_bit_witness :
  CPU.pc (snd (CPU.handle_interrupts cpu_two_pending)) = 0x40 /\
  MMU.IF_ (CPU.mmu (snd (CPU.handle_interrupts cpu_two_pending))) = 0x02.
Proof.
  assert (H1 : pending cpu_two_pending <> 0) by (vm_compute; discriminate).
  assert (H2 : CPU.ime cpu_two_pending = true) by (vm_compute; reflexivity).
  assert (H3 : Z.land (CPU.sp cpu_two_pending - 2) 0xFFFF <> 0xFF0F)
    by (vm_compute; discriminate).
  assert (H4 : Z.land (Z.land (CPU.sp cpu_two_pending - 2) 0xFFFF + 1) 0xFFFF <> 0xFF0F)
    by (vm_compute; discriminate).
  destruct (interrupt_dispatch_lowest_bit cpu_two_pending H1 H2)
    as (_ & _ & _ & _ & _ & _ & Hvec & Hcond).
  destruct (Hcond H3 H4) as [_ Hif].
  split; [apply Hvec | apply Hif]; vm_compute; reflexivity.
Defined.

(** ** HALT wake-up *)

Lemma ei_delay_idle s : CPU._ime_pending s = 0 -> CPU.ei_delay s = (tt, s).
Proof.
  intros H. unfold CPU.ei_delay. rewrite bind_eq. cbn [CPU.get fst snd]. rewrite H.
  reflexivity.
Qed.

Lemma handle_interrupts_wakes s :
  pending s <> 0 -> CPU.halted s = true -> CPU.ime s = false ->
  CPU.handle_interrupts s = (tt, CPU.set_halted false s).
Proof.
  intros Hp Hh Hime. unfold CPU.handle_interrupts.
  rewrite bind_eq. cbn [CPU.get fst snd]. fold (pending s).
  unfold truthy at 1. destruct (Z.eqb_spec (pending s) 0); [contradiction|]. cbn [negb].
  rewrite !bind_eq. cbn [CPU.get fst snd]. rewrite Hh.
  cbn [CPU.modify CPU.ret fst snd]. cpu_fields. rewrite Hime. reflexivity.
Qed.

(** C4, the claim as stated fails: the step that wakes the CPU goes on to
    fetch and execute the instruction after HALT.  With [CALL 0x0040]
    there, it costs 24 cycles, pushes PC and lands on [0x40], with IME
    still 0. *)
Lemma halt_wake_step_costs_more_than_4 :
  let s := cpu_halted_if_raised [0xCD; 0x40; 0x00] in
  CPU.halted s = true /\ CPU.ime s = false /\
  MMU.IE (CPU.mmu s) = 0x01 /\ MMU.IF_ (CPU.mmu s) = 0x01 /\
  CPU.cycles (snd (CPU.step s)) = CPU.cycles s + 24 /\
  CPU.sp (snd (CPU.step s)) = CPU.sp s - 2 /\
  CPU.pc (snd (CPU.step s)) = 0x40 /\
  CPU.ime (snd (CPU.step s)) = false.
Proof. vm_compute. repeat split; reflexivity. Qed.

(** C4 (amended): a CPU halted with IME = 0, no EI pending, IE = 0x01 and
    IF = 0x01 is woken by [handle_interrupts] without a dispatch (only the
    halted flag changes), and the same step then fetches and executes the
    instruction at PC, so the step costs what that instruction costs; when
    it is a NOP the step costs exactly 4 cycles, PC advances by one,
    nothing is pushed, and halted and IME end as 0. *)
Theorem halt_wake_runs_next_instruction (s : CPU.t) :
  CPU.halted s = true -> CPU.ime s = false -> CPU._ime_pending s = 0 ->
  MMU.IE (CPU.mmu s) = 0x01 -> MMU.IF_ (CPU.mmu s) = 0x01 ->
  let s' := snd (CPU.step s) in
  snd (CPU.handle_interrupts s) = CPU.set_halted false s /\
  s' = snd (CPU.fetch_execute (CPU.set_halted false s)) /\
  (MMU.rb (CPU.mmu s) (CPU.pc s) = 0x00 ->
   CPU.cycles s' = CPU.cycles s + 4 /\ CPU.halted s' = false /\ CPU.ime s' = false /\
   CPU.pc s' = Z.land (CPU.pc s + 1) 0xFFFF /\ CPU.sp s' = CPU.sp s /\
   CPU.mmu s' = CPU.mmu s).
Proof.
  intros Hh Hime Hpend HIE HIF s'.
  assert (Hp : pending s <> 0) by (unfold pending; rewrite HIE, HIF; discriminate).
  assert (Hs' : s' = snd (CPU.fetch_execute (CPU.set_halted false s))).
  { subst s'. unfold CPU.step. rewrite bind_eq, ei_delay_idle by assumption.
    cbn [fst snd]. rewrite bind_eq, handle_interrupts_wakes by assumption.
    cbn [fst snd]. rewrite bind_eq. reflexivity. }
  split; [rewrite handle_interrupts_wakes by assumption; reflexivity|].
  split; [exact Hs'|].
  intros Hnop. rewrite Hs'. unfold CPU.fetch_execute, CPU._fetch, CPU.rb.
  rewrite !bind_eq. cbn [CPU.get CPU.modify CPU.ret fst snd]. cpu_fields.
  rewrite Hnop. cbn [CPU.exec Z.eqb CPU.ret fst snd]. cpu_fields.
  rewrite Hime. repeat split; reflexivity.
Qed.

(** The amended C4 with a NOP after the HALT. *)
Lemma halt_wake_runs_next_instruction_witness :
  let s := cpu_halted_if_raised [0x00] in
  CPU.cycles (snd (CPU.step s)) = CPU.cycles s + 4 /\
  CPU.halted (snd (CPU.step s)) = false /\
  CPU.ime (snd (CPU.step s)) = false /\
  CPU.pc (snd (CPU.step s)) = Z.land (CPU.pc s + 1) 0xFFFF /\
  CPU.sp (snd (CPU.step s)) = CPU.sp s /\
  CPU.mmu (snd (CPU.step s)) = CPU.mmu s.
Proof.
  intros s.
  assert (H1 : CPU.halted s = true) by (vm_compute; reflexivity).
  assert (H2 : CPU.ime s = false) by (vm_compute; reflexivity).
  assert (H3 : CPU._ime_pending s = 0) by (vm_compute; reflexivity).
  assert (H4 : MMU.IE (CPU.mmu s) = 0x01) by (vm_compute; reflexivity).
  assert (H5 : MMU.IF_ (CPU.mmu s) = 0x01) by (vm_compute; reflexivity).
  destruct (halt_wake_runs_next_instruction s H1 H2 H3 H4 H5) as (_ & _ & Hnop).
  apply Hnop. vm_compute. reflexivity.
Defined.

(** ** F register *)

Lemma flag_byte_low zv nv hv cv : Z.land (CPU.flag_byte zv nv hv cv) 0xF = 0.
Proof. destruct zv, nv, hv, cv; reflexivity. Qed.

Lemma land_low_masked x m : Z.land m 0xF = 0 -> Z.land (Z.land x m) 0xF = 0.
Proof. intros H. rewrite <- Z.land_assoc, H. apply Z.land_0_r. Qed.

Lemma land_low_keep x m : Z.land x 0xF = 0 -> Z.land (Z.land x m) 0xF = 0.
Proof.
  intros H. rewrite <- Z.land_assoc, (Z.land_comm m), Z.land_assoc, H. apply Z.land_0_l.
Qed.

Lemma lor_low x y : Z.land x 0xF = 0 -> Z.land y 0xF = 0 -> Z.land (Z.lor x y) 0xF = 0.
Proof. intros Hx Hy. rewrite Z.land_lor_distr_l, Hx, Hy. reflexivity. Qed.

Lemma daa_flags_ok s : flags_ok s -> flags_ok (snd (CPU.daa s)).
Proof.
  unfold flags_ok, CPU.daa, CPU.modify. intros H. cbn [snd].
  destruct (negb (CPU._nf s)).
  - destruct (orb (CPU._cf s) _); cpu_fields;
      (apply lor_low; [apply land_low_keep; try apply lor_low; auto | destruct (_ =? _); reflexivity]).
  - cpu_fields. apply lor_low; [apply land_low_keep; assumption | destruct (_ =? _); reflexivity].
Qed.

Ltac flags_modify :=
  let s := fresh "s" in let H := fresh "H" in
  intros s H; unfold flags_ok in *; cpu_fields;
  first [ exact H
        | apply flag_byte_low
        | apply land_low_masked; reflexivity
        | apply land_low_keep; apply land_low_masked; reflexivity
        | apply lor_low; [exact H | reflexivity] ].

Lemma daa_keeps_flags : keeps flags_ok CPU.daa.
Proof. intros s. apply daa_flags_ok. Qed.

Lemma exec_keeps_flags op : keeps flags_ok (CPU.exec op).
Proof.
  unfold CPU.exec.
  keeps_go ltac:(apply daa_keeps_flags) flags_modify.
Qed.

Lemma dispatch_keeps_flags fired table : keeps flags_ok (CPU.dispatch fired table).
Proof.
  induction table as [|[bit vec] table IH]; cbn [CPU.dispatch].
  - apply keeps_ret.
  - destruct (truthy _); [|exact IH].
    keeps_go fail flags_modify.
Qed.

Lemma step_keeps_flags : keeps flags_ok CPU.step.
Proof.
  unfold CPU.step.
  keeps_go ltac:(first [apply dispatch_keeps_flags | apply exec_keeps_flags]) flags_modify.
Qed.

(** C9: every CPU state met from reset on has a zero low nibble in F, and
    so has the state after one more step, whatever opcode (primary or
    CB-prefixed), halt or dispatch path that step takes; the reset value
    0xB0 starts the invariant. *)
Theorem f_low_nibble_zero (s : CPU.t) :
  reachable s ->
  Z.land (CPU.f s) 0xF = 0 /\ Z.land (CPU.f (snd (CPU.step s))) 0xF = 0.
Proof.
  intros Hr.
  assert (H : flags_ok s).
  { induction Hr as [m | s Hr IH | s m Hr IH].
    - reflexivity.
    - apply step_keeps_flags, IH.
    - exact IH. }
  split; [exact H | apply step_keeps_flags, H].
Qed.

(** C9 after [LD B,0x80; AND A; RLC B]. *)
Lemma f_low_nibble_zero_witness :
  let s := steps 3 (boot (rom_at_entry [0x06; 0x80; 0xA7; 0xCB; 0x00])) in
  Z.land (CPU.f s) 0xF = 0 /\ Z.land (CPU.f (snd (CPU.step s))) 0xF = 0.
Proof.
  intros s. apply (f_low_nibble_zero s).
  subst s. unfold steps, boot. cbn [Nat.iter nat_rect].
  repeat apply reach_step. apply reach_reset.
Defined.

(** ** Cycle accounting and the frame loop *)

Ltac frame_modify :=
  let s := fresh "s" in let H := fresh "H" in
  intros s H; unfold cycles_are in *; cpu_fields; exact H.

Lemma daa_keeps_cycles n : keeps (cycles_are n) CPU.daa.
Proof.
  intros s H. unfold cycles_are, CPU.daa, CPU.modify in *. cbn [snd].
  destruct (negb _); [destruct (orb _ _) |]; cpu_fields; exact H.
Qed.

Lemma exec_keeps_cycles n op : keeps (cycles_are n) (CPU.exec op).
Proof.
  unfold CPU.exec. keeps_go ltac:(apply daa_keeps_cycles) frame_modify.
Qed.

Lemma fetch_keeps_cycles n : keeps (cycles_are n) CPU._fetch.
Proof. keeps_go fail frame_modify. Qed.

Lemma costs_ret lo hi x : lo <= x <= hi -> costs lo hi (CPU.ret x).
Proof. intros H s. exact H. Qed.

Lemma costs_bind {A : Type} lo hi (m : CPU.M A) (k : A -> CPU.M Z) :
  (forall x, costs lo hi (k x)) -> costs lo hi (CPU.bind m k).
Proof. intros Hk s. rewrite bind_eq. apply Hk. Qed.

Ltac costs_go :=
  repeat lazymatch goal with
  | |- costs _ _ (CPU.bind _ _) => apply costs_bind; intro
  | |- costs _ _ (CPU.ret _) =>
      apply costs_ret; unfold CPU.alu_cost;
      repeat match goal with |- context [if ?b then _ else _] => destruct b end; lia
  | |- costs _ _ (if ?b then _ else _) => destruct b
  | |- costs _ _ ?m => let g := head_of m in unfold g; cbv zeta
  end.

Lemma exec_costs op : costs 4 24 (CPU.exec op).
Proof. unfold CPU.exec. costs_go. Qed.

Lemma dispatch_cycles fired table s :
  CPU.cycles s <= CPU.cycles (snd (CPU.dispatch fired table s)) <= CPU.cycles s + 20.
Proof.
  induction table as [|[bit vec] table IH]; cbn [CPU.dispatch].
  - cbn. lia.
  - destruct (truthy _); [|exact IH].
    cbv [CPU.bind CPU.modify CPU.get CPU._push CPU.ww]. cbn [snd]. cpu_fields. lia.
Qed.

Lemma handle_interrupts_cycles s :
  CPU.cycles s <= CPU.cycles (snd (CPU.handle_interrupts s)) <= CPU.cycles s + 20.
Proof.
  unfold CPU.handle_interrupts. rewrite bind_eq. cbn [CPU.get fst snd].
  destruct (truthy _); [|cbn; lia].
  rewrite !bind_eq. cbn [CPU.get fst snd].
  destruct (CPU.halted s); cbn [CPU.modify CPU.ret fst snd]; cpu_fields.
  - destruct (CPU.ime s); [|cbn; lia]. rewrite bind_eq. cbn [CPU.modify fst snd].
    pose proof (dispatch_cycles (Z.land (Z.land (MMU.IE (CPU.mmu s)) (MMU.IF_ (CPU.mmu s))) 31)
                  CPU.vectors (CPU.set_ime false (CPU.set_halted false s))) as H.
    revert H. cpu_fields. lia.
  - destruct (CPU.ime s); [|cbn; lia]. rewrite bind_eq. cbn [CPU.modify fst snd].
    pose proof (dispatch_cycles (Z.land (Z.land (MMU.IE (CPU.mmu s)) (MMU.IF_ (CPU.mmu s))) 31)
                  CPU.vectors (CPU.set_ime false s)) as H.
    revert H. cpu_fields. lia.
Qed.

Lemma ei_delay_cycles s : CPU.cycles (snd (CPU.ei_delay s)) = CPU.cycles s.
Proof.
  unfold CPU.ei_delay. rewrite bind_eq. cbn [CPU.get fst snd].
  destruct (CPU._ime_pending s >? 0); [|reflexivity].
  rewrite !bind_eq. cbn [CPU.modify CPU.get fst snd]. cpu_fields.
  destruct (_ =? 0); reflexivity.
Qed.

Lemma fetch_execute_cycles s :
  CPU.cycles s + 4 <= CPU.cycles (snd (CPU.fetch_execute s)) <= CPU.cycles s + 24.
Proof.
  unfold CPU.fetch_execute. rewrite !bind_eq. cbn [CPU.modify snd]. cpu_fields.
  pose proof (fetch_keeps_cycles (CPU.cycles s) s eq_refl) as H2.
  set (s2 := snd (CPU._fetch s)) in *.
  set (op := fst (CPU._fetch s)).
  pose proof (exec_keeps_cycles (CPU.cycles s2) op s2 eq_refl) as H3.
  pose proof (exec_costs op s2) as H4.
  unfold cycles_are in *. lia.
Qed.

Lemma step_cycles s :
  CPU.cycles s + 4 <= CPU.cycles (snd (CPU.step s)) <= CPU.cycles s + 44.
Proof.
  unfold CPU.step. rewrite !bind_eq. cbn [CPU.get fst snd].
  pose proof (ei_delay_cycles s) as H0.
  set (s0 := snd (CPU.ei_delay s)) in *.
  pose proof (handle_interrupts_cycles s0) as H1.
  set (s1 := snd (CPU.handle_interrupts s0)) in *.
  destruct (CPU.halted s1).
  - cbn [CPU.modify snd]. cpu_fields. lia.
  - pose proof (fetch_execute_cycles s1). lia.
Qed.

(** *** The frame loop *)

Lemma iteration_total cp total cp' total' :
  GameBoy.iteration cp total = Some (cp', total') ->
  total' = total + (CPU.cycles (snd (CPU.step cp)) - CPU.cycles cp).
Proof.
  unfold GameBoy.iteration.
  destruct (PPU.step _ _) as [[[vb st] p]|]; [|discriminate].
  destruct (Timer.step _ _) as [ti tm]. intros H. injection H as _ H. lia.
Qed.

Lemma loop_done fuel target run cp total :
  target <= total ->
  GameBoy.loop fuel target run cp total = GameBoy.Returned (GameBoy.mk (Some cp) run total).
Proof.
  intros H. destruct fuel; cbn [GameBoy.loop];
    destruct (Z.ltb_spec total target); (lia || reflexivity).
Qed.

Lemma loop_window fuel : forall target run cp total g,
  total < target ->
  GameBoy.loop fuel target run cp total = GameBoy.Returned g ->
  target <= GameBoy.total_cyc g < target + 44.
Proof.
  induction fuel as [|fuel IH]; intros target run cp total g Hlt; cbn [GameBoy.loop];
    destruct (Z.ltb_spec total target); try lia; [discriminate|].
  destruct (GameBoy.iteration cp total) as [[cp' total']|] eqn:Hit; [|discriminate].
  apply iteration_total in Hit. pose proof (step_cycles cp) as Hc.
  destruct (Z_lt_le_dec total' target) as [Hlt'|Hge].
  - apply IH. exact Hlt'.
  - rewrite loop_done by exact Hge. intros Hg. injection Hg as <-.
    cbn [GameBoy.total_cyc]. lia.
Qed.

Lemma loop_terminates fuel : forall target run cp total,
  target - total <= 4 * Z.of_nat fuel ->
  GameBoy.loop fuel target run cp total <> GameBoy.OutOfFuel.
Proof.
  induction fuel as [|fuel IH]; intros target run cp total Hf; cbn [GameBoy.loop];
    destruct (Z.ltb_spec total target); try discriminate; [lia|].
  destruct (GameBoy.iteration cp total) as [[cp' total']|] eqn:Hit; [|discriminate].
  apply iteration_total in Hit. pose proof (step_cycles cp) as Hc.
  apply IH. lia.
Qed.

Lemma run_frame_terminates g : GameBoy.run_frame g <> GameBoy.OutOfFuel.
Proof.
  unfold GameBoy.run_frame, GameBoy.run_frame_fuel.
  destruct (GameBoy.cpu g); [|discriminate].
  apply loop_terminates. rewrite Z2Nat.id by lia. unfold CYCLES_PER_FRAME. lia.
Qed.

(** C10: every [CPU.step] adds at least 4 cycles to the counter, whatever
    path it takes: a dispatch adds 0 or 20 before the fetch, every opcode
    returns a cost of at least 4, and the opcodes without a handler return
    exactly 4 (the halted path adds 4 by itself).  Hence the loop of
    [run_frame] ends within 17 556 turns (by returning, or by the
    renderer's exception). *)
Theorem step_adds_4_and_frame_terminates :
  (forall s, CPU.cycles s + 4 <= CPU.cycles (snd (CPU.step s))) /\
  (forall s, CPU.cycles s <= CPU.cycles (snd (CPU.handle_interrupts s))) /\
  (forall op s, 4 <= fst (CPU.exec op s)) /\
  Forall (fun op => forall s, fst (CPU.exec op s) = 4)
    [0xD3; 0xDB; 0xDD; 0xE3; 0xE4; 0xEB; 0xEC; 0xED; 0xF4; 0xFC; 0xFD] /\
  (forall g, GameBoy.run_frame_fuel (Z.to_nat 17556) g <> GameBoy.OutOfFuel).
Proof.
  split; [intros s; apply step_cycles|].
  split; [intros s; apply handle_interrupts_cycles|].
  split; [intros op s; apply (exec_costs op s)|].
  split; [|exact run_frame_terminates].
  repeat (constructor; [intros s; reflexivity|]). constructor.
Qed.

(** C8, the claim as stated fails: a step that dispatches an interrupt also
    executes the instruction at the vector, so one step can cost
    20 + 24 = 44 cycles.  On [rom_late_timer] the last step of the first
    frame starts at 70 220 and ends at 70 264, past 70 224 + 24. *)
Lemma run_frame_overshoots_instruction_cost :
  match GameBoy.run_frame gb_late_timer with
  | GameBoy.Returned g' =>
      GameBoy.total_cyc g' - GameBoy.total_cyc gb_late_timer = 70224 + 40
  | _ => False
  end.
Proof. vm_compute. reflexivity. Qed.

(** C8 (amended): a call of [run_frame] on a loaded system ends within
    17 556 turns, and when it returns the cycle count has grown by at
    least 70 224 and by less than 70 224 + 44, where 44 = 20 + 24 is the
    most one [CPU.step] can cost (an interrupt dispatch followed by the
    dearest instruction). *)
Theorem run_frame_cycle_window (g : GameBoy.t) :
  GameBoy.cpu g <> None ->
  match GameBoy.run_frame g with
  | GameBoy.Returned g' =>
      70224 <= GameBoy.total_cyc g' - GameBoy.total_cyc g < 70224 + 44
  | GameBoy.Raised => True
  | GameBoy.OutOfFuel => False
  end.
Proof.
  intros Hcpu. pose proof (run_frame_terminates g) as Hterm.
  destruct (GameBoy.run_frame g) as [g'| |] eqn:Hrun; [|exact I|congruence].
  unfold GameBoy.run_frame, GameBoy.run_frame_fuel in Hrun.
  destruct (GameBoy.cpu g) as [cp|]; [|congruence].
  apply loop_window in Hrun; unfold CYCLES_PER_FRAME in *; lia.
Qed.

(** The amended C8 on the first frame of [rom_late_timer]. *)
Lemma run_frame_cycle_window_witness :
  match GameBoy.run_frame gb_late_timer with
  | GameBoy.Returned g' =>
      70224 <= GameBoy.total_cyc g' - GameBoy.total_cyc gb_late_timer < 70224 + 44
  | GameBoy.Raised => True
  | GameBoy.OutOfFuel => False
  end.
Proof.
  apply (run_frame_cycle_window gb_late_timer).
  unfold gb_late_timer, GameBoy.load. cbn [GameBoy.cpu]. discriminate.
Defined.

(** * Further properties of the core *)

(** ** Bytes and bit masks *)

Lemma land_ff x : Z.land x 0xFF = x mod 256.
Proof. change 0xFF with (Z.ones 8). rewrite Z.land_ones by lia. reflexivity. Qed.

Lemma land_ff_byte x : byte (Z.land x 0xFF).
Proof. unfold byte. rewrite land_ff. apply Z.mod_pos_bound. lia. Qed.

Lemma land_ffff_word x : word16 (Z.land x 0xFFFF).
Proof. unfold word16. rewrite land_16. apply Z.mod_pos_bound. lia. Qed.

Lemma byte_land_ff x : byte x -> Z.land x 0xFF = x.
Proof. unfold byte. intros H. rewrite land_ff. apply Z.mod_small. exact H. Qed.

Lemma land_ones_small n x : 0 <= n -> 0 <= x < 2 ^ n -> Z.land x (Z.ones n) = x.
Proof. intros Hn Hx. rewrite Z.land_ones by assumption. apply Z.mod_small, Hx. Qed.

Lemma lor_bound n x y :
  0 <= n -> 0 <= x < 2 ^ n -> 0 <= y < 2 ^ n -> 0 <= Z.lor x y < 2 ^ n.
Proof.
  intros Hn Hx Hy.
  rewrite <- (land_ones_small n x), <- (land_ones_small n y) by assumption.
  rewrite <- Z.land_lor_distr_l, Z.land_ones by assumption.
  apply Z.mod_pos_bound, Z.pow_pos_nonneg; lia.
Qed.

Lemma lxor_bound n x y :
  0 <= n -> 0 <= x < 2 ^ n -> 0 <= y < 2 ^ n -> 0 <= Z.lxor x y < 2 ^ n.
Proof.
  intros Hn Hx Hy.
  replace (Z.lxor x y) with (Z.land (Z.lxor x y) (Z.ones n)).
  - rewrite Z.land_ones by assumption. apply Z.mod_pos_bound, Z.pow_pos_nonneg; lia.
  - rewrite <- (land_ones_small n x) at 2 by assumption.
    rewrite <- (land_ones_small n y) at 2 by assumption.
    apply Z.bits_inj'. intros i Hi.
    rewrite Z.land_spec, !Z.lxor_spec, !Z.land_spec.
    destruct (Z.testbit x i), (Z.testbit y i), (Z.testbit (Z.ones n) i); reflexivity.
Qed.

Lemma land_byte_l x y : byte x -> byte (Z.land x y).
Proof.
  intros Hx. rewrite <- (byte_land_ff x Hx).
  rewrite <- Z.land_assoc, (Z.land_comm 0xFF), Z.land_assoc. apply land_ff_byte.
Qed.

Lemma lor_byte x y : byte x -> byte y -> byte (Z.lor x y).
Proof. unfold byte. intros. apply (lor_bound 8); lia. Qed.

Lemma lxor_byte x y : byte x -> byte y -> byte (Z.lxor x y).
Proof. unfold byte. intros. apply (lxor_bound 8); lia. Qed.

(** ** Cartridge *)

Ltac cart_fields :=
  cbn [Cartridge.rom Cartridge.ram Cartridge.mbc_type Cartridge.rom_bank Cartridge.ram_bank
       Cartridge.ram_enabled Cartridge.mode Cartridge.num_rom_banks Cartridge.ram_size
       Cartridge.set_ram_enabled Cartridge.set_rom_bank Cartridge.set_ram_bank
       Cartridge.set_mode Cartridge.set_ram].

Ltac split_ifs :=
  repeat match goal with
  | |- context [if ?b then _ else _] => destruct b eqn:?
  end.

Lemma byte_at_setitem_eq buf i v :
  0 <= i < Z.of_nat (length buf) -> byte_at (setitem buf i v) i = v.
Proof.
  intros Hi. unfold byte_at, setitem. apply list_lookup_total_insert_eq. lia.
Qed.

Lemma byte_at_setitem_ne buf i j v :
  0 <= i -> 0 <= j -> i <> j -> byte_at (setitem buf i v) j = byte_at buf j.
Proof.
  intros Hi Hj Hne. unfold byte_at, setitem. apply list_lookup_total_insert_ne. lia.
Qed.

Lemma length_setitem buf i v : length (setitem buf i v) = length buf.
Proof. apply length_insert. Qed.

Lemma write_keeps_static s a v :
  Cartridge.rom (Cartridge.write s a v) = Cartridge.rom s /\
  Cartridge.mbc_type (Cartridge.write s a v) = Cartridge.mbc_type s /\
  Cartridge.num_rom_banks (Cartridge.write s a v) = Cartridge.num_rom_banks s /\
  Cartridge.ram_size (Cartridge.write s a v) = Cartridge.ram_size s /\
  length (Cartridge.ram (Cartridge.write s a v)) = length (Cartridge.ram s).
Proof.
  unfold Cartridge.write. cbv zeta. split_ifs; cart_fields;
    rewrite ?length_setitem; repeat split; reflexivity.
Qed.

(** X1: no write to the cartridge changes the ROM image, the controller
    type, the bank count, the RAM size or the length of the RAM buffer, so
    the fixed window below [0x4000] reads the same before and after. *)
Theorem cartridge_write_keeps_rom (s : Cartridge.t) (a v : Z) :
  Cartridge.rom (Cartridge.write s a v) = Cartridge.rom s /\
  Cartridge.mbc_type (Cartridge.write s a v) = Cartridge.mbc_type s /\
  Cartridge.num_rom_banks (Cartridge.write s a v) = Cartridge.num_rom_banks s /\
  Cartridge.ram_size (Cartridge.write s a v) = Cartridge.ram_size s /\
  length (Cartridge.ram (Cartridge.write s a v)) = length (Cartridge.ram s) /\
  (forall b, b < 0x4000 -> Cartridge.read (Cartridge.write s a v) b = Cartridge.read s b).
Proof.
  destruct (write_keeps_static s a v) as (Hrom & Hmt & Hnb & Hrs & Hlen).
  repeat split; try assumption.
  intros b Hb. unfold Cartridge.read. rewrite Hrom.
  destruct (Z.ltb_spec b 0x4000); [reflexivity | lia].
Qed.

Lemma cart_after_mbc_type ws : forall s,
  Cartridge.mbc_type (cart_after s ws) = Cartridge.mbc_type s.
Proof.
  induction ws as [|w ws IH]; intros s; [reflexivity|].
  unfold cart_after in *. cbn [fold_left]. rewrite IH.
  apply (write_keeps_static s (fst w) (snd w)).
Qed.

Lemma land_1f_lor_60 x lo :
  Z.land (Z.lor (Z.land x 0x60) lo) 0x1F = Z.land lo 0x1F.
Proof.
  rewrite Z.land_lor_distr_l, <- Z.land_assoc. change (Z.land 0x60 0x1F) with 0.
  rewrite Z.land_0_r. reflexivity.
Qed.

Lemma land_1f_idem x : Z.land (Z.land x 0x1F) 0x1F = Z.land x 0x1F.
Proof. rewrite <- Z.land_assoc. reflexivity. Qed.

Lemma land_1f_lor_high x v :
  Z.land (Z.lor (Z.land x 0x1F) (Z.shiftl (Z.land v 3) 5)) 0x1F = Z.land x 0x1F.
Proof.
  rewrite Z.land_lor_distr_l, land_1f_idem.
  replace (Z.land (Z.shiftl (Z.land v 3) 5) 0x1F) with 0; [apply Z.lor_0_r|].
  symmetry. apply Z.bits_inj'. intros i Hi.
  rewrite Z.land_spec, Z.bits_0. change 0x1F with (Z.ones 5).
  destruct (Z_lt_le_dec i 5).
  - rewrite Z.shiftl_spec_low by lia. reflexivity.
  - rewrite Z.ones_spec_high by lia. apply andb_false_r.
Qed.

Lemma mbc1_write_low_bits s a v :
  CartridgeInv.mbc1 s ->
  Z.land (Cartridge.rom_bank s) 0x1F <> 0 ->
  Z.land (Cartridge.rom_bank (Cartridge.write s a v)) 0x1F <> 0.
Proof.
  unfold CartridgeInv.mbc1. intros Hmt Hlow. unfold Cartridge.write. cbv zeta.
  destruct (Z.eqb_spec (Cartridge.mbc_type s) 0); [lia|].
  destruct (Cartridge.banked _); [|exact Hlow].
  destruct (Z.leb_spec (Cartridge.mbc_type s) 3); [|lia].
  rewrite ?andb_true_r.
  destruct (a <? 0x2000); [exact Hlow|].
  destruct (a <? 0x4000).
  { cart_fields. rewrite land_1f_lor_60.
    destruct (Z.eqb_spec (Z.land (Z.land v 0xFF) 0x1F) 0) as [|Hne]; [discriminate|].
    rewrite land_1f_idem. exact Hne. }
  destruct (a <? 0x6000).
  { destruct (Cartridge.mode s =? 0); cart_fields; [|exact Hlow].
    rewrite land_1f_lor_high. exact Hlow. }
  destruct (a <? 0x8000); [exact Hlow|].
  destruct (_ && _); [|exact Hlow].
  destruct (_ && _); exact Hlow.
Qed.

(** X2: on an MBC1-style cartridge the low five bits of the selected ROM
    bank are never zero, whatever sequence of writes follows the load: a
    bank number 0, 0x20, 0x40 or 0x60 cannot be selected. *)
Theorem mbc1_bank_low_bits_never_zero (data : list Z) (ws : list (Z * Z)) :
  CartridgeInv.mbc1 (Cartridge.init data) ->
  Z.land (Cartridge.rom_bank (cart_after (Cartridge.init data) ws)) 0x1F <> 0.
Proof.
  intros Hmt.
  assert (H : forall s, CartridgeInv.mbc1 s -> Z.land (Cartridge.rom_bank s) 0x1F <> 0 ->
              Z.land (Cartridge.rom_bank (cart_after s ws)) 0x1F <> 0).
  { induction ws as [|w ws IH]; intros s Hs Hlow; [exact Hlow|].
    unfold cart_after in *. cbn [fold_left]. apply IH.
    - unfold CartridgeInv.mbc1 in *.
      replace (Cartridge.mbc_type (Cartridge.write s (fst w) (snd w)))
        with (Cartridge.mbc_type s); [exact Hs|].
      symmetry. apply (write_keeps_static s (fst w) (snd w)).
    - apply mbc1_write_low_bits; assumption. }
  apply H; [exact Hmt | discriminate].
Qed.

(** X2 on [rom_mbc1], after selecting bank 0 and then the high bits 3. *)
Lemma mbc1_bank_low_bits_never_zero_witness :
  Z.land (Cartridge.rom_bank
            (cart_after (Cartridge.init rom_mbc1) [(0x2000, 0x00); (0x4000, 0x03)])) 0x1F <> 0.
Proof.
  apply (mbc1_bank_low_bits_never_zero rom_mbc1 [(0x2000, 0x00); (0x4000, 0x03)]).
  vm_compute. split; discriminate.
Defined.

Lemma land_3_range x : 0 <= Z.land x 3 <= 3.
Proof.
  replace (Z.land x 3) with (x mod 4).
  - pose proof (Z.mod_pos_bound x 4 ltac:(lia)). lia.
  - symmetry. apply (Z.land_ones x 2). lia.
Qed.

Lemma banked_nonzero mt : Cartridge.banked mt = true -> (mt =? 0) = false.
Proof. intros H. destruct (Z.eqb_spec mt 0) as [->|]; [discriminate H | reflexivity]. Qed.

(** X3: the RAM buffer keeps its size and the RAM bank stays in 0..3 under
    every write; and with RAM enabled on a banked cartridge, a byte written
    in [0xA000, 0xC000) is read back from the same address (masked to 8
    bits) while every other address of the window reads as before. *)
Theorem cartridge_ram_round_trip (s : Cartridge.t) (a v : Z) :
  CartridgeInv.ram_ok s ->
  CartridgeInv.ram_ok (Cartridge.write s a v) /\
  (Cartridge.banked (Cartridge.mbc_type s) = true ->
   Cartridge.ram_enabled s = true -> Cartridge.ram_size s <> 0 ->
   0xA000 <= a < 0xC000 ->
   Cartridge.read (Cartridge.write s a v) a = Z.land v 0xFF /\
   forall b, 0xA000 <= b < 0xC000 -> b <> a ->
     Cartridge.read (Cartridge.write s a v) b = Cartridge.read s b).
Proof.
  intros [Hlen Hbank]. split.
  - unfold CartridgeInv.ram_ok, Cartridge.write. cbv zeta. split_ifs; cart_fields;
      rewrite ?length_setitem; split; try assumption.
    apply land_3_range.
  - intros Hbk Hen Hsz Ha.
    assert (Hw : Cartridge.write s a v
                 = Cartridge.set_ram (setitem (Cartridge.ram s)
                     (Cartridge.ram_bank s * 0x2000 + (a - 0xA000)) (Z.land v 0xFF)) s).
    { unfold Cartridge.write. cbv zeta. rewrite (banked_nonzero _ Hbk), Hbk, Hen.
      unfold truthy. destruct (Z.eqb_spec (Cartridge.ram_size s) 0); [contradiction|].
      destruct (Z.ltb_spec a 0x2000); [lia|]. destruct (Z.ltb_spec a 0x4000); [lia|].
      destruct (Z.ltb_spec a 0x6000); [lia|]. destruct (Z.ltb_spec a 0x8000); [lia|].
      destruct (Z.leb_spec 0xA000 a); [|lia]. destruct (Z.ltb_spec a 0xC000); [|lia].
      reflexivity. }
    rewrite Hw.
    assert (Hrd : forall b, 0xA000 <= b < 0xC000 ->
              Cartridge.read (Cartridge.set_ram (setitem (Cartridge.ram s)
                     (Cartridge.ram_bank s * 0x2000 + (a - 0xA000)) (Z.land v 0xFF)) s) b
              = byte_at (setitem (Cartridge.ram s)
                     (Cartridge.ram_bank s * 0x2000 + (a - 0xA000)) (Z.land v 0xFF))
                  (Cartridge.ram_bank s * 0x2000 + (b - 0xA000))).
    { intros b Hb. unfold Cartridge.read. cart_fields. rewrite Hen.
      unfold truthy. destruct (Z.eqb_spec (Cartridge.ram_size s) 0); [contradiction|].
      destruct (Z.ltb_spec b 0x4000); [lia|]. destruct (Z.ltb_spec b 0x8000); [lia|].
      destruct (Z.leb_spec 0xA000 b); [|lia]. destruct (Z.ltb_spec b 0xC000); [|lia].
      reflexivity. }
    split.
    + rewrite Hrd by assumption. apply byte_at_setitem_eq. rewrite Hlen. lia.
    + intros b Hb Hne. rewrite Hrd by assumption.
      rewrite byte_at_setitem_ne by lia.
      unfold Cartridge.read. rewrite Hen.
      unfold truthy. destruct (Z.eqb_spec (Cartridge.ram_size s) 0); [contradiction|].
      destruct (Z.ltb_spec b 0x4000); [lia|]. destruct (Z.ltb_spec b 0x8000); [lia|].
      destruct (Z.leb_spec 0xA000 b); [|lia]. destruct (Z.ltb_spec b 0xC000); [|lia].
      reflexivity.
Qed.

Lemma cartridge_init_ram_ok data : CartridgeInv.ram_ok (Cartridge.init data).
Proof.
  unfold CartridgeInv.ram_ok, Cartridge.init. cart_fields. split; [|lia].
  unfold bytearray. apply length_replicate.
Qed.

(** X3 on [cart_ram_on]: a byte stored at [0xA123]. *)
Lemma cartridge_ram_round_trip_witness :
  Cartridge.read (Cartridge.write cart_ram_on 0xA123 0x5A) 0xA123 = Z.land 0x5A 0xFF.
Proof.
  assert (Hok : CartridgeInv.ram_ok cart_ram_on).
  { apply (cartridge_ram_round_trip (Cartridge.init rom_mbc1) 0x0000 0x0A).
    apply cartridge_init_ram_ok. }
  destruct (cartridge_ram_round_trip cart_ram_on 0xA123 0x5A Hok) as [_ H].
  apply H.
  - vm_compute; reflexivity.
  - vm_compute; reflexivity.
  - vm_compute; discriminate.
  - vm_compute. split; [discriminate | reflexivity].
Defined.

(** ** Joypad *)

(** X4: the joypad register always reads [0xC0] in its high nibble, and a
    low bit reads 0 exactly when the button of that bit in a selected group
    is held (with both groups selected either button pulls the bit low);
    after a write the groups selected are those whose bit (5 for buttons, 4
    for directions) was written as 0. *)
Theorem joypad_read_bits (s : Joypad.t) :
  Z.land (Joypad.read s) 0xF0 = 0xC0 /\
  Z.testbit (Joypad.read s) 0
    = negb (Joypad._sel_btn s && Joypad.a s || Joypad._sel_dir s && Joypad.right s) /\
  Z.testbit (Joypad.read s) 1
    = negb (Joypad._sel_btn s && Joypad.b s || Joypad._sel_dir s && Joypad.left s) /\
  Z.testbit (Joypad.read s) 2
    = negb (Joypad._sel_btn s && Joypad.sel s || Joypad._sel_dir s && Joypad.up s) /\
  Z.testbit (Joypad.read s) 3
    = negb (Joypad._sel_btn s && Joypad.start s || Joypad._sel_dir s && Joypad.down s) /\
  (forall v, Joypad._sel_btn (Joypad.write s v) = negb (Z.testbit v 5) /\
             Joypad._sel_dir (Joypad.write s v) = negb (Z.testbit v 4)).
Proof.
  split; [|split; [|split; [|split; [|split]]]].
  1-5: destruct s as [a b sel start right left up down sb sd];
       destruct a, b, sel, start, right, left, up, down, sb, sd; reflexivity.
  intros v.
  assert (H5 : truthy (Z.land v 0x20) = Z.testbit v 5)
    by (change 0x20 with (Z.shiftl 1 5); apply land_bit_testbit; lia).
  assert (H4 : truthy (Z.land v 0x10) = Z.testbit v 4)
    by (change 0x10 with (Z.shiftl 1 4); apply land_bit_testbit; lia).
  unfold Joypad.write. cbn [Joypad._sel_btn Joypad._sel_dir]. rewrite H5, H4.
  split; reflexivity.
Qed.

(** ** Timer registers *)

Ltac timer_fields :=
  cbn [Timer.div Timer.tima Timer.tma Timer.tac Timer._of Timer._of_d fst snd].

Lemma land_7_range x : 0 <= Z.land x 7 < 8.
Proof.
  replace (Z.land x 7) with (x mod 8).
  - apply Z.mod_pos_bound. lia.
  - symmetry. apply (Z.land_ones x 3). lia.
Qed.

Lemma timer_step_ok t cyc : timer_ok t -> timer_ok (snd (Timer.step t cyc)).
Proof.
  unfold timer_ok. intros (Hd & Hti & Htm & Htac).
  unfold Timer.step. cbv zeta.
  destruct (Timer._of t); [destruct (_ <=? 0)|];
    destruct (truthy (Z.land (Timer.tac t) 4));
    try destruct (_ && _); try destruct (_ =? 0);
    timer_fields; (split; [|split; [|split]]);
    first [apply land_ffff_word | apply land_ff_byte | apply Hti | apply Htm | apply Htac].
Qed.

Lemma timer_write_ok t a v : timer_ok t -> byte v -> timer_ok (Timer.write t a v).
Proof.
  intros (Hd & Hti & Htm & Htac) Hv. unfold timer_ok, Timer.write.
  split_ifs; timer_fields; (split; [|split; [|split]]);
    first [assumption | apply Hd | apply Hti | apply Htm | apply Htac
          | apply land_7_range | unfold word16; lia].
Qed.

Lemma timer_read_byte t a : timer_ok t -> byte (Timer.read t a).
Proof.
  intros (Hd & Hti & Htm & Htac). unfold Timer.read. split_ifs.
  - apply land_ff_byte.
  - exact Hti.
  - exact Htm.
  - apply lor_byte; unfold byte; lia.
  - unfold byte; lia.
Qed.

(** X5: DIV stays a 16-bit value, TIMA and TMA stay bytes and TAC stays
    below 8 under every step and every register write of a byte, and every
    timer register then reads as a byte. *)
Theorem timer_ranges_kept (t : Timer.t) :
  timer_ok t ->
  (forall cyc, timer_ok (snd (Timer.step t cyc))) /\
  (forall a v, byte v -> timer_ok (Timer.write t a v)) /\
  (forall a, byte (Timer.read t a)).
Proof.
  intros Hok. split; [intros cyc; apply timer_step_ok, Hok|]. split.
  - intros a v. apply timer_write_ok, Hok.
  - intros a. apply timer_read_byte, Hok.
Qed.

(** X5 at power-up. *)
Lemma timer_ranges_kept_witness :
  (forall cyc, timer_ok (snd (Timer.step Timer.init cyc))) /\
  (forall a v, byte v -> timer_ok (Timer.write Timer.init a v)) /\
  (forall a, byte (Timer.read Timer.init a)).
Proof.
  apply (timer_ranges_kept Timer.init).
  unfold timer_ok, word16, byte. cbn. lia.
Defined.

Lemma timer_step_reports t cyc :
  fst (Timer.step t cyc) = Timer._of t && (Timer._of_d t - cyc <=? 0).
Proof.
  unfold Timer.step. cbv zeta.
  destruct (Timer._of t); [destruct (_ <=? 0)|]; cbn [andb]; split_ifs; reflexivity.
Qed.

(** X6: [step] reports a timer interrupt exactly when an overflow reload
    was pending and its delay has run out within this step; an overflow
    that happens in the step itself is never reported by it. *)
Theorem timer_fires_when_reload_due (t : Timer.t) (cyc : Z) :
  fst (Timer.step t cyc) = true <-> Timer._of t = true /\ Timer._of_d t <= cyc.
Proof.
  rewrite timer_step_reports. rewrite andb_true_iff, Z.leb_le. split; intros [H1 H2]; split;
    first [exact H1 | lia].
Qed.



Lemma timer_run_div cs : forall t,
  Timer.div (timer_run t cs) = (Timer.div t + elapsed cs) mod 65536 \/
  (cs = [] /\ Timer.div (timer_run t cs) = Timer.div t).
Proof.
  induction cs as [|cyc cs IH]; intros t; [right; auto|left].
  unfold timer_run. cbn [fold_left]. fold (timer_run (snd (Timer.step t cyc)) cs).
  assert (Hd : Timer.div (snd (Timer.step t cyc)) = (Timer.div t + cyc) mod 65536).
  { rewrite <- land_16. unfold Timer.step. cbv zeta.
    destruct (Timer._of t); [destruct (_ <=? 0)|];
      destruct (truthy (Z.land (Timer.tac t) 4));
      try destruct (_ && _); try destruct (_ =? 0); reflexivity. }
  change (elapsed (cyc :: cs)) with (cyc + elapsed cs).
  destruct (IH (snd (Timer.step t cyc))) as [H | [-> H]].
  - rewrite H, Hd. rewrite Zplus_mod_idemp_l. f_equal. lia.
  - rewrite H, Hd. unfold elapsed. cbn [fold_right]. f_equal. lia.
Qed.

(** X8: after any write to DIV ([0xFF04]) the register reads the upper
    byte of the cycles stepped since, modulo 2^16, whatever the value
    written and whatever TAC holds. *)
Theorem div_register_counts_cycles (t : Timer.t) (v : Z) (cs : list Z) :
  Timer.read (timer_run (Timer.write t 0xFF04 v) cs) 0xFF04
    = (elapsed cs mod 65536) / 256.
Proof.
  assert (Hd : Timer.div (timer_run (Timer.write t 0xFF04 v) cs) = elapsed cs mod 65536).
  { destruct (timer_run_div cs (Timer.write t 0xFF04 v)) as [H | [-> H]];
      rewrite H; reflexivity. }
  unfold Timer.read. cbn [Z.eqb Pos.eqb]. rewrite Hd.
  rewrite Z.shiftr_div_pow2, land_ff by lia. change (2 ^ 8) with 256.
  apply Z.mod_small.
  pose proof (Z.mod_pos_bound (elapsed cs) 65536 ltac:(lia)). euclid.
Qed.

(** ** PPU: the renderer *)

Ltac ppu_fields :=
  cbn [PPU.vram PPU.oam PPU.lcdc PPU.stat PPU.scy PPU.scx PPU.ly PPU.lyc PPU.bgp
       PPU.obp0 PPU.obp1 PPU.wy PPU.wx PPU.mode PPU.cycles PPU.win_line PPU._win_active
       PPU.pixels PPU.frame_ready
       PPU.set_vram PPU.set_oam PPU.set_lcdc PPU.set_stat PPU.set_scy PPU.set_scx
       PPU.set_ly PPU.set_lyc PPU.set_bgp PPU.set_obp0 PPU.set_obp1 PPU.set_wy
       PPU.set_wx PPU.set_mode PPU.set_cycles PPU.set_win_line PPU.set_win_active
       PPU.set_pixels PPU.set_frame_ready].

Ltac ppu_fields_in H :=
  cbn [PPU.vram PPU.oam PPU.lcdc PPU.stat PPU.scy PPU.scx PPU.ly PPU.lyc PPU.bgp
       PPU.obp0 PPU.obp1 PPU.wy PPU.wx PPU.mode PPU.cycles PPU.win_line PPU._win_active
       PPU.pixels PPU.frame_ready
       PPU.set_vram PPU.set_oam PPU.set_lcdc PPU.set_stat PPU.set_scy PPU.set_scx
       PPU.set_ly PPU.set_lyc PPU.set_bgp PPU.set_obp0 PPU.set_obp1 PPU.set_wy
       PPU.set_wx PPU.set_mode PPU.set_cycles PPU.set_win_line PPU.set_win_active
       PPU.set_pixels PPU.set_frame_ready] in H.

Lemma line_redrawn_refl line s : PPUInv.line_redrawn line s s.
Proof. unfold PPUInv.line_redrawn, PPUInv.regs_eq. intuition. Qed.

Lemma regs_eq_trans s1 s2 s3 :
  PPUInv.regs_eq s1 s2 -> PPUInv.regs_eq s2 s3 -> PPUInv.regs_eq s1 s3.
Proof. unfold PPUInv.regs_eq. intuition congruence. Qed.

Lemma line_redrawn_trans line s1 s2 s3 :
  PPUInv.line_redrawn line s1 s2 -> PPUInv.line_redrawn line s2 s3 ->
  PPUInv.line_redrawn line s1 s3.
Proof.
  intros (Hr1 & Hw1 & Hl1 & Hp1) (Hr2 & Hw2 & Hl2 & Hp2).
  split; [eapply regs_eq_trans; eassumption|].
  split; [congruence|]. split; [congruence|].
  intros i Hi Hout. rewrite Hp2, Hp1 by assumption. reflexivity.
Qed.

Lemma put_rgb_redraws line x rgb s :
  0 <= line -> 0 <= x < 160 ->
  PPUInv.line_redrawn line s (PPU.put_rgb (line * GB_W * 3) x rgb s).
Proof.
  intros Hl Hx. destruct rgb as [[r g] b]. unfold PPU.put_rgb, GB_W.
  unfold PPUInv.line_redrawn, PPUInv.regs_eq. ppu_fields.
  repeat split; try reflexivity.
  - rewrite !length_setitem. reflexivity.
  - intros i Hi Hout. rewrite !byte_at_setitem_ne by lia. reflexivity.
Qed.

Lemma set_win_active_redraws line b s :
  PPUInv.line_redrawn line s (PPU.set_win_active b s).
Proof. unfold PPUInv.line_redrawn, PPUInv.regs_eq. ppu_fields. intuition. Qed.

Lemma range_bounds n x : In x (PPU.range n) -> 0 <= x < Z.of_nat n.
Proof.
  unfold PPU.range. rewrite in_map_iff. intros (k & <- & Hk).
  apply in_seq in Hk. lia.
Qed.

Lemma bg_pixel_redraws line tmap tdata signed win_y_ok s idx px s' idx' :
  0 <= line -> 0 <= px < 160 ->
  PPU.bg_pixel line (line * GB_W * 3) tmap tdata signed win_y_ok (s, idx) px = Some (s', idx') ->
  PPUInv.line_redrawn line s s'.
Proof.
  intros Hl Hpx. unfold PPU.bg_pixel. cbv zeta.
  set (s0 := if PPU.use_win s win_y_ok px then PPU.set_win_active true s else s).
  assert (H0 : PPUInv.line_redrawn line s s0).
  { subst s0. destruct (PPU.use_win s win_y_ok px);
      [apply set_win_active_redraws | apply line_redrawn_refl]. }
  destruct (_ && PPU._win_active s0).
  - destruct (getitem _ _); [|discriminate].
    destruct (_ || _); intros H; injection H as <- <-; [exact H0|].
    eapply line_redrawn_trans; [exact H0 | apply put_rgb_redraws; assumption].
  - destruct (_ || _); intros H; injection H as <- <-; [exact H0|].
    eapply line_redrawn_trans; [exact H0 | apply put_rgb_redraws; assumption].
Qed.

Lemma bg_loop_redraws line tmap tdata signed win_y_ok xs : forall s idx s' idx',
  0 <= line -> (forall x, In x xs -> 0 <= x < 160) ->
  PPU.for_each (PPU.bg_pixel line (line * GB_W * 3) tmap tdata signed win_y_ok) (s, idx) xs
    = Some (s', idx') ->
  PPUInv.line_redrawn line s s'.
Proof.
  induction xs as [|x xs IH]; intros s idx s' idx' Hl Hxs; cbn [PPU.for_each].
  - intros H. injection H as <- <-. apply line_redrawn_refl.
  - destruct (PPU.bg_pixel _ _ _ _ _ _ _ x) as [[s1 idx1]|] eqn:Hpx; [|discriminate].
    intros H. eapply line_redrawn_trans.
    + eapply bg_pixel_redraws; [exact Hl | apply Hxs; left; reflexivity | exact Hpx].
    + eapply IH; [exact Hl | intros y Hy; apply Hxs; right; exact Hy | exact H].
Qed.

Lemma sprite_pixel_redraws line ox lo hi pal fx prio idx s px :
  0 <= line ->
  PPUInv.line_redrawn line s (PPU.sprite_pixel (line * GB_W * 3) ox lo hi pal fx prio idx s px).
Proof.
  intros Hl. unfold PPU.sprite_pixel, GB_W. cbv zeta.
  destruct (Z.ltb_spec (ox + px) 0); [apply line_redrawn_refl|].
  destruct (Z.geb_spec (ox + px) 160); cbn [orb]; [apply line_redrawn_refl|].
  destruct (_ =? 0); [apply line_redrawn_refl|].
  destruct (_ && _); [apply line_redrawn_refl|].
  apply (put_rgb_redraws line (ox + px)); lia.
Qed.

Lemma fold_redraws {A : Type} line (f : PPU.t -> A -> PPU.t) xs :
  (forall s x, PPUInv.line_redrawn line s (f s x)) ->
  forall s, PPUInv.line_redrawn line s (fold_left f xs s).
Proof.
  intros Hf. induction xs as [|x xs IH]; intros s; cbn [fold_left].
  - apply line_redrawn_refl.
  - eapply line_redrawn_trans; [apply Hf | apply IH].
Qed.

Lemma draw_sprite_redraws line sh idx s sp :
  0 <= line ->
  PPUInv.line_redrawn line s (PPU.draw_sprite line (line * GB_W * 3) sh idx s sp).
Proof.
  intros Hl. destruct sp as [[[ox oy] ti] at_]. unfold PPU.draw_sprite. cbv zeta.
  destruct (_ >=? 0x2000); [apply line_redrawn_refl|].
  apply fold_redraws. intros s0 x. apply sprite_pixel_redraws. exact Hl.
Qed.

Lemma sprite_pass_redraws line idx s :
  0 <= line ->
  PPUInv.line_redrawn line s (PPU.sprite_pass line (line * GB_W * 3) idx s).
Proof.
  intros Hl. unfold PPU.sprite_pass. cbv zeta.
  apply fold_redraws. intros s0 sp. apply draw_sprite_redraws. exact Hl.
Qed.

Lemma render_redraws (s s' : PPU.t) :
  0 <= PPU.ly s ->
  PPU._render s = Some s' ->
  PPUInv.regs_eq s s' /\
  length (PPU.pixels s') = length (PPU.pixels s) /\
  (forall i, 0 <= i -> (i < PPU.ly s * 480 \/ PPU.ly s * 480 + 480 <= i) ->
     byte_at (PPU.pixels s') i = byte_at (PPU.pixels s) i) /\
  (PPU.win_line s' = PPU.win_line s \/ PPU.win_line s' = PPU.win_line s + 1).
Proof.
  intros Hly. unfold PPU._render. cbv zeta.
  destruct (PPU.ly s >=? GB_H).
  { intros H. injection H as <-. pose proof (line_redrawn_refl (PPU.ly s) s) as (? & ? & ? & ?).
    auto. }
  set (idx0 := replicate (Z.to_nat GB_W) 0).
  assert (Hbg : forall s1 idx1,
            (if truthy (Z.land (PPU.lcdc s) 1)
             then PPU.bg_pass (PPU.ly s) (PPU.ly s * GB_W * 3) s idx0
             else Some (s, idx0)) = Some (s1, idx1) ->
            PPUInv.regs_eq s s1 /\ length (PPU.pixels s1) = length (PPU.pixels s) /\
            (forall i, 0 <= i -> (i < PPU.ly s * 480 \/ PPU.ly s * 480 + 480 <= i) ->
               byte_at (PPU.pixels s1) i = byte_at (PPU.pixels s) i) /\
            (PPU.win_line s1 = PPU.win_line s \/ PPU.win_line s1 = PPU.win_line s + 1)).
  { intros s1 idx1. destruct (truthy (Z.land (PPU.lcdc s) 1)).
    - unfold PPU.bg_pass. cbv zeta.
      destruct (PPU.for_each _ _ _) as [[s2 idx2]|] eqn:Hloop; [|discriminate].
      apply bg_loop_redraws in Hloop; [|exact Hly|apply range_bounds].
      destruct Hloop as (Hr & Hw & Hl & Hp).
      destruct (_ && _); intros H; injection H as <- <-.
      + ppu_fields. split; [exact Hr|]. split; [exact Hl|]. split; [exact Hp|].
        right. rewrite Hw. reflexivity.
      + split; [exact Hr|]. split; [exact Hl|]. split; [exact Hp|]. left. exact Hw.
    - intros H. injection H as <- <-.
      pose proof (line_redrawn_refl (PPU.ly s) s) as (? & ? & ? & ?). auto. }
  destruct (if truthy (Z.land (PPU.lcdc s) 1) then _ else _) as [[s1 idx1]|]; [|discriminate].
  destruct (Hbg s1 idx1 eq_refl) as (Hr & Hl & Hp & Hw).
  intros H. injection H as <-.
  destruct (truthy (Z.land (PPU.lcdc s1) 2)); [|auto].
  assert (Hly1 : PPU.ly s1 = PPU.ly s) by apply Hr.
  pose proof (sprite_pass_redraws (PPU.ly s) idx1 s1 Hly) as (Hr2 & Hw2 & Hl2 & Hp2).
  split; [eapply regs_eq_trans; eassumption|].
  split; [congruence|].
  split; [intros i Hi Hout; rewrite Hp2, Hp by assumption; reflexivity|].
  rewrite Hw2. exact Hw.
Qed.

(** X9: rendering a scanline changes nothing but the 480 framebuffer bytes
    of that line, the window line counter (by 0 or 1) and the window
    latch: VRAM, OAM and every register are as before, the framebuffer
    keeps its length, and the bytes of every other line are untouched. *)
Theorem render_touches_only_its_line (s s' : PPU.t) :
  0 <= PPU.ly s ->
  PPU._render s = Some s' ->
  PPUInv.regs_eq s s' /\
  length (PPU.pixels s') = length (PPU.pixels s) /\
  (forall i, 0 <= i -> (i < PPU.ly s * 480 \/ PPU.ly s * 480 + 480 <= i) ->
     byte_at (PPU.pixels s') i = byte_at (PPU.pixels s) i) /\
  (PPU.win_line s' = PPU.win_line s \/ PPU.win_line s' = PPU.win_line s + 1).
Proof. apply render_redraws. Qed.

(** X9 on line 0 of the power-up PPU. *)
Lemma render_touches_only_its_line_witness :
  PPUInv.regs_eq PPU.init ppu_line0 /\
  length (PPU.pixels ppu_line0) = length (PPU.pixels PPU.init).
Proof.
  assert (H0 : 0 <= PPU.ly PPU.init) by (vm_compute; discriminate).
  assert (Hs : match PPU._render PPU.init with Some _ => true | None => false end = true)
    by (vm_compute; reflexivity).
  assert (H1 : PPU._render PPU.init = Some ppu_line0).
  { unfold ppu_line0. destruct (PPU._render PPU.init); [reflexivity | discriminate Hs]. }
  destruct (render_touches_only_its_line PPU.init ppu_line0 H0 H1) as (Hr & Hl & _).
  split; [exact Hr | exact Hl].
Defined.

Lemma scan_oam_bound s line sh idxs : forall acc,
  (length acc <= 9)%nat -> Forall (PPUInv.covers line sh) acc ->
  (length (PPU.scan_oam s line sh idxs acc) <= 10)%nat /\
  Forall (PPUInv.covers line sh) (PPU.scan_oam s line sh idxs acc).
Proof.
  induction idxs as [|i idxs IH]; intros acc Hlen Hcov; cbn [PPU.scan_oam].
  - split; [lia | exact Hcov].
  - cbv zeta.
    set (sp := (byte_at (PPU.oam s) (i * 4 + 1) - 8, byte_at (PPU.oam s) (i * 4) - 16,
                byte_at (PPU.oam s) (i * 4 + 2), byte_at (PPU.oam s) (i * 4 + 3))).
    destruct (Z.leb_spec (byte_at (PPU.oam s) (i * 4) - 16) line);
      destruct (Z.ltb_spec line (byte_at (PPU.oam s) (i * 4) - 16 + sh)); cbn [andb].
    2-4: (destruct (Z.eqb_spec (Z.of_nat (length acc)) 10); [lia | apply IH; assumption]).
    assert (Hcov' : Forall (PPUInv.covers line sh) (acc ++ [sp])).
    { apply Forall_app. split; [exact Hcov|]. constructor; [|constructor].
      subst sp. unfold PPUInv.covers. lia. }
    fold sp.
    destruct (Z.eqb_spec (Z.of_nat (length (acc ++ [sp]))) 10) as [He|Hne].
    + split; [lia | exact Hcov'].
    + rewrite length_app in Hne. cbn [length] in Hne.
      apply IH; [rewrite length_app; cbn [length]; lia | exact Hcov'].
Qed.

(** X10: the OAM scan of a line selects at most ten sprites, and every
    sprite it selects covers the line. *)
Theorem oam_scan_selects_at_most_ten (s : PPU.t) (line sh : Z) (idxs : list Z) :
  (length (PPU.scan_oam s line sh idxs []) <= 10)%nat /\
  Forall (PPUInv.covers line sh) (PPU.scan_oam s line sh idxs []).
Proof. apply scan_oam_bound; [cbn; lia | constructor]. Qed.

(** ** PPU: the mode machine *)

Lemma land_3_small m : 0 <= m <= 3 -> Z.land m 3 = m.
Proof.
  intros H. replace (Z.land m 3) with (m mod 4).
  - apply Z.mod_small. lia.
  - symmetry. apply (Z.land_ones m 2). lia.
Qed.

Lemma refresh_stat_mirrors s :
  0 <= PPU.mode s <= 3 ->
  Z.land (PPU.stat (PPU.refresh_stat s)) 3 = PPU.mode s /\
  Z.testbit (PPU.stat (PPU.refresh_stat s)) 2 = (PPU.ly s =? PPU.lyc s) /\
  PPU.mode (PPU.refresh_stat s) = PPU.mode s /\
  PPU.ly (PPU.refresh_stat s) = PPU.ly s /\
  PPU.lyc (PPU.refresh_stat s) = PPU.lyc s.
Proof.
  intros Hm. unfold PPU.refresh_stat. cbv zeta. ppu_fields.
  split; [|split; [|auto]].
  - rewrite Z.land_lor_distr_l, <- Z.land_assoc.
    change (Z.land (Z.lnot 4) 3) with 3.
    rewrite Z.land_lor_distr_l, <- Z.land_assoc. change (Z.land 252 3) with 0.
    rewrite Z.land_0_r, Z.lor_0_l, land_3_small by exact Hm.
    destruct (_ =? _); cbn; apply Z.lor_0_r.
  - rewrite Z.lor_spec, Z.land_spec.
    replace (Z.testbit (Z.lnot 4) 2) with false by reflexivity.
    rewrite andb_false_r. destruct (_ =? _); reflexivity.
Qed.

(** The body of [step] before the STAT refresh, by cases. *)
Lemma step_some s cyc vb st s' :
  PPU.step s cyc = Some (vb, st, s') ->
  truthy (Z.land (PPU.lcdc s) 0x80) = true ->
  exists s0, s' = PPU.refresh_stat s0 /\
    let c := PPU.cycles s + cyc in
    ((PPU.mode s = 2 /\ vb = false /\
      ((c >= 80 /\ s0 = PPU.set_mode 3 (PPU.set_cycles (c - 80) s)) \/
       (c < 80 /\ s0 = PPU.set_cycles c s))) \/
     (PPU.mode s = 3 /\ vb = false /\
      ((c >= 172 /\ exists r, PPU._render (PPU.set_cycles (c - 172) s) = Some r
                              /\ s0 = PPU.set_mode 0 r) \/
       (c < 172 /\ s0 = PPU.set_cycles c s))) \/
     (PPU.mode s = 0 /\
      ((c >= 204 /\ PPU.ly s + 1 = 144 /\ vb = true /\
        s0 = PPU.set_frame_ready true (PPU.set_win_active false (PPU.set_win_line 0
               (PPU.set_mode 1 (PPU.set_ly (PPU.ly s + 1) (PPU.set_cycles (c - 204) s)))))) \/
       (c >= 204 /\ PPU.ly s + 1 <> 144 /\ vb = false /\
        s0 = PPU.set_mode 2 (PPU.set_ly (PPU.ly s + 1) (PPU.set_cycles (c - 204) s))) \/
       (c < 204 /\ vb = false /\ s0 = PPU.set_cycles c s))) \/
     (PPU.mode s = 1 /\ vb = false /\
      ((c >= 456 /\ PPU.ly s + 1 > 153 /\
        s0 = PPU.set_mode 2 (PPU.set_ly 0 (PPU.set_ly (PPU.ly s + 1)
               (PPU.set_cycles (c - 456) s)))) \/
       (c >= 456 /\ PPU.ly s + 1 <= 153 /\
        s0 = PPU.set_ly (PPU.ly s + 1) (PPU.set_cycles (c - 456) s)) \/
       (c < 456 /\ s0 = PPU.set_cycles c s))) \/
     (PPU.mode s <> 2 /\ PPU.mode s <> 3 /\ PPU.mode s <> 0 /\ PPU.mode s <> 1 /\
      vb = false /\ s0 = PPU.set_cycles c s)).
Proof.
  intros Hstep Hon. unfold PPU.step in Hstep. rewrite Hon in Hstep. cbn [negb] in Hstep.
  cbv zeta in Hstep. ppu_fields_in Hstep.
  match type of Hstep with
  | match ?body with _ => _ end = _ => destruct body as [[[vb0 st0] s0]|] eqn:Hbody
  end; [|discriminate].
  injection Hstep as <- <- <-. exists s0. split; [reflexivity|].
  cbv zeta. revert Hbody.
  destruct (Z.eqb_spec (PPU.mode s) 2) as [H2|H2].
  { destruct (Z.geb_spec (PPU.cycles s + cyc) 80); intros Hb; injection Hb as <- <- <-;
      left; (split; [exact H2|]); (split; [reflexivity|]).
    - left. split; [lia | reflexivity].
    - right. split; [lia | reflexivity]. }
  destruct (Z.eqb_spec (PPU.mode s) 3) as [H3|H3].
  { destruct (Z.geb_spec (PPU.cycles s + cyc) 172).
    - destruct (PPU._render _) as [r|] eqn:Hr; [|discriminate].
      intros Hb; injection Hb as <- <- <-. right; left.
      split; [exact H3|]. split; [reflexivity|].
      left. split; [lia|]. exists r. split; reflexivity.
    - intros Hb; injection Hb as <- <- <-. right; left.
      split; [exact H3|]. split; [reflexivity|]. right. split; [lia | reflexivity]. }
  destruct (Z.eqb_spec (PPU.mode s) 0) as [H0|H0].
  { destruct (Z.geb_spec (PPU.cycles s + cyc) 204).
    - destruct (Z.eqb_spec (PPU.ly s + 1) 144); intros Hb; injection Hb as <- <- <-;
        right; right; left; (split; [exact H0|]).
      + left. split; [lia|]. split; [assumption|]. split; reflexivity.
      + right; left. split; [lia|]. split; [assumption|]. split; reflexivity.
    - intros Hb; injection Hb as <- <- <-. right; right; left. split; [exact H0|].
      right; right. split; [lia|]. split; reflexivity. }
  destruct (Z.eqb_spec (PPU.mode s) 1) as [H1|H1].
  { destruct (Z.geb_spec (PPU.cycles s + cyc) 456).
    - destruct (Z.gtb_spec (PPU.ly s + 1) 153); intros Hb; injection Hb as <- <- <-;
        right; right; right; left; (split; [exact H1|]); (split; [reflexivity|]).
      + left. split; [lia|]. split; [lia | reflexivity].
      + right; left. split; [lia|]. split; [lia | reflexivity].
    - intros Hb; injection Hb as <- <- <-. right; right; right; left.
      split; [exact H1|]. split; [reflexivity|].
      right; right. split; [lia | reflexivity]. }
  intros Hb; injection Hb as <- <- <-. right; right; right; right.
  repeat (split; [assumption|]). split; reflexivity.
Qed.

Lemma step_lcd_off s cyc :
  truthy (Z.land (PPU.lcdc s) 0x80) = false -> PPU.step s cyc = Some (false, false, s).
Proof. intros H. unfold PPU.step. rewrite H. reflexivity. Qed.

(** X11: after a step with the LCD on, the low two bits of STAT are the
    mode, bit 2 of STAT tells whether LY equals LYC, and the mode is still
    one of 0..3. *)
Theorem ppu_step_stat_mirrors (s : PPU.t) (cyc : Z) :
  truthy (Z.land (PPU.lcdc s) 0x80) = true ->
  0 <= PPU.mode s <= 3 ->
  match PPU.step s cyc with
  | Some (_, _, s') =>
      Z.land (PPU.stat s') 3 = PPU.mode s' /\
      Z.testbit (PPU.stat s') 2 = (PPU.ly s' =? PPU.lyc s') /\
      0 <= PPU.mode s' <= 3
  | None => True
  end.
Proof.
  intros Hon Hm. destruct (PPU.step s cyc) as [[[vb st] s']|] eqn:Hstep; [|exact I].
  destruct (step_some _ _ _ _ _ Hstep Hon) as (s0 & -> & Hcase). cbv zeta in Hcase.
  assert (Hm0 : 0 <= PPU.mode s0 <= 3).
  { destruct Hcase as [(_ & _ & [[_ ->] | [_ ->]])
                      | [(_ & _ & [(_ & r & _ & ->) | [_ ->]])
                      | [(_ & [(_ & _ & _ & ->) | [(_ & _ & _ & ->) | (_ & _ & ->)]])
                      | [(_ & _ & [(_ & _ & ->) | [(_ & _ & ->) | [_ ->]]])
                      | (? & ? & ? & ? & _ & ->)]]]]; ppu_fields; lia. }
  destruct (refresh_stat_mirrors s0 Hm0) as (H1 & H2 & H3 & H4 & H5).
  rewrite H3, H4, H5. auto.
Qed.

(** X11 on the first step after power-up. *)
Lemma ppu_step_stat_mirrors_witness :
  match PPU.step PPU.init 4 with
  | Some (_, _, s') =>
      Z.land (PPU.stat s') 3 = PPU.mode s' /\
      Z.testbit (PPU.stat s') 2 = (PPU.ly s' =? PPU.lyc s') /\
      0 <= PPU.mode s' <= 3
  | None => True
  end.
Proof.
  apply (ppu_step_stat_mirrors PPU.init 4).
  - reflexivity.
  - cbn. lia.
Defined.

Lemma refresh_stat_keeps s :
  PPU.ly (PPU.refresh_stat s) = PPU.ly s /\ PPU.mode (PPU.refresh_stat s) = PPU.mode s /\
  PPU.cycles (PPU.refresh_stat s) = PPU.cycles s /\
  PPU.frame_ready (PPU.refresh_stat s) = PPU.frame_ready s /\
  PPU.win_line (PPU.refresh_stat s) = PPU.win_line s /\
  PPU._win_active (PPU.refresh_stat s) = PPU._win_active s.
Proof. unfold PPU.refresh_stat. cbv zeta. ppu_fields. repeat split; reflexivity. Qed.

Lemma render_keeps_clock s r :
  0 <= PPU.ly s -> PPU._render s = Some r ->
  PPU.ly r = PPU.ly s /\ PPU.mode r = PPU.mode s /\ PPU.cycles r = PPU.cycles s.
Proof.
  intros Hly Hr. destruct (render_redraws s r Hly Hr) as (Hreg & _).
  unfold PPUInv.regs_eq in Hreg. intuition.
Qed.

Lemma ppu_step_ly_ok s cyc vb st s' :
  PPUInv.ly_ok s -> PPU.step s cyc = Some (vb, st, s') -> PPUInv.ly_ok s'.
Proof.
  intros Hok Hstep.
  destruct (truthy (Z.land (PPU.lcdc s) 0x80)) eqn:Hon.
  2:{ rewrite step_lcd_off in Hstep by exact Hon. injection Hstep as _ _ <-. exact Hok. }
  destruct (step_some _ _ _ _ _ Hstep Hon) as (s0 & -> & Hcase). cbv zeta in Hcase.
  unfold PPUInv.ly_ok in *.
  destruct (refresh_stat_keeps s0) as (-> & -> & _).
  destruct Hok as (Hly & Hok).
  destruct Hcase as [(Hm & _ & [[_ ->] | [_ ->]])
                    | [(Hm & _ & [(_ & r & Hr & ->) | [_ ->]])
                    | [(Hm & [(_ & ? & _ & ->) | [(_ & ? & _ & ->) | (_ & _ & ->)]])
                    | [(Hm & _ & [(_ & ? & ->) | [(_ & ? & ->) | [_ ->]]])
                    | (? & ? & ? & ? & _ & ->)]]]]; ppu_fields; try lia.
  apply render_keeps_clock in Hr; [|ppu_fields; lia].
  destruct Hr as (-> & _ & _). ppu_fields. lia.
Qed.

Lemma ppu_write_ly_ok s a v : PPUInv.ly_ok s -> PPUInv.ly_ok (PPU.write s a v).
Proof.
  intros Hok. unfold PPUInv.ly_ok in *. unfold PPU.write. cbv zeta.
  split_ifs; ppu_fields; try exact Hok; lia.
Qed.

(** X12: LY and the mode stay in step: LY is 0..143 outside VBlank and at
    most 153 in VBlank, after every PPU step and every register or memory
    write; so the LY register always reads 0..153. *)
Theorem ppu_ly_in_range (s : PPU.t) :
  PPUInv.ly_ok s ->
  (forall cyc, match PPU.step s cyc with
               | Some (_, _, s') => PPUInv.ly_ok s'
               | None => True
               end) /\
  (forall a v, PPUInv.ly_ok (PPU.write s a v)) /\
  0 <= PPU.read s 0xFF44 <= 153.
Proof.
  intros Hok. split; [|split].
  - intros cyc. destruct (PPU.step s cyc) as [[[vb st] s']|] eqn:Hstep; [|exact I].
    eapply ppu_step_ly_ok; eassumption.
  - intros a v. apply ppu_write_ly_ok, Hok.
  - change (PPU.read s 0xFF44) with (PPU.ly s). unfold PPUInv.ly_ok in Hok. lia.
Qed.

(** X12 at power-up. *)
Lemma ppu_ly_in_range_witness :
  (forall cyc, match PPU.step PPU.init cyc with
               | Some (_, _, s') => PPUInv.ly_ok s'
               | None => True
               end) /\
  (forall a v, PPUInv.ly_ok (PPU.write PPU.init a v)) /\
  0 <= PPU.read PPU.init 0xFF44 <= 153.
Proof.
  apply (ppu_ly_in_range PPU.init).
  unfold PPUInv.ly_ok. cbn. lia.
Defined.

(** The mode machine makes at most one transition per step: a step of
    1000 cycles from power-up leaves the PPU on line 0 in mode 3 with 920
    cycles banked, though more than two lines' worth of cycles went
    by. *)
Lemma ppu_long_step_falls_behind :
  match PPU.step PPU.init 1000 with
  | Some (_, _, s') => PPU.ly s' = 0 /\ PPU.mode s' = 3 /\ PPU.cycles s' = 920
  | None => False
  end.
Proof. vm_compute. repeat split; reflexivity. Qed.

(** X13: with the LCD on and no transition overdue (the cycle counter
    within the slot of the current mode), a step of at most 80 cycles
    leaves no transition overdue and moves the PPU's position in the
    frame (line, mode slot and cycles into it) forward by exactly
    [cyc], modulo the 70 224 cycles of a frame: line and mode keep up with
    the cycles fed.  Longer steps are not covered
    ([ppu_long_step_falls_behind]). *)
Theorem ppu_clock_advances_exactly (s : PPU.t) (cyc : Z) :
  PPUInv.ly_ok s -> PPUInv.in_mode s ->
  truthy (Z.land (PPU.lcdc s) 0x80) = true ->
  0 <= cyc <= 80 ->
  match PPU.step s cyc with
  | Some (_, _, s') =>
      PPUInv.in_mode s' /\
      PPUInv.clock s' = (PPUInv.clock s + cyc) mod 70224
  | None => True
  end.
Proof.
  intros Hok Hin Hon Hcyc.
  destruct (PPU.step s cyc) as [[[vb st] s']|] eqn:Hstep; [|exact I].
  destruct (step_some _ _ _ _ _ Hstep Hon) as (s0 & -> & Hcase). cbv zeta in Hcase.
  unfold PPUInv.in_mode, PPUInv.mode_len, PPUInv.clock in *.
  destruct (refresh_stat_keeps s0) as (-> & -> & -> & _).
  destruct Hok as (Hly & Hok).
  destruct Hcase as [(Hm & _ & [[Hc ->] | [Hc ->]])
                    | [(Hm & _ & [(Hc & r & Hr & ->) | [Hc ->]])
                    | [(Hm & [(Hc & Hl & _ & ->) | [(Hc & Hl & _ & ->) | (Hc & _ & ->)]])
                    | [(Hm & _ & [(Hc & Hl & ->) | [(Hc & Hl & ->) | [Hc ->]]])
                    | (? & ? & ? & ? & _ & ->)]]]]; ppu_fields;
    try (apply render_keeps_clock in Hr; [|ppu_fields; lia];
         destruct Hr as (-> & _ & ->); ppu_fields);
    try (rewrite Hm in *; cbn [Z.eqb Pos.eqb] in *; split; euclid).
  all: lia.
Qed.

(** X13 on the first step after power-up. *)
Lemma ppu_clock_advances_exactly_witness :
  match PPU.step PPU.init 4 with
  | Some (_, _, s') =>
      PPUInv.in_mode s' /\
      PPUInv.clock s' = (PPUInv.clock PPU.init + 4) mod 70224
  | None => True
  end.
Proof.
  apply (ppu_clock_advances_exactly PPU.init 4).
  - unfold PPUInv.ly_ok. cbn. lia.
  - unfold PPUInv.in_mode. cbn. lia.
  - reflexivity.
  - lia.
Defined.

(** X14: with the LCD on, a step requests VBlank exactly when it ends the
    HBlank of line 143; that step sets LY = 144 and mode 1, latches
    [frame_ready] and resets the window line counter and latch. *)
Theorem ppu_vblank_at_line_144 (s : PPU.t) (cyc : Z) :
  truthy (Z.land (PPU.lcdc s) 0x80) = true ->
  match PPU.step s cyc with
  | Some (vb, _, s') =>
      (vb = true <-> PPU.mode s = 0 /\ PPU.ly s = 143 /\ PPU.cycles s + cyc >= 204) /\
      (vb = true ->
       PPU.ly s' = 144 /\ PPU.mode s' = 1 /\ PPU.frame_ready s' = true /\
       PPU.win_line s' = 0 /\ PPU._win_active s' = false)
  | None => True
  end.
Proof.
  intros Hon. destruct (PPU.step s cyc) as [[[vb st] s']|] eqn:Hstep; [|exact I].
  destruct (step_some _ _ _ _ _ Hstep Hon) as (s0 & -> & Hcase). cbv zeta in Hcase.
  destruct (refresh_stat_keeps s0) as (-> & -> & _ & -> & -> & ->).
  destruct Hcase as [(Hm & -> & _)
                    | [(Hm & -> & _)
                    | [(Hm & [(? & ? & -> & ->) | [(? & ? & -> & _) | (? & -> & _)]])
                    | [(Hm & -> & _)
                    | (? & ? & ? & ? & -> & _)]]]];
    ppu_fields; (split; [split; [discriminate || (intros _; repeat split; lia) | try lia] | try discriminate]).
  all: try (intros (? & ? & ?); lia).
  intros _. repeat split; lia.
Qed.

(** X14 at the end of the HBlank of line 143. *)
Lemma ppu_vblank_at_line_144_witness :
  match PPU.step ppu_last_hblank 4 with
  | Some (vb, _, s') =>
      (vb = true <-> PPU.mode ppu_last_hblank = 0 /\ PPU.ly ppu_last_hblank = 143
                     /\ PPU.cycles ppu_last_hblank + 4 >= 204) /\
      (vb = true ->
       PPU.ly s' = 144 /\ PPU.mode s' = 1 /\ PPU.frame_ready s' = true /\
       PPU.win_line s' = 0 /\ PPU._win_active s' = false)
  | None => True
  end.
Proof.
  apply (ppu_vblank_at_line_144 ppu_last_hblank 4). reflexivity.
Defined.

(** ** Bus *)

Ltac cmp_cases :=
  repeat match goal with
  | |- context [?a <? ?b] => destruct (Z.ltb_spec a b); try lia
  | |- context [?a <=? ?b] => destruct (Z.leb_spec a b); try lia
  | |- context [?a =? ?b] => destruct (Z.eqb_spec a b); try lia
  end; cbn [andb orb negb].

Lemma land_ffff_small a : 0 <= a < 65536 -> Z.land a 0xFFFF = a.
Proof. intros H. rewrite land_16. apply Z.mod_small. exact H. Qed.

Lemma echo_read m k :
  0 <= k < 0x1E00 -> MMU.rb m (0xE000 + k) = MMU.rb m (0xC000 + k).
Proof.
  intros Hk. unfold MMU.rb. cbv zeta. rewrite !land_ffff_small by lia.
  cmp_cases. f_equal. lia.
Qed.

Lemma echo_write m k v :
  0 <= k < 0x1E00 -> MMU.wb m (0xE000 + k) v = MMU.wb m (0xC000 + k) v.
Proof.
  intros Hk. unfold MMU.wb. cbv zeta. rewrite !land_ffff_small by lia.
  cmp_cases. do 2 f_equal. lia.
Qed.

(** X15: the echo region mirrors work RAM: for every offset below 0x1E00 a
    read at [0xE000 + k] gives what a read at [0xC000 + k] gives, and a
    write to one leaves the bus in the same state as a write to the
    other. *)
Theorem echo_mirrors_wram (m : MMU.t) (k v : Z) :
  0 <= k < 0x1E00 ->
  MMU.rb m (0xE000 + k) = MMU.rb m (0xC000 + k) /\
  MMU.wb m (0xE000 + k) v = MMU.wb m (0xC000 + k) v.
Proof. intros Hk. split; [apply echo_read | apply echo_write]; exact Hk. Qed.

(** X15 at offset 0x1DFF of a fresh bus. *)
Lemma echo_mirrors_wram_witness :
  MMU.rb (bus0 []) (0xE000 + 0x1DFF) = MMU.rb (bus0 []) (0xC000 + 0x1DFF) /\
  MMU.wb (bus0 []) (0xE000 + 0x1DFF) 7 = MMU.wb (bus0 []) (0xC000 + 0x1DFF) 7.
Proof. apply (echo_mirrors_wram (bus0 []) 0x1DFF 7). lia. Defined.

Ltac mmu_fields' :=
  cbn [MMU.cart MMU.ppu MMU.timer MMU.joy MMU.wram MMU.hram MMU.IE MMU.IF_ MMU._sb MMU._sc
       MMU.set_cart MMU.set_ppu MMU.set_timer MMU.set_joy MMU.set_wram MMU.set_hram
       MMU.set_IE MMU.set_IF_ MMU.set_sb MMU.set_sc].

Lemma wb_wram m a v :
  0xC000 <= a < 0xE000 ->
  MMU.wb m a v = MMU.set_wram (setitem (MMU.wram m) (a - 0xC000) (Z.land v 0xFF)) m.
Proof.
  intros Ha. unfold MMU.wb. cbv zeta. rewrite land_ffff_small by lia. cmp_cases. reflexivity.
Qed.

Lemma wb_hram m a v :
  0xFF80 <= a < 0xFFFF ->
  MMU.wb m a v = MMU.set_hram (setitem (MMU.hram m) (a - 0xFF80) (Z.land v 0xFF)) m.
Proof.
  intros Ha. unfold MMU.wb. cbv zeta. rewrite land_ffff_small by lia. cmp_cases. reflexivity.
Qed.

Lemma ram_write_read_aux (m : MMU.t) (a v : Z) :
  MMUInv.sized m ->
  0xC000 <= a < 0xE000 \/ 0xFF80 <= a < 0xFFFF ->
  MMU.rb (MMU.wb m a v) a = Z.land v 0xFF /\
  (forall b, 0 <= b < 65536 -> b <> a -> b <> a + 0x2000 ->
     MMU.rb (MMU.wb m a v) b = MMU.rb m b).
Proof.
  intros (Hw & Hh & _ & _) [Ha | Ha].
  - rewrite wb_wram by exact Ha. split.
    + unfold MMU.rb. cbv zeta. rewrite land_ffff_small by lia. cmp_cases. mmu_fields'.
      apply byte_at_setitem_eq. rewrite Hw. lia.
    + intros b Hb Hne Hne2. unfold MMU.rb. cbv zeta. rewrite land_ffff_small by lia.
      mmu_fields'. cmp_cases; try reflexivity; apply byte_at_setitem_ne; lia.
  - rewrite wb_hram by exact Ha. split.
    + unfold MMU.rb. cbv zeta. rewrite land_ffff_small by lia. cmp_cases. mmu_fields'.
      apply byte_at_setitem_eq. rewrite Hh. lia.
    + intros b Hb Hne Hne2. unfold MMU.rb. cbv zeta. rewrite land_ffff_small by lia.
      mmu_fields'. cmp_cases; try reflexivity; apply byte_at_setitem_ne; lia.
Qed.

(** X16: a byte written to work RAM or high RAM is read back from the
    same address, masked to 8 bits, and the write changes what the bus
    reads at no other address, except the echo of a work-RAM cell. *)
Theorem ram_write_read (m : MMU.t) (a v : Z) :
  MMUInv.sized m ->
  0xC000 <= a < 0xE000 \/ 0xFF80 <= a < 0xFFFF ->
  MMU.rb (MMU.wb m a v) a = Z.land v 0xFF /\
  (forall b, 0 <= b < 65536 -> b <> a -> b <> a + 0x2000 ->
     MMU.rb (MMU.wb m a v) b = MMU.rb m b).
Proof. apply ram_write_read_aux. Qed.

Lemma bus0_sized data : MMUInv.sized (bus0 data).
Proof.
  unfold MMUInv.sized, bus0, MMU.init, PPU.init, bytearray. mmu_fields'. ppu_fields.
  rewrite !length_replicate. repeat split; reflexivity.
Qed.

(** X16 on a fresh bus, at the top of the stack area. *)
Lemma ram_write_read_witness :
  MMU.rb (MMU.wb (bus0 []) 0xFFFD 0x1234) 0xFFFD = Z.land 0x1234 0xFF /\
  (forall b, 0 <= b < 65536 -> b <> 0xFFFD -> b <> 0xFFFD + 0x2000 ->
     MMU.rb (MMU.wb (bus0 []) 0xFFFD 0x1234) b = MMU.rb (bus0 []) b).
Proof.
  apply (ram_write_read (bus0 []) 0xFFFD 0x1234); [apply bus0_sized | right; lia].
Defined.

(** X17: addresses that no device answers read [0xFF], and a write to one
    of them leaves the whole bus as it was. *)
Theorem unmapped_reads_ff_and_ignores_writes (m : MMU.t) (a v : Z) :
  MMUInv.unmapped a ->
  MMU.rb m a = 0xFF /\ MMU.wb m a v = m.
Proof.
  unfold MMUInv.unmapped. intros Ha.
  assert (Hr : 0 <= a < 65536) by lia.
  unfold MMU.rb, MMU.wb. cbv zeta. rewrite !land_ffff_small by exact Hr.
  split; cmp_cases; try reflexivity.
  all: unfold PPU.read; cbv zeta; cmp_cases; reflexivity.
Qed.

(** X17 on the sound register [0xFF26]. *)
Lemma unmapped_reads_ff_and_ignores_writes_witness :
  MMU.rb (bus0 []) 0xFF26 = 0xFF /\ MMU.wb (bus0 []) 0xFF26 0x80 = bus0 [].
Proof.
  apply (unmapped_reads_ff_and_ignores_writes (bus0 []) 0xFF26 0x80).
  unfold MMUInv.unmapped. lia.
Defined.

Lemma land_lor_absorb x e : Z.land (Z.lor x e) e = e.
Proof.
  apply Z.bits_inj'. intros i Hi. rewrite Z.land_spec, Z.lor_spec.
  destruct (Z.testbit x i), (Z.testbit e i); reflexivity.
Qed.

(** X18: the interrupt flag register reads with its three upper bits set
    whatever it holds; after a write it reads the low five bits written,
    with those upper bits set; the interrupt enable register reads back
    the byte written. *)
Theorem interrupt_registers_read_back (m : MMU.t) (v : Z) :
  Z.land (MMU.rb m 0xFF0F) 0xE0 = 0xE0 /\
  MMU.rb (MMU.wb m 0xFF0F v) 0xFF0F = Z.lor (Z.land v 0x1F) 0xE0 /\
  MMU.rb (MMU.wb m 0xFFFF v) 0xFFFF = Z.land v 0xFF.
Proof.
  split; [|split].
  - change (MMU.rb m 0xFF0F) with (Z.lor (MMU.IF_ m) 0xE0). apply land_lor_absorb.
  - change (MMU.rb (MMU.wb m 0xFF0F v) 0xFF0F)
      with (Z.lor (Z.land (Z.land v 0xFF) 0x1F) 0xE0).
    rewrite <- Z.land_assoc. reflexivity.
  - reflexivity.
Qed.

(** *** OAM DMA *)

Lemma rb_oam_indep m o a :
  (0xFE00 <= Z.land a 0xFFFF < 0xFEA0 ->
   byte_at o (Z.land a 0xFFFF - 0xFE00)
     = byte_at (PPU.oam (MMU.ppu m)) (Z.land a 0xFFFF - 0xFE00)) ->
  MMU.rb (MMU.set_ppu (PPU.set_oam o (MMU.ppu m)) m) a = MMU.rb m a.
Proof.
  intros Ho. unfold MMU.rb. cbv zeta. mmu_fields'.
  generalize dependent (Z.land a 0xFFFF). intros a' Ho.
  unfold PPU.read. ppu_fields.
  cmp_cases; try reflexivity; apply Ho; lia.
Qed.

Lemma range_S n : PPU.range (S n) = PPU.range n ++ [Z.of_nat n].
Proof. unfold PPU.range. rewrite seq_S, map_app. reflexivity. Qed.

Lemma dma_prefix m src : 
  (exists hi, 0 <= hi < 256 /\ src = 256 * hi) ->
  length (PPU.oam (MMU.ppu m)) = Z.to_nat 0xA0 ->
  forall n, (n <= 160)%nat ->
  exists o,
    fold_left (MMU.dma_byte src) (PPU.range n) m
      = MMU.set_ppu (PPU.set_oam o (MMU.ppu m)) m /\
    length o = Z.to_nat 0xA0 /\
    (forall k, 0 <= k < Z.of_nat n -> byte_at o k = MMU.rb m (src + k)) /\
    (forall k, Z.of_nat n <= k -> byte_at o k = byte_at (PPU.oam (MMU.ppu m)) k).
Proof.
  intros (hi & Hhi & ->) Hlen. induction n as [|n IH]; intros Hn.
  - exists (PPU.oam (MMU.ppu m)). cbn [PPU.range seq map fold_left].
    split; [destruct m as [? p ? ? ? ? ? ? ? ?]; destruct p; reflexivity|].
    split; [exact Hlen|]. split; [intros k Hk; lia | reflexivity].
  - destruct (IH ltac:(lia)) as (o & Hfold & Hlo & Hlow & Hhigh).
    rewrite range_S, fold_left_app, Hfold. cbn [fold_left].
    unfold MMU.dma_byte at 1. mmu_fields'. ppu_fields.
    assert (Hrb : MMU.rb (MMU.set_ppu (PPU.set_oam o (MMU.ppu m)) m) (256 * hi + Z.of_nat n)
                  = MMU.rb m (256 * hi + Z.of_nat n)).
    { apply rb_oam_indep. rewrite land_ffff_small by lia. intros Hr.
      apply Hhigh. lia. }
    rewrite Hrb.
    exists (setitem o (Z.of_nat n) (MMU.rb m (256 * hi + Z.of_nat n))).
    split; [reflexivity|]. split; [rewrite length_setitem; exact Hlo|]. split.
    + intros k Hk. destruct (Z.eq_dec k (Z.of_nat n)) as [->|Hne].
      * apply byte_at_setitem_eq. rewrite Hlo. lia.
      * rewrite byte_at_setitem_ne by lia. apply Hlow. lia.
    + intros k Hk. rewrite byte_at_setitem_ne by lia. apply Hhigh. lia.
Qed.

Lemma wb_dma m v :
  MMU.wb m 0xFF46 v
  = fold_left (MMU.dma_byte (Z.shiftl (Z.land v 0xFF) 8)) (PPU.range 0xA0) m.
Proof. reflexivity. Qed.

(** X19: a write of [v] to [0xFF46] fills the 160 bytes of OAM with what
    the bus read at [(v & 0xFF) * 256 + k] before the transfer, for every
    source page (also when the source is OAM itself or the I/O page), and
    changes nothing else on the bus. *)
Theorem oam_dma_copies_source_page (m : MMU.t) (v : Z) :
  length (PPU.oam (MMU.ppu m)) = Z.to_nat 0xA0 ->
  exists o,
    MMU.wb m 0xFF46 v = MMU.set_ppu (PPU.set_oam o (MMU.ppu m)) m /\
    length o = Z.to_nat 0xA0 /\
    forall k, 0 <= k < 0xA0 -> byte_at o k = MMU.rb m (Z.land v 0xFF * 256 + k).
Proof.
  intros Hlen. rewrite wb_dma.
  destruct (dma_prefix m (Z.shiftl (Z.land v 0xFF) 8)) with (n := 160%nat)
    as (o & Hfold & Hlo & Hlow & _).
  - exists (Z.land v 0xFF). split; [apply land_ff_byte|].
    rewrite Z.shiftl_mul_pow2 by lia. change (2 ^ 8) with 256. lia.
  - exact Hlen.
  - lia.
  - exists o. split; [exact Hfold|]. split; [exact Hlo|].
    intros k Hk. rewrite Hlow by lia. f_equal.
    rewrite Z.shiftl_mul_pow2 by lia. reflexivity.
Qed.

(** X19 on a fresh bus, copying from page [0xC0]. *)
Lemma oam_dma_copies_source_page_witness :
  exists o,
    MMU.wb (bus0 []) 0xFF46 0xC0 = MMU.set_ppu (PPU.set_oam o (MMU.ppu (bus0 []))) (bus0 []) /\
    length o = Z.to_nat 0xA0 /\
    forall k, 0 <= k < 0xA0 -> byte_at o k = MMU.rb (bus0 []) (Z.land 0xC0 0xFF * 256 + k).
Proof.
  apply (oam_dma_copies_source_page (bus0 []) 0xC0). apply bus0_sized.
Defined.

(** *** 16-bit accesses *)

Lemma land_ff_idem x : Z.land (Z.land x 0xFF) 0xFF = Z.land x 0xFF.
Proof. rewrite <- Z.land_assoc. reflexivity. Qed.

Lemma word_split v :
  Z.lor (Z.land v 0xFF) (Z.shiftl (Z.land (Z.shiftr v 8) 0xFF) 8) = Z.land v 0xFFFF.
Proof.
  apply Z.bits_inj'. intros i Hi.
  rewrite Z.lor_spec, !Z.land_spec.
  change 0xFF with (Z.ones 8). change 0xFFFF with (Z.ones 16).
  destruct (Z.ltb_spec i 8).
  - rewrite Z.shiftl_spec_low by lia. rewrite !Z.ones_spec_low by lia.
    rewrite orb_false_r. reflexivity.
  - rewrite Z.shiftl_spec by lia. rewrite Z.land_spec, Z.shiftr_spec by lia.
    rewrite (Z.ones_spec_high 8 i) by lia. rewrite andb_false_r, orb_false_l.
    replace (i - 8 + 8) with i by lia.
    destruct (Z.ltb_spec i 16).
    + rewrite !Z.ones_spec_low by lia. reflexivity.
    + rewrite !Z.ones_spec_high by lia. reflexivity.
Qed.

(** RAM the stack and program data can live in: work RAM and high RAM. *)
Lemma ram_word_round_trip m a v :
  MMUInv.sized m ->
  0xC000 <= a < 0xDFFF \/ 0xFF80 <= a < 0xFFFE ->
  MMU.rb (MMU.ww m a v) a = Z.land v 0xFF /\
  MMU.rb (MMU.ww m a v) (a + 1) = Z.land (Z.shiftr v 8) 0xFF /\
  MMU.rw (MMU.ww m a v) a = Z.land v 0xFFFF.
Proof.
  intros Hs Ha.
  assert (Hs1 : MMUInv.sized (MMU.wb m a (Z.land v 0xFF))).
  { destruct Hs as (Hw & Hh & Hv & Ho). unfold MMUInv.sized.
    destruct Ha as [Ha | Ha]; [rewrite wb_wram by lia | rewrite wb_hram by lia];
      mmu_fields'; rewrite ?length_setitem; auto. }
  assert (H1 : Z.land (a + 1) 0xFFFF = a + 1) by (apply land_ffff_small; lia).
  unfold MMU.rw, MMU.ww. rewrite H1.
  assert (Hlo : MMU.rb (MMU.wb (MMU.wb m a (Z.land v 0xFF)) (a + 1)
                          (Z.land (Z.shiftr v 8) 0xFF)) a = Z.land v 0xFF).
  { destruct (ram_write_read_aux (MMU.wb m a (Z.land v 0xFF)) (a + 1)
                (Z.land (Z.shiftr v 8) 0xFF) Hs1 ltac:(lia)) as [_ Hf].
    rewrite Hf by lia.
    destruct (ram_write_read_aux m a (Z.land v 0xFF) Hs ltac:(lia)) as [-> _].
    apply land_ff_idem. }
  assert (Hhi : MMU.rb (MMU.wb (MMU.wb m a (Z.land v 0xFF)) (a + 1)
                          (Z.land (Z.shiftr v 8) 0xFF)) (a + 1)
                = Z.land (Z.shiftr v 8) 0xFF).
  { destruct (ram_write_read_aux (MMU.wb m a (Z.land v 0xFF)) (a + 1)
                (Z.land (Z.shiftr v 8) 0xFF) Hs1 ltac:(lia)) as [-> _].
    apply land_ff_idem. }
  rewrite Hlo, Hhi. split; [reflexivity|]. split; [reflexivity|]. apply word_split.
Qed.

(** X20: a 16-bit store to work RAM or high RAM is little-endian: the low
    byte is read back at the address, the high byte at the next one, and a
    16-bit load from the address gives the value stored, masked to 16
    bits. *)
Theorem word_store_load_round_trip (m : MMU.t) (a v : Z) :
  MMUInv.sized m ->
  0xC000 <= a < 0xDFFF \/ 0xFF80 <= a < 0xFFFE ->
  MMU.rb (MMU.ww m a v) a = Z.land v 0xFF /\
  MMU.rb (MMU.ww m a v) (a + 1) = Z.land (Z.shiftr v 8) 0xFF /\
  MMU.rw (MMU.ww m a v) a = Z.land v 0xFFFF.
Proof. apply ram_word_round_trip. Qed.

(** X20 on a fresh bus, at [0xFFFC]. *)
Lemma word_store_load_round_trip_witness :
  MMU.rb (MMU.ww (bus0 []) 0xFFFC 0xBEEF) 0xFFFC = Z.land 0xBEEF 0xFF /\
  MMU.rb (MMU.ww (bus0 []) 0xFFFC 0xBEEF) (0xFFFC + 1) = Z.land (Z.shiftr 0xBEEF 8) 0xFF /\
  MMU.rw (MMU.ww (bus0 []) 0xFFFC 0xBEEF) 0xFFFC = Z.land 0xBEEF 0xFFFF.
Proof.
  apply (word_store_load_round_trip (bus0 []) 0xFFFC 0xBEEF); [apply bus0_sized | right; lia].
Defined.

(** ** CPU: stack, ALU and displacement helpers *)

Ltac run_cpu :=
  cbv beta iota zeta delta
    [CPU.bind CPU.modify CPU.get CPU.ret CPU._sf CPU._push CPU._pop CPU._call CPU._ret
     CPU.ww CPU.rw CPU.wb CPU.rb CPU._add CPU._sub CPU._cp CPU._jr CPU._sp_add
     CPU._bit CPU._swap CPU._rl CPU._rr CPU._zf CPU._nf CPU._hf CPU._cf fst snd];
  cpu_fields.

Lemma push_then_pop s v :
  MMUInv.sized (CPU.mmu s) -> CPUInv.stack_ram (CPU.sp s) ->
  fst (CPU.bind (CPU._push v) (fun _ => CPU._pop) s) = Z.land v 0xFFFF /\
  CPU.sp (snd (CPU.bind (CPU._push v) (fun _ => CPU._pop) s)) = CPU.sp s.
Proof.
  unfold CPUInv.stack_ram. intros Hs Hsp. run_cpu.
  rewrite (land_ffff_small (CPU.sp s - 2)) by lia.
  split.
  - apply ram_word_round_trip; [exact Hs | lia].
  - replace (CPU.sp s - 2 + 2) with (CPU.sp s) by lia. apply land_ffff_small. lia.
Qed.

(** X21: with the stack in work RAM or high RAM, POP after PUSH returns
    the value pushed (masked to 16 bits) and restores SP; RET after CALL
    returns to the caller's PC and restores SP. *)
Theorem stack_round_trip (s : CPU.t) (v addr : Z) :
  MMUInv.sized (CPU.mmu s) -> CPUInv.stack_ram (CPU.sp s) ->
  fst (CPU.bind (CPU._push v) (fun _ => CPU._pop) s) = Z.land v 0xFFFF /\
  CPU.sp (snd (CPU.bind (CPU._push v) (fun _ => CPU._pop) s)) = CPU.sp s /\
  CPU.pc (snd (CPU.bind (CPU._call addr) (fun _ => CPU._ret) s)) = Z.land (CPU.pc s) 0xFFFF /\
  CPU.sp (snd (CPU.bind (CPU._call addr) (fun _ => CPU._ret) s)) = CPU.sp s.
Proof.
  intros Hs Hsp.
  destruct (push_then_pop s v Hs Hsp) as [H1 H2].
  destruct (push_then_pop s (Z.land (CPU.pc s) 0xFFFF) Hs Hsp) as [H3 H4].
  split; [exact H1|]. split; [exact H2|].
  revert H3 H4. run_cpu. intros H3 H4. rewrite land_16_idem in H3. split; assumption.
Qed.

(** X21 at the reset state, whose SP is [0xFFFE]. *)
Lemma stack_round_trip_witness :
  let s := CPU.init (bus0 []) in
  fst (CPU.bind (CPU._push 0x1234) (fun _ => CPU._pop) s) = Z.land 0x1234 0xFFFF /\
  CPU.sp (snd (CPU.bind (CPU._push 0x1234) (fun _ => CPU._pop) s)) = CPU.sp s /\
  CPU.pc (snd (CPU.bind (CPU._call 0x4000) (fun _ => CPU._ret) s)) = Z.land (CPU.pc s) 0xFFFF /\
  CPU.sp (snd (CPU.bind (CPU._call 0x4000) (fun _ => CPU._ret) s)) = CPU.sp s.
Proof.
  intros s. apply (stack_round_trip s 0x1234 0x4000).
  - apply bus0_sized.
  - right. cbn. lia.
Defined.

Lemma flag_byte_bits zv nv hv cv :
  truthy (Z.land (CPU.flag_byte zv nv hv cv) 0x80) = zv /\
  truthy (Z.land (CPU.flag_byte zv nv hv cv) 0x40) = nv /\
  truthy (Z.land (CPU.flag_byte zv nv hv cv) 0x20) = hv /\
  truthy (Z.land (CPU.flag_byte zv nv hv cv) 0x10) = cv.
Proof. destruct zv, nv, hv, cv; repeat split; reflexivity. Qed.

Ltac read_flags :=
  repeat match goal with
  | |- context [truthy (Z.land (CPU.flag_byte ?z ?n ?h ?c) 0x80)] =>
      rewrite (proj1 (flag_byte_bits z n h c))
  | |- context [truthy (Z.land (CPU.flag_byte ?z ?n ?h ?c) 0x40)] =>
      rewrite (proj1 (proj2 (flag_byte_bits z n h c)))
  | |- context [truthy (Z.land (CPU.flag_byte ?z ?n ?h ?c) 0x20)] =>
      rewrite (proj1 (proj2 (proj2 (flag_byte_bits z n h c))))
  | |- context [truthy (Z.land (CPU.flag_byte ?z ?n ?h ?c) 0x10)] =>
      rewrite (proj2 (proj2 (proj2 (flag_byte_bits z n h c))))
  end.

Lemma gtb_b2z x k : Z.b2z (x >? k) = if Z.ltb k x then 1 else 0.
Proof. rewrite Z.gtb_ltb. destruct (k <? x); reflexivity. Qed.

(** X22: the 8-bit adder and subtractor are exact: for byte operands and a
    carry-in of 0 or 1, [A' + 256 * C = A + v + carry] after ADD/ADC and
    [A' - 256 * C = A - v - carry] after SUB/SBC, with A' a byte, Z set
    exactly when A' is 0 and N telling the two apart; SUB undoes ADD; and
    CP leaves A alone while setting Z exactly when [A = v] and C exactly
    when [A < v]. *)
Theorem alu_add_sub_exact (s : CPU.t) (v cin : Z) :
  byte (CPU.a s) -> byte v -> 0 <= cin <= 1 ->
  let s1 := snd (CPU._add v cin s) in
  let s2 := snd (CPU._sub v cin s) in
  let s3 := snd (CPU._cp v s) in
  (byte (CPU.a s1) /\ CPU.a s1 + 256 * Z.b2z (CPU._cf s1) = CPU.a s + v + cin /\
   CPU._zf s1 = (CPU.a s1 =? 0) /\ CPU._nf s1 = false) /\
  (byte (CPU.a s2) /\ CPU.a s2 - 256 * Z.b2z (CPU._cf s2) = CPU.a s - v - cin /\
   CPU._zf s2 = (CPU.a s2 =? 0) /\ CPU._nf s2 = true) /\
  CPU.a (snd (CPU._sub v cin s1)) = CPU.a s /\
  (CPU.a s3 = CPU.a s /\ CPU._zf s3 = (CPU.a s =? v) /\ CPU._cf s3 = (CPU.a s <? v) /\
   CPU._nf s3 = true).
Proof.
  unfold byte. intros Ha Hv Hc. run_cpu. read_flags. rewrite !land_ff.
  split; [|split; [|split]].
  - split; [euclid|]. split; [|split; reflexivity].
    rewrite Z.gtb_ltb. destruct (Z.ltb_spec 255 (CPU.a s + v + cin)); cbn [Z.b2z]; euclid.
  - split; [euclid|]. split; [|split; reflexivity].
    destruct (Z.ltb_spec (CPU.a s - v - cin) 0); cbn [Z.b2z]; euclid.
  - euclid.
  - split; [reflexivity|]. split; [|split; [|reflexivity]].
    + destruct (Z.eqb_spec (CPU.a s) v), (Z.eqb_spec ((CPU.a s - v) mod 256) 0);
        try reflexivity; exfalso; euclid.
    + destruct (Z.ltb_spec (CPU.a s - v) 0), (Z.ltb_spec (CPU.a s) v);
        try reflexivity; lia.
Qed.

(** X22 at the reset state (A = 1), adding [0xFF] with carry-in 1. *)
Lemma alu_add_sub_exact_witness :
  let s := CPU.init (bus0 []) in
  let s1 := snd (CPU._add 0xFF 1 s) in
  CPU.a s1 + 256 * Z.b2z (CPU._cf s1) = CPU.a s + 0xFF + 1.
Proof.
  intros s. apply (alu_add_sub_exact s 0xFF 1); unfold byte; cbn; lia.
Defined.

(** *** Checks over all byte operands *)

Lemma range_forall (P : Z -> bool) n :
  forallb P (PPU.range n) = true -> forall x, 0 <= x < Z.of_nat n -> P x = true.
Proof.
  intros H x Hx. rewrite forallb_forall in H. apply H.
  unfold PPU.range. apply in_map_iff. exists (Z.to_nat x). split; [lia|].
  apply in_seq. lia.
Qed.

Lemma every_byte (Q : Z -> Prop) (dec : forall x, Decision (Q x)) :
  forallb (fun x => bool_decide (Q x)) (PPU.range 256) = true ->
  forall x, byte x -> Q x.
Proof.
  intros H x Hx. apply (range_forall _ 256 H) in Hx.
  apply bool_decide_eq_true in Hx. exact Hx.
Qed.

Ltac by_all_bytes := refine (every_byte _ _ _); vm_compute; reflexivity.

Lemma is_bcd_byte x : CPUInv.is_bcd x = true -> byte x.
Proof.
  unfold CPUInv.is_bcd, byte. rewrite !andb_true_iff, !Z.leb_le.
  rewrite Z.shiftr_div_pow2 by lia. change (2 ^ 4) with 16. intros [[H0 H1] _]. euclid.
Qed.

Lemma daa_all_operands s :
  forallb (fun x => forallb (fun y => forallb (fun c =>
    let s0 := CPU.set_a x s in
    let s1 := snd (CPU.bind (CPU._add y c) (fun _ => CPU.daa) s0) in
    let s2 := snd (CPU.bind (CPU._sub y c) (fun _ => CPU.daa) s0) in
    implb (CPUInv.is_bcd x && CPUInv.is_bcd y)
      (CPUInv.is_bcd (CPU.a s1) &&
       (CPUInv.bcd_val (CPU.a s1) =? (CPUInv.bcd_val x + CPUInv.bcd_val y + c) mod 100) &&
       eqb (CPU._cf s1) (100 <=? CPUInv.bcd_val x + CPUInv.bcd_val y + c) &&
       eqb (CPU._zf s1) (CPU.a s1 =? 0) &&
       CPUInv.is_bcd (CPU.a s2) &&
       (CPUInv.bcd_val (CPU.a s2) =? (CPUInv.bcd_val x - CPUInv.bcd_val y - c) mod 100) &&
       eqb (CPU._cf s2) (CPUInv.bcd_val x - CPUInv.bcd_val y - c <? 0) &&
       eqb (CPU._zf s2) (CPU.a s2 =? 0)))
    (PPU.range 2)) (PPU.range 256)) (PPU.range 256) = true.
Proof. vm_compute. reflexivity. Qed.

(** X23: DAA after an addition or subtraction of packed-BCD bytes gives the
    packed-BCD result: with A and the operand holding two decimal digits
    each and a carry-in of 0 or 1, [ADD/ADC; DAA] leaves in A the decimal
    sum modulo 100 with C set exactly when the sum reaches 100, and
    [SUB/SBC; DAA] leaves the decimal difference modulo 100 with C set
    exactly on a borrow; Z tells whether A is 0. *)
Theorem daa_gives_decimal_result (s : CPU.t) (y cin : Z) :
  CPUInv.is_bcd (CPU.a s) = true -> CPUInv.is_bcd y = true -> 0 <= cin <= 1 ->
  let x := CPU.a s in
  let s1 := snd (CPU.bind (CPU._add y cin) (fun _ => CPU.daa) s) in
  let s2 := snd (CPU.bind (CPU._sub y cin) (fun _ => CPU.daa) s) in
  (CPUInv.is_bcd (CPU.a s1) = true /\
   CPUInv.bcd_val (CPU.a s1) = (CPUInv.bcd_val x + CPUInv.bcd_val y + cin) mod 100 /\
   CPU._cf s1 = (100 <=? CPUInv.bcd_val x + CPUInv.bcd_val y + cin) /\
   CPU._zf s1 = (CPU.a s1 =? 0)) /\
  (CPUInv.is_bcd (CPU.a s2) = true /\
   CPUInv.bcd_val (CPU.a s2) = (CPUInv.bcd_val x - CPUInv.bcd_val y - cin) mod 100 /\
   CPU._cf s2 = (CPUInv.bcd_val x - CPUInv.bcd_val y - cin <? 0) /\
   CPU._zf s2 = (CPU.a s2 =? 0)).
Proof.
  intros Hx Hy Hc.
  pose proof (daa_all_operands s) as H.
  pose proof (range_forall _ _ H (CPU.a s) (is_bcd_byte _ Hx)) as Hcase.
  pose proof (range_forall _ _ Hcase y (is_bcd_byte _ Hy)) as Hcase'.
  pose proof (range_forall _ _ Hcase' cin ltac:(lia)) as Hfin.
  clear H Hcase Hcase'. cbv zeta in Hfin.
  replace (CPU.set_a (CPU.a s) s) with s in Hfin by (destruct s; reflexivity).
  rewrite Hx, Hy in Hfin. cbn [andb implb] in Hfin.
  cbv zeta.
  repeat match type of Hfin with _ && _ = true => apply andb_true_iff in Hfin as [Hfin ?] end.
  repeat match goal with
  | H : (_ =? _) = true |- _ => apply Z.eqb_eq in H
  | H : eqb _ _ = true |- _ => apply eqb_prop in H
  end.
  repeat split; assumption.
Qed.

(** X23 for 0x38 + 0x45 = 83 and 0x38 - 0x45 = 93 (mod 100). *)
Lemma daa_gives_decimal_result_witness :
  let s := CPU.set_a 0x38 (CPU.init (bus0 [])) in
  let x := CPU.a s in
  let s1 := snd (CPU.bind (CPU._add 0x45 0) (fun _ => CPU.daa) s) in
  let s2 := snd (CPU.bind (CPU._sub 0x45 0) (fun _ => CPU.daa) s) in
  (CPUInv.is_bcd (CPU.a s1) = true /\
   CPUInv.bcd_val (CPU.a s1) = (CPUInv.bcd_val x + CPUInv.bcd_val 0x45 + 0) mod 100 /\
   CPU._cf s1 = (100 <=? CPUInv.bcd_val x + CPUInv.bcd_val 0x45 + 0) /\
   CPU._zf s1 = (CPU.a s1 =? 0)) /\
  (CPUInv.is_bcd (CPU.a s2) = true /\
   CPUInv.bcd_val (CPU.a s2) = (CPUInv.bcd_val x - CPUInv.bcd_val 0x45 - 0) mod 100 /\
   CPU._cf s2 = (CPUInv.bcd_val x - CPUInv.bcd_val 0x45 - 0 <? 0) /\
   CPU._zf s2 = (CPU.a s2 =? 0)).
Proof.
  intros s. apply (daa_gives_decimal_result s 0x45 0); [reflexivity | reflexivity | lia].
Defined.

(** *** Signed displacements *)

Lemma signed_xor v : byte v -> Z.lxor v 0x80 - 0x80 = CPUInv.signed8 v.
Proof. revert v. by_all_bytes. Qed.

(** X24: JR and ADD SP read their operand byte as a signed displacement:
    bytes below 128 move forward, the others move back by [256 - v], and
    the result wraps at 16 bits. *)
Theorem displacement_is_signed (s : CPU.t) (v : Z) :
  byte v ->
  CPU.pc (snd (CPU._jr v s)) = (CPU.pc s + CPUInv.signed8 v) mod 65536 /\
  fst (CPU._sp_add v s) = (CPU.sp s + CPUInv.signed8 v) mod 65536.
Proof.
  intros Hv. run_cpu. rewrite !land_16, (signed_xor v Hv). split; reflexivity.
Qed.

(** X24 for [JR -2] at the reset PC. *)
Lemma displacement_is_signed_witness :
  CPU.pc (snd (CPU._jr 0xFE (CPU.init (bus0 []))))
    = (CPU.pc (CPU.init (bus0 [])) + CPUInv.signed8 0xFE) mod 65536 /\
  fst (CPU._sp_add 0xFE (CPU.init (bus0 [])))
    = (CPU.sp (CPU.init (bus0 [])) + CPUInv.signed8 0xFE) mod 65536.
Proof. apply (displacement_is_signed (CPU.init (bus0 [])) 0xFE). unfold byte. lia. Defined.

(** *** Bit operations *)

Lemma testbit_one_hot n k : 0 <= n -> Z.testbit (Z.shiftl 1 n) k = (n =? k).
Proof. intros Hn. rewrite Z.shiftl_1_l. apply Z.pow2_bits_eqb. exact Hn. Qed.

(** X25: SET and RES change the named bit and no other, BIT reports that
    bit inverted in Z and keeps C, and SWAP applied twice gives the byte
    back. *)
Theorem bit_operations (s s' : CPU.t) (n v : Z) :
  0 <= n ->
  (forall k, Z.testbit (CPU._set_b n v) k = if n =? k then true else Z.testbit v k) /\
  (forall k, 0 <= k ->
     Z.testbit (CPU._res_b n v) k = if n =? k then false else Z.testbit v k) /\
  CPU._zf (snd (CPU._bit n v s)) = negb (Z.testbit v n) /\
  CPU._cf (snd (CPU._bit n v s)) = CPU._cf s /\
  (byte v -> fst (CPU._swap (fst (CPU._swap v s)) s') = v).
Proof.
  intros Hn. split; [|split; [|split; [|split]]].
  - intros k. unfold CPU._set_b. rewrite Z.lor_spec, testbit_one_hot by exact Hn.
    destruct (n =? k); [apply orb_true_r | apply orb_false_r].
  - intros k Hk. unfold CPU._res_b.
    rewrite Z.land_spec, Z.lnot_spec, testbit_one_hot by assumption.
    destruct (n =? k); [apply andb_false_r | apply andb_true_r].
  - run_cpu. read_flags. rewrite land_bit_testbit by exact Hn. reflexivity.
  - run_cpu. read_flags. reflexivity.
  - run_cpu. revert v. by_all_bytes.
Qed.

(** X25 for bit 7 of [0x3C]. *)
Lemma bit_operations_witness :
  CPU._zf (snd (CPU._bit 7 0x3C (CPU.init (bus0 [])))) = negb (Z.testbit 0x3C 7).
Proof. apply (bit_operations (CPU.init (bus0 [])) (CPU.init (bus0 [])) 7 0x3C). lia. Defined.

(** X26: a rotate right through carry undoes a rotate left through carry,
    and the other way round: the byte and the carry flag are both as
    before. *)
Theorem rotate_through_carry_inverse (s : CPU.t) (v : Z) :
  byte v ->
  let '(r, s1) := CPU._rl v true s in
  let '(v', s2) := CPU._rr r true s1 in
  let '(l, t1) := CPU._rr v true s in
  let '(v'', t2) := CPU._rl l true t1 in
  v' = v /\ CPU._cf s2 = CPU._cf s /\ v'' = v /\ CPU._cf t2 = CPU._cf s.
Proof.
  run_cpu. read_flags. destruct (truthy (Z.land (CPU.f s) 0x10)); revert v; by_all_bytes.
Qed.

(** X26 for [0x81] at the reset state (carry set). *)
Lemma rotate_through_carry_inverse_witness :
  let '(r, s1) := CPU._rl 0x81 true (CPU.init (bus0 [])) in
  let '(v', s2) := CPU._rr r true s1 in
  let '(l, t1) := CPU._rr 0x81 true (CPU.init (bus0 [])) in
  let '(v'', t2) := CPU._rl l true t1 in
  v' = 0x81 /\ CPU._cf s2 = CPU._cf (CPU.init (bus0 [])) /\
  v'' = 0x81 /\ CPU._cf t2 = CPU._cf (CPU.init (bus0 [])).
Proof. apply (rotate_through_carry_inverse (CPU.init (bus0 [])) 0x81). unfold byte. lia. Defined.

(** ** Value ranges on the bus *)

Lemma byte_at_byte buf i : Forall byte buf -> byte (byte_at buf i).
Proof.
  intros H. unfold byte_at. rewrite list_lookup_total_alt.
  destruct (buf !! Z.to_nat i) as [x|] eqn:Hx; cbn.
  - eapply Forall_lookup_1; eassumption.
  - unfold byte. cbn. lia.
Qed.

Lemma setitem_bytes buf i v : Forall byte buf -> byte v -> Forall byte (setitem buf i v).
Proof. intros Hb Hv. unfold setitem. apply Forall_insert; assumption. Qed.

Lemma byte_const n : (0 <=? n) && (n <? 256) = true -> byte n.
Proof. unfold byte. rewrite andb_true_iff, Z.leb_le, Z.ltb_lt. tauto. Qed.

Lemma cart_read_byte c a : CartridgeInv.well_formed c -> byte (Cartridge.read c a).
Proof.
  intros (_ & _ & Hrom & Hram). unfold Cartridge.read. cbv zeta.
  split_ifs; first [apply byte_at_byte; assumption | apply byte_const; reflexivity].
Qed.

Lemma cart_write_wf c a v :
  CartridgeInv.well_formed c -> CartridgeInv.well_formed (Cartridge.write c a v).
Proof.
  intros ((Hlen & Hbank) & Hrb & Hrom & Hram).
  unfold CartridgeInv.well_formed, CartridgeInv.ram_ok, Cartridge.write. cbv zeta.
  split_ifs; cart_fields; rewrite ?length_setitem;
    (split; [split|split; [|split]]);
    first [ assumption
          | apply land_3_range
          | apply setitem_bytes; [assumption | apply land_ff_byte]
          | lia
          | idtac ].
  all: repeat first [ lia
                    | apply Z.lor_nonneg; split
                    | apply Z.shiftl_nonneg
                    | apply Z.land_nonneg; right; lia ].
Qed.

Ltac conj_split := repeat match goal with |- _ /\ _ => split end.

Lemma ppu_read_byte p a : PPUInv.well_formed p -> byte (PPU.read p a).
Proof.
  intros (Hly & Hv & Ho & Hlcdc & Hscy & Hscx & Hlyc & Hbgp & Hp0 & Hp1 & Hwy & Hwx).
  unfold PPU.read. cbv zeta.
  split_ifs; first [ assumption
                   | apply byte_at_byte; assumption
                   | apply land_ff_byte
                   | apply byte_const; reflexivity
                   | unfold PPUInv.ly_ok, byte in *; lia ].
Qed.

Lemma bytearray_bytes n : Forall byte (bytearray n).
Proof. unfold bytearray. apply Forall_replicate. unfold byte. lia. Qed.

Lemma ppu_write_bytes p a v :
  PPUInv.bytes_ok p -> byte v -> PPUInv.bytes_ok (PPU.write p a v).
Proof.
  intros (Hv & Ho & Hlcdc & Hscy & Hscx & Hlyc & Hbgp & Hp0 & Hp1 & Hwy & Hwx) Hb.
  unfold PPUInv.bytes_ok, PPU.write. cbv zeta.
  split_ifs; ppu_fields; conj_split;
    first [assumption | apply setitem_bytes; assumption | apply bytearray_bytes].
Qed.

Lemma ppu_write_wf p a v :
  PPUInv.well_formed p -> byte v -> PPUInv.well_formed (PPU.write p a v).
Proof.
  intros [Hly Hb] Hv. split; [apply ppu_write_ly_ok, Hly | apply ppu_write_bytes; assumption].
Qed.

Lemma ppu_write_lengths p a v :
  length (PPU.vram (PPU.write p a v)) = length (PPU.vram p) /\
  length (PPU.oam (PPU.write p a v)) = length (PPU.oam p).
Proof.
  unfold PPU.write. cbv zeta. split_ifs; ppu_fields; rewrite ?length_setitem; split; reflexivity.
Qed.

Lemma joypad_read_byte j : byte (Joypad.read j).
Proof.
  destruct j as [a b sel start right left up down sb sd].
  destruct a, b, sel, start, right, left, up, down, sb, sd; apply byte_const; reflexivity.
Qed.

Lemma rb_byte m a : MMUInv.well_formed m -> byte (MMU.rb m a).
Proof.
  intros (Hs & Hc & Hp & Ht & Hw & Hh & HIE & HIF & Hsb & Hsc).
  unfold MMU.rb. cbv zeta.
  split_ifs; first [ assumption
                   | apply cart_read_byte; assumption
                   | apply ppu_read_byte; assumption
                   | apply timer_read_byte; assumption
                   | apply joypad_read_byte
                   | apply byte_at_byte; assumption
                   | apply lor_byte; [assumption | apply byte_const; reflexivity]
                   | apply byte_const; reflexivity ].
Qed.

Lemma word_join lo hi : byte lo -> byte hi -> word16 (Z.lor lo (Z.shiftl hi 8)).
Proof.
  unfold byte, word16. intros Hlo Hhi. apply (lor_bound 16); [lia | lia |].
  rewrite Z.shiftl_mul_pow2 by lia. change (2 ^ 8) with 256. change (2 ^ 16) with 65536. lia.
Qed.

Lemma rw_word m a : MMUInv.well_formed m -> word16 (MMU.rw m a).
Proof. intros H. unfold MMU.rw. apply word_join; apply rb_byte, H. Qed.

Lemma forall_byte_pointwise o n :
  length o = n -> (forall k, 0 <= k < Z.of_nat n -> byte (byte_at o k)) -> Forall byte o.
Proof.
  intros Hlen H. apply Forall_lookup_2. intros i x Hix.
  pose proof (lookup_lt_Some _ _ _ Hix) as Hi.
  specialize (H (Z.of_nat i) ltac:(lia)). unfold byte_at in H.
  rewrite Nat2Z.id in H. rewrite (list_lookup_total_correct _ _ _ Hix) in H. exact H.
Qed.

Lemma ppu_set_oam_wf p o :
  PPUInv.well_formed p -> Forall byte o -> PPUInv.well_formed (PPU.set_oam o p).
Proof.
  intros (Hly & Hv & Ho & Hrest) Hb.
  unfold PPUInv.well_formed, PPUInv.ly_ok, PPUInv.bytes_ok in *. ppu_fields.
  split; [exact Hly|]. split; [exact Hv|]. split; [exact Hb | exact Hrest].
Qed.

Lemma wb_wf m a v : MMUInv.well_formed m -> MMUInv.well_formed (MMU.wb m a v).
Proof.
  intros Hm. pose proof Hm as ((Hlw & Hlh & Hlv & Hlo) & Hc & Hp & Ht & Hw & Hh & HIE & HIF & Hsb & Hsc).
  pose proof (land_ff_byte v) as Hv.
  pose proof (ppu_write_lengths (MMU.ppu m) (Z.land a 0xFFFF) (Z.land v 0xFF)) as [Hwv Hwo].
  unfold MMU.wb. cbv zeta.
  destruct (Z.land a 0xFFFF =? 0xFF46) eqn:Hdma.
  - (* OAM DMA *)
    apply Z.eqb_eq in Hdma. rewrite Hdma. cbn [Z.ltb Z.eqb Z.leb Z.compare Pos.compare
      Pos.compare_cont Pos.eqb andb].
    destruct (dma_prefix m (Z.shiftl (Z.land v 0xFF) 8)) with (n := 160%nat)
      as (o & -> & Hlen & Hlow & _).
    + exists (Z.land v 0xFF). split; [exact Hv|].
      rewrite Z.shiftl_mul_pow2 by lia. change (2 ^ 8) with 256. lia.
    + exact Hlo.
    + lia.
    + unfold MMUInv.well_formed, MMUInv.sized. mmu_fields'. ppu_fields.
      conj_split; try assumption.
      apply ppu_set_oam_wf; [exact Hp|].
      eapply forall_byte_pointwise; [exact Hlen|].
      intros k Hk. rewrite Hlow by lia. apply rb_byte, Hm.
  - unfold MMUInv.well_formed, MMUInv.sized.
    split_ifs; mmu_fields'; rewrite ?length_setitem, ?Hwv, ?Hwo;
      conj_split;
      first [ assumption
            | apply cart_write_wf; assumption
            | apply ppu_write_wf; assumption
            | apply timer_write_ok; assumption
            | apply setitem_bytes; assumption
            | apply land_byte_l; assumption ].
Qed.

Lemma ww_wf m a v : MMUInv.well_formed m -> MMUInv.well_formed (MMU.ww m a v).
Proof. intros H. unfold MMU.ww. apply wb_wf, wb_wf, H. Qed.

(** ** Register ranges of the CPU *)

Lemma keeps_bind_val (I : CPU.t -> Prop) {A B : Type} (m : CPU.M A) (k : A -> CPU.M B) :
  keeps I m -> (forall s0, I s0 -> keeps I (k (fst (m s0)))) -> keeps I (CPU.bind m k).
Proof.
  intros Hm Hk s H. rewrite bind_eq. apply (Hk s H), Hm, H.
Qed.

Lemma keeps_bind_get (I : CPU.t -> Prop) {A B : Type} (proj : CPU.t -> A) (k : A -> CPU.M B) :
  (forall s0, I s0 -> keeps I (k (proj s0))) -> keeps I (CPU.bind (CPU.get proj) k).
Proof. intros Hk s H. rewrite bind_eq. apply (Hk s H), H. Qed.

Lemma flag_byte_byte zv nv hv cv : byte (CPU.flag_byte zv nv hv cv).
Proof. destruct zv, nv, hv, cv; apply byte_const; reflexivity. Qed.

Lemma wf_a s : CPUInv.well_formed s -> byte (CPU.a s).
Proof. intros H. apply H. Qed.
Lemma wf_f s : CPUInv.well_formed s -> byte (CPU.f s).
Proof. intros H. apply H. Qed.
Lemma wf_b s : CPUInv.well_formed s -> byte (CPU.b s).
Proof. intros H. apply H. Qed.
Lemma wf_c s : CPUInv.well_formed s -> byte (CPU.c s).
Proof. intros H. apply H. Qed.
Lemma wf_d s : CPUInv.well_formed s -> byte (CPU.d s).
Proof. intros H. apply H. Qed.
Lemma wf_e s : CPUInv.well_formed s -> byte (CPU.e s).
Proof. intros H. apply H. Qed.
Lemma wf_h s : CPUInv.well_formed s -> byte (CPU.h s).
Proof. intros H. apply H. Qed.
Lemma wf_l s : CPUInv.well_formed s -> byte (CPU.l s).
Proof. intros H. apply H. Qed.
Lemma wf_pc s : CPUInv.well_formed s -> word16 (CPU.pc s).
Proof. intros H. apply H. Qed.
Lemma wf_sp s : CPUInv.well_formed s -> word16 (CPU.sp s).
Proof. intros H. apply H. Qed.
Lemma wf_mmu s : CPUInv.well_formed s -> MMUInv.well_formed (CPU.mmu s).
Proof. intros H. apply H. Qed.

Lemma pair_word hi lo : byte hi -> byte lo -> word16 (Z.lor (Z.shiftl hi 8) lo).
Proof. intros Hh Hl. rewrite Z.lor_comm. apply word_join; assumption. Qed.

Lemma wf_bc s : CPUInv.well_formed s -> word16 (CPU._bc s).
Proof. intros H. apply pair_word; apply H. Qed.
Lemma wf_de s : CPUInv.well_formed s -> word16 (CPU._de s).
Proof. intros H. apply pair_word; apply H. Qed.
Lemma wf_hl s : CPUInv.well_formed s -> word16 (CPU._hl s).
Proof. intros H. apply pair_word; apply H. Qed.

Lemma wf_IF m : MMUInv.well_formed m -> byte (MMU.IF_ m).
Proof. intros H. apply H. Qed.

Lemma set_IF_wf m x : MMUInv.well_formed m -> byte x -> MMUInv.well_formed (MMU.set_IF_ x m).
Proof.
  intros (Hs & Hc & Hp & Ht & Hw & Hh & HIE & HIF & Hsb & Hsc) Hx.
  unfold MMUInv.well_formed, MMUInv.sized in *. mmu_fields'. conj_split; try assumption; apply Hs.
Qed.

Lemma fetch_byte s : CPUInv.well_formed s -> byte (fst (CPU._fetch s)).
Proof. intros H. apply rb_byte, H. Qed.

Lemma fetch16_word s : CPUInv.well_formed s -> word16 (fst (CPU._fetch16 s)).
Proof.
  intros H. cbv beta iota zeta delta [CPU._fetch16 CPU._fetch CPU.bind CPU.get CPU.rb
    CPU.modify CPU.ret fst snd]. cpu_fields.
  apply word_join; apply rb_byte, H.
Qed.

Lemma r8_byte reg s : CPUInv.well_formed s -> byte (fst (CPU._r8 reg s)).
Proof.
  intros H. unfold CPU._r8, CPU.get. cbn [fst].
  pose proof (rb_byte (CPU.mmu s) (CPU._hl s) (wf_mmu s H)).
  destruct H as (Ha & Hf & Hb & Hc & Hd & He & Hh & Hl & _).
  destruct (Z.to_nat reg) as [|[|[|[|[|[|[|[|n]]]]]]]]; cbn; try assumption.
  apply byte_const; reflexivity.
Qed.

Lemma pop_word s : CPUInv.well_formed s -> word16 (fst (CPU._pop s)).
Proof. intros H. apply rw_word, H. Qed.

Lemma inc8_byte v s : byte (fst (CPU._inc8 v s)).
Proof. apply land_ff_byte. Qed.
Lemma dec8_byte v s : byte (fst (CPU._dec8 v s)).
Proof. apply land_ff_byte. Qed.
Lemma sp_add_word v s : word16 (fst (CPU._sp_add v s)).
Proof. apply land_ffff_word. Qed.

Create HintDb wf discriminated.
#[local] Hint Resolve wf_a wf_f wf_b wf_c wf_d wf_e wf_h wf_l wf_pc wf_sp wf_mmu
  wf_bc wf_de wf_hl wf_IF set_IF_wf fetch_byte fetch16_word r8_byte pop_word
  inc8_byte dec8_byte sp_add_word rb_byte rw_word wb_wf ww_wf
  land_ff_byte land_ffff_word flag_byte_byte land_byte_l lor_byte lxor_byte : wf.
#[local] Hint Extern 1 (byte (Zpos _)) => (apply byte_const; reflexivity) : wf.
#[local] Hint Extern 1 (byte Z0) => (apply byte_const; reflexivity) : wf.
#[local] Hint Extern 1 (word16 (Zpos _)) => (unfold word16; lia) : wf.
#[local] Hint Extern 1 (word16 Z0) => (unfold word16; lia) : wf.

Ltac wf_modify :=
  let s := fresh "s" in let H := fresh "H" in
  intros s H; pose proof H as (? & ? & ? & ? & ? & ? & ? & ? & ? & ? & ? & ?);
  unfold CPUInv.well_formed; cpu_fields; conj_split;
  lazymatch goal with
  | |- _ <= _ => first [assumption | lia]
  | |- _ => first [assumption | solve [auto 6 with wf]]
  end.

Ltac wf_go known :=
  repeat lazymatch goal with
  | |- keeps _ (CPU.bind (CPU.get _) _) =>
      apply keeps_bind_get; let s0 := fresh "s0" in let H := fresh "Hs" in
      intros s0 H; cbv beta
  | |- keeps _ (CPU.bind (CPU.rb _) _) => unfold CPU.rb at 1
  | |- keeps _ (CPU.bind (CPU.rw _) _) => unfold CPU.rw at 1
  | |- keeps _ (CPU.bind _ _) =>
      apply keeps_bind_val; [| let s0 := fresh "s0" in let H := fresh "Hs" in
                               intros s0 H; cbv beta]
  | |- keeps _ (CPU.ret _) => apply keeps_ret
  | |- keeps _ (CPU.get _) => apply keeps_get
  | |- keeps _ (CPU.modify _) => apply keeps_modify; wf_modify
  | |- keeps _ (if ?b then _ else _) => destruct b
  | |- keeps _ ?m => first [ known | let g := head_of m in unfold g; cbv zeta ]
  end.

Lemma fetch_wf : keeps CPUInv.well_formed CPU._fetch.
Proof. wf_go fail. Qed.

Lemma fetch16_wf : keeps CPUInv.well_formed CPU._fetch16.
Proof. wf_go ltac:(idtac; lazymatch goal with |- keeps _ CPU._fetch => apply fetch_wf end). Qed.

Lemma w8_wf reg v : keeps CPUInv.well_formed (CPU._w8 reg v).
Proof. wf_go fail. Qed.

Lemma push_wf v : keeps CPUInv.well_formed (CPU._push v).
Proof. wf_go fail. Qed.

Lemma pop_wf : keeps CPUInv.well_formed CPU._pop.
Proof. wf_go fail. Qed.

Lemma daa_wf : keeps CPUInv.well_formed CPU.daa.
Proof.
  unfold CPU.daa. apply keeps_modify. intros s H.
  pose proof H as (Ha & Hf & Hrest).
  unfold CPUInv.well_formed.
  destruct (negb (CPU._nf s)); [destruct (orb (CPU._cf s) _)|]; cpu_fields;
    (split; [apply land_ff_byte|]); (split; [|exact Hrest]);
    (apply lor_byte; [apply land_byte_l; auto with wf | destruct (_ =? _); auto with wf]).
Qed.


Ltac wf_known :=
  idtac;
  lazymatch goal with
  | |- keeps _ CPU.daa => apply daa_wf
  | |- keeps _ CPU._fetch => apply fetch_wf
  | |- keeps _ CPU._fetch16 => apply fetch16_wf
  | |- keeps _ (CPU._w8 _ _) => apply w8_wf
  | |- keeps _ (CPU._push _) => apply push_wf
  | |- keeps _ CPU._pop => apply pop_wf
  end.

Lemma exec_wf op : keeps CPUInv.well_formed (CPU.exec op).
Proof. unfold CPU.exec. wf_go wf_known. Qed.

Lemma dispatch_wf fired : keeps CPUInv.well_formed (CPU.dispatch fired CPU.vectors).
Proof.
  unfold CPU.vectors. cbn [CPU.dispatch].
  wf_go wf_known.
Qed.

Lemma handle_interrupts_wf : keeps CPUInv.well_formed CPU.handle_interrupts.
Proof.
  unfold CPU.handle_interrupts.
  wf_go ltac:(idtac; lazymatch goal with
              | |- keeps _ (CPU.dispatch _ CPU.vectors) => apply dispatch_wf
              end).
Qed.

Lemma ei_delay_wf : keeps CPUInv.well_formed CPU.ei_delay.
Proof.
  intros s H. pose proof H as (? & ? & ? & ? & ? & ? & ? & ? & ? & ? & Hp & ?).
  cbv beta iota zeta delta [CPU.ei_delay CPU.bind CPU.get CPU.modify CPU.ret fst snd].
  destruct (Z.gtb_spec (CPU._ime_pending s) 0); [|exact H].
  cbn [fst snd]. cpu_fields.
  destruct (CPU._ime_pending s - 1 =? 0); cbn [snd];
    unfold CPUInv.well_formed; cpu_fields; conj_split; first [assumption | lia].
Qed.

Lemma step_wf : keeps CPUInv.well_formed CPU.step.
Proof.
  unfold CPU.step, CPU.fetch_execute.
  wf_go ltac:(idtac; lazymatch goal with
              | |- keeps _ CPU.ei_delay => apply ei_delay_wf
              | |- keeps _ CPU.handle_interrupts => apply handle_interrupts_wf
              | |- keeps _ CPU._fetch => apply fetch_wf
              | |- keeps _ (CPU.exec _) => apply exec_wf
              end).
Qed.

Lemma init_bytes_ok : PPUInv.well_formed PPU.init.
Proof.
  unfold PPUInv.well_formed, PPUInv.ly_ok, PPUInv.bytes_ok, PPU.init. ppu_fields.
  split; [lia|]. conj_split; first [apply bytearray_bytes | apply byte_const; reflexivity].
Qed.

Lemma bus0_wf data : Forall byte data -> MMUInv.well_formed (bus0 data).
Proof.
  intros Hd. unfold MMUInv.well_formed. split; [apply bus0_sized|].
  unfold bus0, MMU.init. mmu_fields'.
  split.
  { unfold CartridgeInv.well_formed. split; [apply cartridge_init_ram_ok|].
    unfold Cartridge.init. cart_fields. split; [lia|]. split; [exact Hd | apply bytearray_bytes]. }
  split; [apply init_bytes_ok|].
  split; [unfold timer_ok, Timer.init, word16, byte; cbn; lia|].
  conj_split; first [apply bytearray_bytes | apply byte_const; reflexivity].
Qed.

Lemma cpu_init_wf m : MMUInv.well_formed m -> CPUInv.well_formed (CPU.init m).
Proof.
  intros Hm. unfold CPUInv.well_formed, CPU.init. cpu_fields.
  conj_split; first [exact Hm | apply byte_const; reflexivity | unfold word16; lia | lia].
Qed.

(** ** The whole system stays in range *)

Lemma refresh_stat_mem_eq s : PPUInv.mem_eq s (PPU.refresh_stat s).
Proof.
  unfold PPUInv.mem_eq, PPU.refresh_stat. cbv zeta. ppu_fields. conj_split; reflexivity.
Qed.

Lemma mem_eq_trans s1 s2 s3 :
  PPUInv.mem_eq s1 s2 -> PPUInv.mem_eq s2 s3 -> PPUInv.mem_eq s1 s3.
Proof. unfold PPUInv.mem_eq. intuition congruence. Qed.

Lemma regs_eq_mem_eq s s' : PPUInv.regs_eq s s' -> PPUInv.mem_eq s s'.
Proof. unfold PPUInv.regs_eq, PPUInv.mem_eq. intuition. Qed.

Ltac mem_eq_sets := unfold PPUInv.mem_eq; ppu_fields; conj_split; reflexivity.

Lemma ppu_step_mem_eq s cyc vb st s' :
  0 <= PPU.ly s -> PPU.step s cyc = Some (vb, st, s') -> PPUInv.mem_eq s s'.
Proof.
  intros Hly Hstep.
  destruct (truthy (Z.land (PPU.lcdc s) 0x80)) eqn:Hon.
  2:{ rewrite step_lcd_off in Hstep by exact Hon. injection Hstep as _ _ <-. mem_eq_sets. }
  destruct (step_some _ _ _ _ _ Hstep Hon) as (s0 & -> & Hcase). cbv zeta in Hcase.
  apply (mem_eq_trans s s0); [|apply refresh_stat_mem_eq].
  destruct Hcase as [(Hm & _ & [[_ ->] | [_ ->]])
                    | [(Hm & _ & [(_ & r & Hr & ->) | [_ ->]])
                    | [(Hm & [(_ & ? & _ & ->) | [(_ & ? & _ & ->) | (_ & _ & ->)]])
                    | [(Hm & _ & [(_ & ? & ->) | [(_ & ? & ->) | [_ ->]]])
                    | (? & ? & ? & ? & _ & ->)]]]]; try mem_eq_sets.
  apply render_redraws in Hr; [|ppu_fields; exact Hly].
  destruct Hr as (Hreg & _). apply regs_eq_mem_eq in Hreg.
  apply (mem_eq_trans s r); [|mem_eq_sets].
  apply (mem_eq_trans s (PPU.set_cycles (PPU.cycles s + cyc - 172) s)); [mem_eq_sets | exact Hreg].
Qed.

Lemma ppu_step_wf s cyc vb st s' :
  PPUInv.well_formed s -> PPU.step s cyc = Some (vb, st, s') ->
  PPUInv.well_formed s' /\ PPU.vram s' = PPU.vram s /\ PPU.oam s' = PPU.oam s.
Proof.
  intros [Hly Hb] Hstep.
  assert (Hm : PPUInv.mem_eq s s').
  { eapply ppu_step_mem_eq; [|exact Hstep]. unfold PPUInv.ly_ok in Hly. lia. }
  split; [split|].
  - eapply ppu_step_ly_ok; eassumption.
  - unfold PPUInv.bytes_ok, PPUInv.mem_eq in *.
    destruct Hm as (-> & -> & -> & -> & -> & -> & -> & -> & -> & -> & ->). exact Hb.
  - split; apply Hm.
Qed.

Lemma or_if_wf cond bits m :
  MMUInv.well_formed m -> byte bits -> MMUInv.well_formed (GameBoy.or_if cond bits m).
Proof.
  intros Hm Hb. unfold GameBoy.or_if. destruct cond; [|exact Hm].
  apply set_IF_wf; [exact Hm|]. apply lor_byte; [apply Hm | exact Hb].
Qed.

Lemma set_devices_wf m p tm :
  MMUInv.well_formed m -> PPUInv.well_formed p ->
  PPU.vram p = PPU.vram (MMU.ppu m) -> PPU.oam p = PPU.oam (MMU.ppu m) ->
  timer_ok tm ->
  MMUInv.well_formed (MMU.set_timer tm (MMU.set_ppu p m)).
Proof.
  intros ((Hlw & Hlh & Hlv & Hlo) & Hc & Hp & Ht & Hw & Hh & HIE & HIF & Hsb & Hsc) Hp' Hv Ho Htm.
  unfold MMUInv.well_formed, MMUInv.sized. mmu_fields'. rewrite Hv, Ho.
  conj_split; assumption.
Qed.

Lemma iteration_wf cp total cp' total' :
  CPUInv.well_formed cp -> total = CPU.cycles cp ->
  GameBoy.iteration cp total = Some (cp', total') ->
  CPUInv.well_formed cp' /\ total' = CPU.cycles cp'.
Proof.
  intros Hwf Htot. unfold GameBoy.iteration. cbv zeta.
  pose proof (step_wf cp Hwf) as Hs. set (cp1 := snd (CPU.step cp)) in *.
  destruct (PPU.step _ _) as [[[vb st] p]|] eqn:Hp; [|discriminate].
  destruct (Timer.step _ _) as [ti tm] eqn:Ht. intros H. injection H as <- <-.
  split; [|cpu_fields; lia].
  pose proof Hs as (? & ? & ? & ? & ? & ? & ? & ? & ? & ? & ? & Hm).
  destruct (ppu_step_wf _ _ _ _ _ (proj1 (proj2 (proj2 Hm))) Hp) as (Hp' & Hv & Ho).
  assert (Htm : timer_ok tm).
  { replace tm with (snd (Timer.step (MMU.timer (MMU.set_ppu p (CPU.mmu cp1)))
                             (CPU.cycles cp1 - CPU.cycles cp))) by (rewrite Ht; reflexivity).
    apply timer_step_ok. mmu_fields'. apply Hm. }
  unfold CPUInv.well_formed. cpu_fields. conj_split; try assumption; try lia.
  unfold INT_VBLANK, INT_STAT, INT_TIMER.
  repeat apply or_if_wf; try (apply byte_const; reflexivity).
  apply set_devices_wf; assumption.
Qed.

Lemma loop_wf fuel : forall target run cp total g',
  CPUInv.well_formed cp -> total = CPU.cycles cp ->
  GameBoy.loop fuel target run cp total = GameBoy.Returned g' -> system_ok g'.
Proof.
  induction fuel as [|fuel IH]; intros target run cp total g' Hwf Htot; cbn [GameBoy.loop].
  - destruct (total <? target); [discriminate|]. intros H. injection H as <-.
    unfold system_ok. cbn. split; assumption.
  - destruct (total <? target).
    + destruct (GameBoy.iteration cp total) as [[cp' total']|] eqn:Hit; [|discriminate].
      destruct (iteration_wf _ _ _ _ Hwf Htot Hit) as [Hwf' Htot']. apply IH; assumption.
    + intros H. injection H as <-. unfold system_ok. cbn. split; assumption.
Qed.

Lemma run_frame_wf g g' :
  system_ok g -> GameBoy.run_frame g = GameBoy.Returned g' -> system_ok g'.
Proof.
  unfold system_ok at 1, GameBoy.run_frame, GameBoy.run_frame_fuel.
  destruct (GameBoy.cpu g) as [cp|] eqn:Hcpu.
  - intros [Hwf Htot]. apply loop_wf; assumption.
  - intros _ H. injection H as <-. unfold system_ok. rewrite Hcpu. exact I.
Qed.

Lemma load_wf g data : Forall byte data -> system_ok (GameBoy.load g data).
Proof.
  intros Hd. unfold system_ok, GameBoy.load. cbn [GameBoy.cpu GameBoy.total_cyc].
  split; [|reflexivity]. apply cpu_init_wf, (bus0_wf data Hd).
Qed.

Lemma forallb_bytes l : forallb (fun x => (0 <=? x) && (x <? 256)) l = true -> Forall byte l.
Proof.
  induction l as [|x l IH]; cbn [forallb]; intros H; constructor.
  - apply byte_const. apply andb_true_iff in H. apply H.
  - apply IH. apply andb_true_iff in H. apply H.
Qed.

(** X27: on a well-formed bus every read returns a byte, every 16-bit
    read a 16-bit value, and every write, whatever the address and the
    value (OAM DMA included), leaves the bus well formed: all buffers keep
    their sizes and hold bytes, and every device register stays in its
    range. *)
Theorem bus_values_stay_in_range (m : MMU.t) (a v : Z) :
  MMUInv.well_formed m ->
  byte (MMU.rb m a) /\ word16 (MMU.rw m a) /\
  MMUInv.well_formed (MMU.wb m a v) /\ MMUInv.well_formed (MMU.ww m a v).
Proof.
  intros H. split; [apply rb_byte, H|]. split; [apply rw_word, H|].
  split; [apply wb_wf, H | apply ww_wf, H].
Qed.

(** X27 on a fresh bus: a DMA from page [0xC0]. *)
Lemma bus_values_stay_in_range_witness :
  byte (MMU.rb (bus0 []) 0xFF46) /\ word16 (MMU.rw (bus0 []) 0xFF46) /\
  MMUInv.well_formed (MMU.wb (bus0 []) 0xFF46 0xC0) /\
  MMUInv.well_formed (MMU.ww (bus0 []) 0xFF46 0xC0).
Proof.
  apply (bus_values_stay_in_range (bus0 []) 0xFF46 0xC0). apply bus0_wf. constructor.
Defined.

(** X28: one CPU step, whatever it executes (any opcode, a halted tick or
    an interrupt dispatch), keeps the eight 8-bit registers within a byte,
    PC and SP within 16 bits, the EI countdown within 0..2, and the bus
    well formed. *)
Theorem cpu_step_keeps_register_ranges (s : CPU.t) :
  CPUInv.well_formed s -> CPUInv.well_formed (snd (CPU.step s)).
Proof. apply step_wf. Qed.

(** X28 at the reset state of an empty cartridge. *)
Lemma cpu_step_keeps_register_ranges_witness :
  CPUInv.well_formed (snd (CPU.step (CPU.init (bus0 [])))).
Proof.
  apply (cpu_step_keeps_register_ranges (CPU.init (bus0 []))).
  apply cpu_init_wf, bus0_wf. constructor.
Defined.

(** X29: a system loaded from an image of bytes is well formed, and stays
    so over any number of frames that return: registers, memory and
    device state are in range, and the system's cycle total equals the
    CPU's cycle counter. *)
Theorem system_stays_well_formed (g0 : GameBoy.t) (data : list Z) (n : nat) :
  Forall byte data ->
  match run_frames n (GameBoy.load g0 data) with
  | GameBoy.Returned g => system_ok g
  | _ => True
  end.
Proof.
  intros Hd. pose proof (load_wf g0 data Hd) as H.
  generalize dependent (GameBoy.load g0 data). clear Hd.
  induction n as [|n IH]; intros g H; cbn [run_frames]; [exact H|].
  destruct (GameBoy.run_frame g) as [g'| |] eqn:Hrun; try exact I.
  apply IH. eapply run_frame_wf; eassumption.
Qed.

(** X29 for two frames of [rom_late_timer]. *)
Lemma system_stays_well_formed_witness :
  match run_frames 2 (GameBoy.load GameBoy.init rom_late_timer) with
  | GameBoy.Returned g => system_ok g
  | _ => True
  end.
Proof.
  apply (system_stays_well_formed GameBoy.init rom_late_timer 2).
  apply forallb_bytes. vm_compute. reflexivity.
Defined.

(** ** The EI delay *)

Ltac ime_modify :=
  let s := fresh "s" in let H := fresh "H" in
  intros s H; unfold CPUInv.ime_is in *; cpu_fields; exact H.

Lemma daa_keeps_ime b n : keeps (CPUInv.ime_is b n) CPU.daa.
Proof.
  intros s H. unfold CPUInv.ime_is, CPU.daa, CPU.modify in *. cbn [snd].
  destruct (negb _); [destruct (orb _ _) |]; cpu_fields; exact H.
Qed.

Lemma exec_keeps_ime b n op :
  CPUInv.ime_opcode op = false -> keeps (CPUInv.ime_is b n) (CPU.exec op).
Proof.
  unfold CPUInv.ime_opcode. rewrite !orb_false_iff. intros [[H1 H2] H3].
  unfold CPU.exec. rewrite H1, H2, H3. cbv iota.
  keeps_go ltac:(apply daa_keeps_ime) ime_modify.
Qed.

Lemma ei_delay_counts s :
  CPU._ime_pending s = 2 -> CPU.ei_delay s = (tt, CPU.set_ime_pending 1 s).
Proof.
  intros H. cbv beta iota zeta delta [CPU.ei_delay CPU.bind CPU.get CPU.modify CPU.ret fst snd].
  cpu_fields. rewrite H. change (2 >? 0) with true. cbv beta iota. rewrite H. reflexivity.
Qed.

Lemma ei_delay_fires s :
  CPU._ime_pending s = 1 ->
  CPU.ei_delay s = (tt, CPU.set_ime true (CPU.set_ime_pending 0 s)).
Proof.
  intros H. cbv beta iota zeta delta [CPU.ei_delay CPU.bind CPU.get CPU.modify CPU.ret fst snd].
  cpu_fields. rewrite H. change (1 >? 0) with true. cbv beta iota. rewrite H. reflexivity.
Qed.

Lemma handle_interrupts_ime_off s :
  CPU.ime s = false ->
  snd (CPU.handle_interrupts s) = s \/ snd (CPU.handle_interrupts s) = CPU.set_halted false s.
Proof.
  intros Hime.
  cbv beta iota zeta delta [CPU.handle_interrupts CPU.bind CPU.get CPU.modify CPU.ret fst snd].
  destruct (truthy _); [|left; reflexivity].
  destruct (CPU.halted s); cpu_fields; rewrite Hime; [right | left]; reflexivity.
Qed.

Lemma step_after_ei s :
  CPU.ime s = false -> CPU._ime_pending s = 2 ->
  CPUInv.ime_opcode (MMU.rb (CPU.mmu s) (CPU.pc s)) = false ->
  CPUInv.ime_is false 1 (snd (CPU.step s)).
Proof.
  intros Hime Hp Hop. unfold CPU.step.
  rewrite bind_eq, (ei_delay_counts s Hp). cbn [fst snd].
  set (sa := CPU.set_ime_pending 1 s).
  assert (Ha : CPUInv.ime_is false 1 sa) by (split; [exact Hime | reflexivity]).
  rewrite bind_eq.
  assert (Hb : exists sb, snd (CPU.handle_interrupts sa) = sb /\ CPUInv.ime_is false 1 sb /\
                          CPU.mmu sb = CPU.mmu s /\ CPU.pc sb = CPU.pc s).
  { destruct (handle_interrupts_ime_off sa (proj1 Ha)) as [-> | ->];
      eexists; (split; [reflexivity|]); repeat split; assumption. }
  destruct Hb as (sb & -> & Hsb & Hm & Hpc).
  rewrite bind_eq. cbn [CPU.get fst snd].
  destruct (CPU.halted sb).
  - unfold CPU.modify. cbn [snd]. unfold CPUInv.ime_is in *. cpu_fields. exact Hsb.
  - unfold CPU.fetch_execute, CPU._fetch, CPU.rb.
    rewrite !bind_eq. cbn [CPU.get CPU.modify CPU.ret fst snd]. cpu_fields.
    rewrite Hm, Hpc.
    match goal with
    | |- CPUInv.ime_is _ _ (CPU.set_cycles _ (snd (CPU.exec _ ?st))) =>
        pose proof (exec_keeps_ime false 1 _ Hop st) as Hex
    end.
    unfold CPUInv.ime_is in *. cpu_fields. apply Hex. exact Hsb.
Qed.

(** X30: EI takes effect one instruction late.  EI itself only arms the
    countdown at 2 and leaves IME as it was.  From there (IME off) the
    next step, unless it runs DI, EI or RETI, ends with IME still off and
    the countdown at 1: that instruction cannot be interrupted.  The step
    after it switches IME on before it looks at the interrupt requests, so
    a pending request is dispatched there. *)
Theorem ei_takes_effect_one_instruction_late (s : CPU.t) :
  CPU.ime s = false -> CPU._ime_pending s = 2 ->
  CPUInv.ime_opcode (MMU.rb (CPU.mmu s) (CPU.pc s)) = false ->
  let s1 := snd (CPU.step s) in
  let s2 := snd (CPU.ei_delay s1) in
  (forall s0, CPU._ime_pending (snd (CPU.exec 0xFB s0)) = 2 /\
              CPU.ime (snd (CPU.exec 0xFB s0)) = CPU.ime s0) /\
  CPU.ime s1 = false /\ CPU._ime_pending s1 = 1 /\
  CPU.ime s2 = true /\ CPU._ime_pending s2 = 0 /\
  (pending s2 <> 0 ->
   snd (CPU.handle_interrupts s2)
   = serve (lowest_bit (pending s2)) (CPU.set_ime false (CPU.set_halted false s2))).
Proof.
  intros Hime Hp Hop s1 s2.
  destruct (step_after_ei s Hime Hp Hop) as [H1 H2]. fold s1 in H1, H2.
  assert (Hs2 : s2 = CPU.set_ime true (CPU.set_ime_pending 0 s1)).
  { subst s2. rewrite (ei_delay_fires s1 H2). reflexivity. }
  split; [intros s0; split; reflexivity|].
  split; [exact H1|]. split; [exact H2|].
  split; [rewrite Hs2; reflexivity|]. split; [rewrite Hs2; reflexivity|].
  intros Hpend. apply handle_interrupts_dispatches; [exact Hpend | rewrite Hs2; reflexivity].
Qed.

(** X30 on [EI; NOP; NOP], after the EI has run. *)
Lemma ei_takes_effect_one_instruction_late_witness :
  let s := steps 1 (boot (rom_at_entry [0xFB; 0x00; 0x00])) in
  let s1 := snd (CPU.step s) in
  let s2 := snd (CPU.ei_delay s1) in
  CPU.ime s1 = false /\ CPU._ime_pending s1 = 1 /\
  CPU.ime s2 = true /\ CPU._ime_pending s2 = 0.
Proof.
  intros s s1 s2.
  assert (H1 : CPU.ime s = false) by (vm_compute; reflexivity).
  assert (H2 : CPU._ime_pending s = 2) by (vm_compute; reflexivity).
  assert (H3 : CPUInv.ime_opcode (MMU.rb (CPU.mmu s) (CPU.pc s)) = false)
    by (vm_compute; reflexivity).
  destruct (ei_takes_effect_one_instruction_late s H1 H2 H3) as (_ & Ha & Hb & Hc & Hd & _).
  repeat split; assumption.
Defined.
